(** * CARMA comparables engine: a shallow embedding of
      [recommender_engine/autoscout-ml/src/api.py] and the properties of its
      retrieval ladder, similarity engine, deal scorer, ranker and request
      handler.

    Conventions of the embedding.
    - A Python [str] is the list of its Unicode code points ([pystr]).
    - [Optional[T]] is [option T]; Python truthiness of an optional string
      or number is spelled out ([truthy_str], [positive], [truthy]).
    - A Python float that is stored, compared or sorted is a rational ([Q]):
      every finite float is one.  Where the code calls [math.exp] the
      arithmetic is carried out over the reals ([R]); rounding is not
      modelled.
    - The listing store is a list of rows in the order the store returns
      them ([ORDER BY created_at DESC]); a query filters it with the
      [WHERE] clause and truncates it with [LIMIT]. *)

From Stdlib Require Import List Bool Arith ZArith NArith QArith Qminmax.
From Stdlib Require Import String Ascii Psatz Reals Qreals Sorted.
From Stdlib Require Import ListSet Permutation Qabs Qround Qpower.
Import ListNotations.

(* ------------------------------------------------------------------ *)
(** ** Python strings *)
(* ------------------------------------------------------------------ *)

Module PyStr.

Definition pystr := list N.

(** Source literals are written as Rocq string literals and decoded from
    UTF-8 (one- and two-byte sequences, which covers every literal of the
    source file). *)
Fixpoint utf8 (s : string) : pystr :=
  match s with
  | EmptyString => []
  | String a rest =>
      let b := N_of_ascii a in
      if (b <? 128)%N then b :: utf8 rest
      else match rest with
           | EmptyString => [b]
           | String a2 rest2 =>
               ((b mod 32) * 64 + (N_of_ascii a2 mod 64))%N :: utf8 rest2
           end
  end.

Fixpoint eqb (a b : pystr) : bool :=
  match a, b with
  | [], [] => true
  | x :: a', y :: b' => (x =? y)%N && eqb a' b'
  | _, _ => false
  end.

(** [str.isspace]: the code points Python (and the [\s] class of [re] on
    [str] patterns) treats as whitespace. *)
Definition is_space (c : N) : bool :=
  ((9 <=? c) && (c <=? 13) || (28 <=? c) && (c <=? 32)
   || (c =? 133) || (c =? 160) || (c =? 5760)
   || (8192 <=? c) && (c <=? 8202)
   || (c =? 8232) || (c =? 8233) || (c =? 8239) || (c =? 8287)
   || (c =? 12288))%N.

(** ASCII decimal digits; [str.isdigit] on other scripts is not modelled. *)
Definition is_digit (c : N) : bool := ((48 <=? c) && (c <=? 57))%N.

Definition in_range (lo hi c : N) : bool := ((lo <=? c) && (c <=? hi))%N.

(** One code point of [strip_accents]: the NFKD decomposition of [c] with
    the combining marks (canonical combining class not 0) removed.  The
    table covers ASCII, the Latin-1 supplement, the combining diacritical
    marks block and the Unicode space characters; any other code point is
    taken to have no decomposition. *)
Definition nfkd_base (c : N) : pystr :=
  if (c <? 128)%N then [c]
  else if (12288 <? c)%N then [c]
  else if (c =? 160)%N || (c =? 168)%N || (c =? 175)%N || (c =? 180)%N
          || (c =? 184)%N then [32%N]
  else if (c =? 170)%N then [97%N]
  else if (c =? 178)%N then [50%N]
  else if (c =? 179)%N then [51%N]
  else if (c =? 181)%N then [956%N]
  else if (c =? 185)%N then [49%N]
  else if (c =? 186)%N then [111%N]
  else if (c =? 188)%N then [49; 8260; 52]%N
  else if (c =? 189)%N then [49; 8260; 50]%N
  else if (c =? 190)%N then [51; 8260; 52]%N
  else if in_range 192 197 c then [65%N]
  else if (c =? 199)%N then [67%N]
  else if in_range 200 203 c then [69%N]
  else if in_range 204 207 c then [73%N]
  else if (c =? 209)%N then [78%N]
  else if in_range 210 214 c then [79%N]
  else if in_range 217 220 c then [85%N]
  else if (c =? 221)%N then [89%N]
  else if in_range 224 229 c then [97%N]
  else if (c =? 231)%N then [99%N]
  else if in_range 232 235 c then [101%N]
  else if in_range 236 239 c then [105%N]
  else if (c =? 241)%N then [110%N]
  else if in_range 242 246 c then [111%N]
  else if in_range 249 252 c then [117%N]
  else if (c =? 253)%N || (c =? 255)%N then [121%N]
  else if in_range 768 879 c && negb (c =? 847)%N then []
  else if in_range 8192 8202 c || (c =? 8239)%N || (c =? 8287)%N
          || (c =? 12288)%N then [32%N]
  else [c].

(** [strip_accents]: NFKD-normalise and drop the combining characters.
    Canonical reordering only permutes combining marks, all of which are
    dropped, so the result is the concatenation of the per-code-point
    bases. *)
Definition strip_accents (value : pystr) : pystr := flat_map nfkd_base value.

(** One code point of [str.lower] (ASCII and Latin-1 letters; other
    scripts are taken as caseless). *)
Definition lower_cp (c : N) : N :=
  if in_range 65 90 c then (c + 32)%N
  else if in_range 192 222 c && negb (c =? 215)%N then (c + 32)%N
  else c.

Definition lower (s : pystr) : pystr := map lower_cp s.

Fixpoint lstrip (s : pystr) : pystr :=
  match s with
  | [] => []
  | c :: t => if is_space c then lstrip t else s
  end.

Fixpoint rstrip (s : pystr) : pystr :=
  match s with
  | [] => []
  | c :: t =>
      match rstrip t with
      | [] => if is_space c then [] else [c]
      | t' => c :: t'
      end
  end.

(** [str.strip()] *)
Definition strip (s : pystr) : pystr := rstrip (lstrip s).

(** [s.replace(a, b)] for single code points. *)
Definition replace_cp (a b : N) (s : pystr) : pystr :=
  map (fun c => if (c =? a)%N then b else c) s.

(** [re.sub(r"\s+", " ", s)]: [in_run] tells whether the previous code
    point was part of the whitespace run being replaced. *)
Fixpoint sub_ws (in_run : bool) (s : pystr) : pystr :=
  match s with
  | [] => []
  | c :: t =>
      if is_space c
      then (if in_run then sub_ws true t else 32%N :: sub_ws true t)
      else c :: sub_ws false t
  end.

Fixpoint prefixb (p s : pystr) : bool :=
  match p, s with
  | [], _ => true
  | x :: p', y :: s' => (x =? y)%N && prefixb p' s'
  | _ :: _, [] => false
  end.

(** [kw in s] on strings: substring test. *)
Fixpoint contains (s kw : pystr) : bool :=
  prefixb kw s ||
  match s with
  | [] => false
  | _ :: t => contains t kw
  end.

(** [s.split(sep)] for a single code point separator. *)
Fixpoint split_cp (sep : N) (cur : pystr) (s : pystr) : list pystr :=
  match s with
  | [] => [rev cur]
  | c :: t =>
      if (c =? sep)%N then rev cur :: split_cp sep [] t
      else split_cp sep (c :: cur) t
  end.

(** Value of a string of ASCII digits, most significant first. *)
Definition digits_value (s : pystr) : Z :=
  fold_left (fun acc c => (acc * 10 + (Z.of_N c - 48))%Z) s 0%Z.

(** Truthiness of an [Optional[str]]. *)
Definition truthy_str (v : option pystr) : bool :=
  match v with
  | Some (_ :: _) => true
  | _ => false
  end.

(** [a or b] on optional strings. *)
Definition or_str (a b : option pystr) : option pystr :=
  if truthy_str a then a else b.

End PyStr.

(* ------------------------------------------------------------------ *)
(** ** Component A: normalisation helpers *)
(* ------------------------------------------------------------------ *)

Module Normalize.
Import PyStr.

(** A Python [dict] with string keys and string values, in insertion
    order. *)
Definition dict := list (pystr * pystr).

Fixpoint dict_get (d : dict) (k : pystr) : option pystr :=
  match d with
  | [] => None
  | (k', v) :: d' => if eqb k k' then Some v else dict_get d' k
  end.

Definition COLOR_CANONICAL_MAP : dict :=
  [ (utf8 "weiss", utf8 "white");
    (utf8 "weiß", utf8 "white");
    (utf8 "weiß metallic", utf8 "white");
    (utf8 "weiss metallic", utf8 "white");
    (utf8 "white", utf8 "white");
    (utf8 "candy white", utf8 "white");
    (utf8 "polar white", utf8 "white");
    (utf8 "pure white", utf8 "white");
    (utf8 "alpinweiss", utf8 "white");
    (utf8 "alpine white", utf8 "white");
    (utf8 "blanc", utf8 "white");
    (utf8 "bianco", utf8 "white");
    (utf8 "schwarz", utf8 "black");
    (utf8 "schwarz metallic", utf8 "black");
    (utf8 "black", utf8 "black");
    (utf8 "deep black", utf8 "black");
    (utf8 "noir", utf8 "black");
    (utf8 "nero", utf8 "black");
    (utf8 "grau", utf8 "gray");
    (utf8 "grau metallic", utf8 "gray");
    (utf8 "graphit", utf8 "gray");
    (utf8 "graphite", utf8 "gray");
    (utf8 "grey", utf8 "gray");
    (utf8 "gris", utf8 "gray");
    (utf8 "anthrazit", utf8 "gray");
    (utf8 "anthracite", utf8 "gray");
    (utf8 "blau", utf8 "blue");
    (utf8 "azul", utf8 "blue");
    (utf8 "bleu", utf8 "blue");
    (utf8 "blu", utf8 "blue");
    (utf8 "rot", utf8 "red");
    (utf8 "rosso", utf8 "red");
    (utf8 "rouge", utf8 "red");
    (utf8 "silber", utf8 "silver");
    (utf8 "silber metallic", utf8 "silver");
    (utf8 "silver", utf8 "silver");
    (utf8 "argent", utf8 "silver");
    (utf8 "grun", utf8 "green");
    (utf8 "grün", utf8 "green");
    (utf8 "verde", utf8 "green");
    (utf8 "vert", utf8 "green");
    (utf8 "braun", utf8 "brown");
    (utf8 "marron", utf8 "brown");
    (utf8 "bruin", utf8 "brown");
    (utf8 "beige", utf8 "beige");
    (utf8 "sand", utf8 "beige");
    (utf8 "creme", utf8 "beige");
    (utf8 "orange", utf8 "orange");
    (utf8 "gelb", utf8 "yellow");
    (utf8 "amarillo", utf8 "yellow");
    (utf8 "giallo", utf8 "yellow") ].

Definition FUEL_MAP : dict :=
  [ (utf8 "benzin", utf8 "petrol");
    (utf8 "elektro", utf8 "electric");
    (utf8 "diesel", utf8 "diesel");
    (utf8 "elektro/benzin", utf8 "hybrid");
    (utf8 "plugin-hybrid", utf8 "plug-in hybrid");
    (utf8 "hybrid", utf8 "hybrid");
    (utf8 "lpg", utf8 "lpg");
    (utf8 "cng", utf8 "cng") ].

Definition TRANSMISSION_MAP : dict :=
  [ (utf8 "automatik", utf8 "automatic");
    (utf8 "schaltgetriebe", utf8 "manual");
    (utf8 "manuell", utf8 "manual");
    (utf8 "tiptronic", utf8 "automatic") ].

Definition BODY_TYPE_MAP : dict :=
  [ (utf8 "suv/geländewagen/pickup", utf8 "suv");
    (utf8 "geländewagen", utf8 "suv");
    (utf8 "suv", utf8 "suv");
    (utf8 "limousine", utf8 "sedan");
    (utf8 "kombi", utf8 "wagon");
    (utf8 "coupe", utf8 "coupe");
    (utf8 "coupé", utf8 "coupe");
    (utf8 "cabrio", utf8 "convertible");
    (utf8 "kabriolett", utf8 "convertible");
    (utf8 "kastenwagen hochdach", utf8 "van");
    (utf8 "kastenwagen", utf8 "van");
    (utf8 "transporter", utf8 "van");
    (utf8 "van", utf8 "van");
    (utf8 "kleinwagen", utf8 "hatchback");
    (utf8 "schräghecklimousine", utf8 "hatchback") ].

(** Canonical colour with its keyword list, in the dict's order. *)
Definition COLOR_KEYWORD_MAP : list (pystr * list pystr) :=
  [ (utf8 "white",
      map utf8 ["weiss"; "weiß"; "white"; "bianco"; "blanc"; "blanco";
                "alpin"; "arctic"; "polar"; "candy"; "pure white"; "snow"]%string);
    (utf8 "black",
      map utf8 ["schwarz"; "black"; "noir"; "nero"; "obsidian"; "midnight";
                "deep black"; "onyx"]%string);
    (utf8 "gray",
      map utf8 ["grau"; "grau metallic"; "gray"; "gris"; "anthracite";
                "graphit"; "graphite"; "slate"]%string);
    (utf8 "blue",
      map utf8 ["blau"; "bleu"; "blu"; "azul"; "blue"; "navy"; "ocean"]%string);
    (utf8 "red", map utf8 ["rot"; "rosso"; "rouge"; "red"; "crimson"]%string);
    (utf8 "silver",
      map utf8 ["silber"; "silver"; "argent"; "platinum"; "platino"]%string);
    (utf8 "green",
      map utf8 ["grun"; "gruen"; "grün"; "verde"; "vert"; "green"]%string);
    (utf8 "brown", map utf8 ["braun"; "marron"; "brown"; "bruin"; "bronze"]%string);
    (utf8 "beige", map utf8 ["beige"; "sand"; "creme"; "champagne"; "ivory"]%string);
    (utf8 "orange", map utf8 ["orange"; "sunset"]%string);
    (utf8 "yellow", map utf8 ["gelb"; "giallo"; "amarillo"; "yellow"]%string) ].

Definition normalize_text (value : option pystr) : option pystr :=
  match value with
  | None => None
  | Some v =>
      match strip v with
      | [] => None
      | text => Some text
      end
  end.

(** [re.split(r"[\/,;]| und | with ", s)]: the scan goes left to right;
    [skip] counts the code points of a multi-character separator that are
    still to be consumed, [cur] is the current part, reversed. *)
Fixpoint split_color (skip : nat) (cur : pystr) (s : pystr) : list pystr :=
  match s with
  | [] => [rev cur]
  | c :: t =>
      match skip with
      | S k => split_color k cur t
      | O =>
          if (c =? 47)%N || (c =? 44)%N || (c =? 59)%N
          then rev cur :: split_color 0 [] t
          else if prefixb (utf8 " und ") s then rev cur :: split_color 4 [] t
          else if prefixb (utf8 " with ") s then rev cur :: split_color 5 [] t
          else split_color 0 (c :: cur) t
      end
  end.

(** The loop over the parts of a composite value: the first non-empty
    stripped part found in the canonical map decides. *)
Fixpoint first_part_hit (parts : list pystr) : option pystr :=
  match parts with
  | [] => None
  | part :: rest =>
      match strip part with
      | [] => first_part_hit rest
      | p =>
          match dict_get COLOR_CANONICAL_MAP p with
          | Some c => Some c
          | None => first_part_hit rest
          end
      end
  end.

(** The keyword fallback: first canonical colour, in dict order, one of
    whose keywords is a substring. *)
Fixpoint keyword_hit (m : list (pystr * list pystr)) (lowered : pystr)
  : option pystr :=
  match m with
  | [] => None
  | (canonical, keywords) :: rest =>
      if existsb (contains lowered) keywords then Some canonical
      else keyword_hit rest lowered
  end.

Definition normalize_color (value : option pystr) : option pystr :=
  match normalize_text value with
  | None => None
  | Some text =>
      let lowered := lower (strip_accents text) in
      let lowered := replace_cp 45 32 lowered in
      let lowered := strip (sub_ws false lowered) in
      match dict_get COLOR_CANONICAL_MAP lowered with
      | Some c => Some c
      | None =>
          match first_part_hit (split_color 0 [] lowered) with
          | Some c => Some c
          | None =>
              match keyword_hit COLOR_KEYWORD_MAP lowered with
              | Some c => Some c
              | None => Some lowered
              end
          end
      end
  end.

Definition normalize_category (value : option pystr) (mapping : dict)
  : option pystr :=
  match normalize_text value with
  | None => None
  | Some text =>
      let key := lower (strip_accents text) in
      match dict_get mapping key with
      | Some v => Some v
      | None => Some key
      end
  end.

(** A value of type [Any] that is a number or a string. *)
Inductive pyval :=
| VNum (q : Q)
| VStr (s : pystr).

(** [normalise_price] and [normalise_mileage] have the same body. *)
Definition normalise_price (value : option pyval) : option Q :=
  match value with
  | None => None
  | Some (VNum q) => Some q
  | Some (VStr s) =>
      match filter is_digit s with
      | [] => None
      | digits => Some (inject_Z (digits_value digits))
      end
  end.

Definition normalise_mileage := normalise_price.

(** [num or text] for an optional number and an optional string. *)
Definition or_num_str (a : option Q) (b : option pystr) : option pyval :=
  match a with
  | Some q => if Qeq_bool q 0 then option_map VStr b else Some (VNum q)
  | None => option_map VStr b
  end.

Fixpoint first_year_token (tokens : list pystr) : option Z :=
  match tokens with
  | [] => None
  | token :: rest =>
      if forallb is_digit token && (List.length token =? 4)%nat
      then Some (digits_value token)
      else first_year_token rest
  end.

Definition extract_year (raw : option pystr) : option Z :=
  match raw with
  | None => None
  | Some text => first_year_token (split_cp 45 [] (replace_cp 47 45 text))
  end.

End Normalize.

(* ------------------------------------------------------------------ *)
(** ** Component B: the listing store *)
(* ------------------------------------------------------------------ *)

Module Store.
Import PyStr Normalize.

(** A timestamp column as the Python side sees it: an instant (seconds on
    the UTC time line) or a value [datetime.fromisoformat] rejects. *)
Inductive stamp :=
| At (seconds : Q)
| Unparsable.

(** A row of [vehicle_marketplace.vehicle_data] (the columns the core
    reads).  [None] is SQL [NULL].  [price] and [mileage_km] are text,
    [power_kw] is numeric. *)
Record Listing := mkListing {
  l_vehicle_id : pystr;
  l_price : option pystr;
  l_mileage_km : option pystr;
  l_first_registration_raw : option pystr;
  l_make : option pystr;
  l_model : option pystr;
  l_fuel_type : option pystr;
  l_transmission : option pystr;
  l_body_type : option pystr;
  l_description : option pystr;
  l_power_kw : option Q;
  l_color : option pystr;
  l_created_at : option stamp;
  l_updated_at : option stamp;
  l_is_vehicle_available : bool
}.

(** A row as the cursor returns it for [SELECT_BASE_FIELDS]: a dict whose
    keys are the selected columns.  [updated_at] is the value of
    [row.get("updated_at")]; [match_strategy] is the [_match_strategy]
    annotation. *)
Record Row := mkRow {
  vehicle_id : option pystr;
  price : option pystr;
  mileage_km : option pystr;
  first_registration_raw : option pystr;
  make : option pystr;
  model : option pystr;
  fuel_type : option pystr;
  transmission : option pystr;
  body_type : option pystr;
  description : option pystr;
  power_kw : option Q;
  color : option pystr;
  created_at : option stamp;
  updated_at : option stamp;
  price_num : option Q;
  mileage_num : option Q;
  match_strategy : option string
}.

(** [CAST(NULLIF(REGEXP_REPLACE(col, '[^0-9]', '', 'g'), '') AS DOUBLE
    PRECISION)] *)
Definition sql_digits_num (col : option pystr) : option Q :=
  match col with
  | None => None
  | Some s =>
      match filter is_digit s with
      | [] => None
      | digits => Some (inject_Z (digits_value digits))
      end
  end.

Definition NUMERIC_PRICE_SQL (l : Listing) : option Q :=
  sql_digits_num (l_price l).

Definition NUMERIC_MILEAGE_SQL (l : Listing) : option Q :=
  sql_digits_num (l_mileage_km l).

(** [SELECT_BASE_FIELDS]: [updated_at] is not among the selected columns. *)
Definition select_base_fields (l : Listing) : Row :=
  {| vehicle_id := Some (l_vehicle_id l);
     price := l_price l;
     mileage_km := l_mileage_km l;
     first_registration_raw := l_first_registration_raw l;
     make := l_make l;
     model := l_model l;
     fuel_type := l_fuel_type l;
     transmission := l_transmission l;
     body_type := l_body_type l;
     description := l_description l;
     power_kw := l_power_kw l;
     color := l_color l;
     created_at := l_created_at l;
     updated_at := None;
     price_num := NUMERIC_PRICE_SQL l;
     mileage_num := NUMERIC_MILEAGE_SQL l;
     match_strategy := None |}.

Definition set_match_strategy (name : string) (r : Row) : Row :=
  {| vehicle_id := vehicle_id r;
     price := price r;
     mileage_km := mileage_km r;
     first_registration_raw := first_registration_raw r;
     make := make r;
     model := model r;
     fuel_type := fuel_type r;
     transmission := transmission r;
     body_type := body_type r;
     description := description r;
     power_kw := power_kw r;
     color := color r;
     created_at := created_at r;
     updated_at := updated_at r;
     price_num := price_num r;
     mileage_num := mileage_num r;
     match_strategy := Some name |}.

(** SQL comparisons: a comparison with [NULL] is unknown, and a row is
    selected only when the [WHERE] clause is true. *)
Definition sql_eq (col param : option pystr) : bool :=
  match col, param with
  | Some a, Some b => eqb a b
  | _, _ => false
  end.

Definition sql_ne (col param : option pystr) : bool :=
  match col, param with
  | Some a, Some b => negb (eqb a b)
  | _, _ => false
  end.

Definition sql_between (x : option Q) (lo hi : Q) : bool :=
  match x with
  | Some v => Qle_bool lo v && Qle_bool v hi
  | None => false
  end.

Fixpoint sql_ltrim (s : pystr) : pystr :=
  match s with
  | [] => []
  | c :: t => if (c =? 32)%N then sql_ltrim t else s
  end.

(** [TRIM(col)]: spaces removed at both ends. *)
Definition sql_trim (s : pystr) : pystr := rev (sql_ltrim (rev (sql_ltrim s))).

(** [LOWER(TRIM(col))]; [LOWER] is taken to agree with [str.lower]. *)
Definition sql_lower_trim (col : option pystr) : option pystr :=
  option_map (fun s => lower (sql_trim s)) col.

(** A query: the [WHERE] clause as the list of its conjuncts, evaluated on
    the store, truncated by [LIMIT].  The store lists its rows newest
    first. *)
Definition run_query (db : list Listing) (conditions : list (Listing -> bool))
    (limit : nat) : list Row :=
  map select_base_fields
      (firstn limit (filter (fun l => forallb (fun c => c l) conditions) db)).

Definition fetch_vehicle (db : list Listing) (id : pystr) : option Row :=
  match run_query db
          [ (fun l => eqb (l_vehicle_id l) id);
            (fun l => l_is_vehicle_available l) ] 1 with
  | row :: _ => Some row
  | [] => None
  end.

End Store.

(* ------------------------------------------------------------------ *)
(** ** Component C: candidate retrieval by progressive relaxation *)
(* ------------------------------------------------------------------ *)

Module Retrieval.
Import PyStr Normalize Store.

Record Attempt := mkAttempt {
  name : string;
  year_tolerance : Z;
  mileage_ratio : Q;
  price_min : Q;
  price_max : Q;
  power_ratio : Q
}.

Definition relaxation_attempts : list Attempt :=
  [ mkAttempt "strict" 2 (5 # 10) (6 # 10) (14 # 10) (15 # 100);
    mkAttempt "relaxed_year" 3 (5 # 10) (6 # 10) (14 # 10) (15 # 100);
    mkAttempt "relaxed_mileage" 3 (75 # 100) (6 # 10) (14 # 10) (15 # 100);
    mkAttempt "relaxed_price" 3 (75 # 100) (5 # 10) (15 # 10) (15 # 100);
    mkAttempt "relaxed_power" 3 (75 # 100) (5 # 10) (15 # 10) (25 # 100) ].

Record Options := mkOptions {
  candidate_limit : nat;
  min_results : Z
}.

Inductive RetrievalError :=
| MissingMakeModel   (* "Target vehicle missing make or model" *)
| NoCandidates.      (* "No candidates found matching filters" *)

(** The debug dict: [attempts] holds each attempt's name and kept row
    count; [warning] holds the two numbers of the warning text. *)
Record Debug := mkDebug {
  selected_attempt : option string;
  attempts : list (string * nat);
  warning : option (nat * Z);
  error : option RetrievalError
}.

(** [x and x > 0] on an optional number. *)
Definition positive (x : option Q) : option Q :=
  match x with
  | Some q => if Qle_bool q 0 then None else Some q
  | None => None
  end.

Definition opt_str_eqb (a b : option pystr) : bool :=
  match a, b with
  | Some x, Some y => eqb x y
  | None, None => true
  | _, _ => false
  end.

(** The conjuncts of the [WHERE] clause of one attempt, in the order the
    code appends them. *)
Definition build_conditions (target_row : Row) (attempt : Attempt)
  : list (Listing -> bool) :=
  let target_make := normalize_text (make target_row) in
  let target_model := normalize_text (model target_row) in
  let target_body_raw := body_type target_row in
  let target_fuel_raw := fuel_type target_row in
  let target_transmission_raw := transmission target_row in
  let target_color := normalize_color (color target_row) in
  let target_price :=
    normalise_price (or_num_str (price_num target_row) (price target_row)) in
  let target_mileage :=
    normalise_mileage
      (or_num_str (mileage_num target_row) (mileage_km target_row)) in
  let target_power := normalise_mileage (option_map VNum (power_kw target_row)) in
  [ (fun l => l_is_vehicle_available l);
    (fun l => sql_ne (Some (l_vehicle_id l)) (vehicle_id target_row));
    (fun l => sql_eq (l_make l) target_make);
    (fun l => sql_eq (l_model l) target_model) ]
  ++ (if truthy_str target_body_raw
      then [fun l => sql_eq (sql_lower_trim (l_body_type l))
                            (option_map (fun s => lower (strip_accents s))
                                        target_body_raw)]
      else [])
  ++ (if truthy_str target_fuel_raw
      then [fun l => sql_eq (sql_lower_trim (l_fuel_type l))
                            (option_map (fun s => lower (strip_accents s))
                                        target_fuel_raw)]
      else [])
  ++ (if truthy_str target_transmission_raw
      then [fun l => sql_eq (sql_lower_trim (l_transmission l))
                            (option_map (fun s => lower (strip_accents s))
                                        target_transmission_raw)]
      else [])
  ++ (if truthy_str target_color
      then [fun l => truthy_str (l_color l)]
      else [])
  ++ (match positive target_mileage with
      | Some m =>
          let mileage_low := m * (1 - mileage_ratio attempt) in
          let mileage_high := m * (1 + mileage_ratio attempt) in
          [fun l => sql_between (NUMERIC_MILEAGE_SQL l) mileage_low mileage_high]
      | None => []
      end)
  ++ (match positive target_price with
      | Some p =>
          let price_low := p * price_min attempt in
          let price_high := p * price_max attempt in
          [fun l => sql_between (NUMERIC_PRICE_SQL l) price_low price_high]
      | None => []
      end)
  ++ (match positive target_power with
      | Some w =>
          let power_low := w * (1 - power_ratio attempt) in
          let power_high := w * (1 + power_ratio attempt) in
          [fun l => sql_between (l_power_kw l) power_low power_high]
      | None => []
      end).

(** The Python-side loop over the fetched rows: colour (hard lock) and
    year (soft lock), then the strategy annotation. *)
Fixpoint filter_rows (target_color : option pystr) (target_year : option Z)
    (attempt : Attempt) (rows : list Row) : list Row :=
  match rows with
  | [] => []
  | row :: rest =>
      let continue := filter_rows target_color target_year attempt rest in
      if truthy_str target_color
         && negb (opt_str_eqb (normalize_color (color row)) target_color)
      then continue
      else
        let year_rejects :=
          match target_year with
          | Some ty =>
              if (ty =? 0)%Z then false
              else match extract_year (first_registration_raw row) with
                   | None => true
                   | Some cy => (year_tolerance attempt <? Z.abs (cy - ty))%Z
                   end
          | None => false
          end in
        if year_rejects then continue
        else set_match_strategy (name attempt) row :: continue
  end.

(** The rows one attempt keeps: the query, then the Python-side filter. *)
Definition attempt_rows (db : list Listing) (target_row : Row)
    (target_year : option Z) (options : Options) (attempt : Attempt)
  : list Row :=
  let rows :=
    run_query db (build_conditions target_row attempt)
              (candidate_limit options) in
  filter_rows (normalize_color (color target_row)) target_year attempt rows.

(** The [for attempt in relaxation_attempts] loop with its two pieces of
    state, [attempt_logs] and [best_result], and the code after it. *)
Fixpoint relaxation_loop (db : list Listing) (target_row : Row)
    (target_year : option Z) (options : Options)
    (todo : list Attempt) (attempt_logs : list (string * nat))
    (best_result : option (list Row * string)) : list Row * Debug :=
  match todo with
  | attempt :: rest =>
      let filtered_rows :=
        attempt_rows db target_row target_year options attempt in
      let attempt_logs :=
        attempt_logs ++ [(name attempt, List.length filtered_rows)] in
      let best_result :=
        match best_result with
        | None => Some (filtered_rows, name attempt)
        | Some (best_rows, _) =>
            if (List.length best_rows <? List.length filtered_rows)%nat
            then Some (filtered_rows, name attempt)
            else best_result
        end in
      if (min_results options <=? Z.of_nat (List.length filtered_rows))%Z
      then (filtered_rows,
            mkDebug (Some (name attempt)) attempt_logs None None)
      else relaxation_loop db target_row target_year options rest
                           attempt_logs best_result
  | [] =>
      match best_result with
      | Some (best_rows, best_name) =>
          if (0 <? List.length best_rows)%nat
          then (best_rows,
                mkDebug (Some best_name) attempt_logs
                        (Some (List.length best_rows, min_results options))
                        None)
          else ([], mkDebug None attempt_logs None (Some NoCandidates))
      | None => ([], mkDebug None attempt_logs None (Some NoCandidates))
      end
  end.

Definition find_candidate_rows (db : list Listing) (target_row : Row)
    (target_year : option Z) (options : Options) : list Row * Debug :=
  let target_make := normalize_text (make target_row) in
  let target_model := normalize_text (model target_row) in
  match target_make, target_model with
  | Some _, Some _ =>
      relaxation_loop db target_row target_year options
                      relaxation_attempts [] None
  | _, _ => ([], mkDebug None [] None (Some MissingMakeModel))
  end.

(** The admission predicate of one attempt on one stored listing: every
    conjunct of the [WHERE] clause and the Python-side colour and year
    filters. *)
Definition accepts (target_row : Row) (target_year : option Z)
    (attempt : Attempt) (l : Listing) : bool :=
  forallb (fun c => c l) (build_conditions target_row attempt)
  && match filter_rows (normalize_color (color target_row)) target_year
                       attempt [select_base_fields l] with
     | [] => false
     | _ :: _ => true
     end.

End Retrieval.

(* ------------------------------------------------------------------ *)
(** ** The normalised payload of a listing *)
(* ------------------------------------------------------------------ *)

Module Payloads.
Import PyStr Normalize Store.

(** The dict [format_vehicle_payload] returns, restricted to the keys the
    similarity engine, the deal scorer and the ranker read.  The keys
    [body_type], [fuel_type] and [transmission] are read by the similarity
    engine with [dict.get]; [format_vehicle_payload] does not set them. *)
Record Payload := mkPayload {
  p_id : option pystr;
  p_price_eur : option Q;
  p_mileage_km : option Q;
  p_year : option Z;
  p_make : option pystr;
  p_model : option pystr;
  p_fuel_group : option pystr;
  p_transmission_group : option pystr;
  p_body_group : option pystr;
  p_color : option pystr;
  p_color_canonical : option pystr;
  p_description : pystr;
  p_power_kw : option Q;
  p_freshness_days : option Q;
  p_body_type : option pystr;
  p_fuel_type : option pystr;
  p_transmission : option pystr
}.

(** [a or b] on timestamp values (a timestamp object is always truthy). *)
Definition or_stamp (a b : option stamp) : option stamp :=
  match a with
  | Some _ => a
  | None => b
  end.

(** The [freshness_days] block of [format_vehicle_payload]; [now] is
    [datetime.utcnow()] in seconds. *)
Definition freshness_days_of (now : Q) (row : Row) : option Q :=
  let freshness_source := or_stamp (updated_at row) (created_at row) in
  match freshness_source with
  | Some (At updated) => Some (Qmax 0 ((now - updated) / 86400))%Q
  | Some Unparsable => None
  | None => None
  end.

Definition format_vehicle_payload (now : Q) (row : Row) : Payload :=
  let price :=
    match normalise_price (option_map VNum (price_num row)) with
    | Some p => Some p
    | None => normalise_price (option_map VStr (price row))
    end in
  let mileage :=
    match normalise_mileage (option_map VNum (mileage_num row)) with
    | Some m => Some m
    | None => normalise_mileage (option_map VStr (mileage_km row))
    end in
  {| p_id := vehicle_id row;
     p_price_eur := price;
     p_mileage_km := mileage;
     p_year := extract_year (first_registration_raw row);
     p_make := make row;
     p_model := model row;
     p_fuel_group := normalize_category (fuel_type row) FUEL_MAP;
     p_transmission_group :=
       normalize_category (transmission row) TRANSMISSION_MAP;
     p_body_group := normalize_category (body_type row) BODY_TYPE_MAP;
     p_color := color row;
     p_color_canonical := normalize_color (color row);
     p_description :=
       match description row with Some d => d | None => [] end;
     p_power_kw := power_kw row;
     p_freshness_days := freshness_days_of now row;
     p_body_type := None;
     p_fuel_type := None;
     p_transmission := None |}.

End Payloads.

(* ------------------------------------------------------------------ *)
(** ** Component D: the similarity engine, categorical axis *)
(* ------------------------------------------------------------------ *)

Module Similarity.
Import PyStr Normalize Payloads.
Local Open Scope Q_scope.

(** [SimilarityEngine._norm_value] *)
Definition norm_value (value : option pystr) : option pystr :=
  match normalize_text value with
  | Some text => Some (lower (strip_accents text))
  | None => None
  end.

(** The local function [cat_score] of [_categorical_similarity]. *)
Definition cat_score (a b : option pystr) : Q :=
  match a, b with
  | Some x, Some y =>
      if eqb (lower (strip_accents x)) (lower (strip_accents y)) then 1 else 0
  | _, _ => 1 # 2
  end.

(** One entry of the [components] dict. *)
Record Component := mkComponent {
  c_key : string;
  c_score : Q;
  c_weight : Q
}.

(** The effective value of each field, computed alike for the target and
    the candidate dict ([target_body] and [candidate_body], and so on). *)
Definition body_of (v : Payload) : option pystr :=
  or_str (p_body_group v) (normalize_category (p_body_type v) BODY_TYPE_MAP).

Definition fuel_of (v : Payload) : option pystr :=
  or_str (p_fuel_group v) (normalize_category (p_fuel_type v) FUEL_MAP).

Definition trans_of (v : Payload) : option pystr :=
  or_str (p_transmission_group v)
         (normalize_category (p_transmission v) TRANSMISSION_MAP).

Definition color_of (v : Payload) : option pystr :=
  or_str (p_color_canonical v) (normalize_color (p_color v)).

(** The make and model component: 0.5 when [None] is among the four
    normalised values. *)
Definition mm_score_of (target candidate : Payload) : Q :=
  match norm_value (p_make target), norm_value (p_model target),
        norm_value (p_make candidate), norm_value (p_model candidate) with
  | Some target_make, Some target_model,
    Some candidate_make, Some candidate_model =>
      if eqb target_make candidate_make && eqb target_model candidate_model
      then 1 else 0
  | _, _, _, _ => 1 # 2
  end.

(** [_categorical_similarity]: the running [weighted_score] and
    [weight_total] are threaded through the five blocks. *)
Definition categorical_similarity (target candidate : Payload)
  : Q * list Component :=
  let weighted_score := 0 in
  let weight_total := 0 in
  let make_model_weight := 25 # 100 in
  let mm_score := mm_score_of target candidate in
  let weighted_score := weighted_score + make_model_weight * mm_score in
  let weight_total := weight_total + make_model_weight in
  let body_weight := 20 # 100 in
  let body_score := cat_score (body_of target) (body_of candidate) in
  let weighted_score := weighted_score + body_weight * body_score in
  let weight_total := weight_total + body_weight in
  let fuel_weight := 20 # 100 in
  let fuel_score := cat_score (fuel_of target) (fuel_of candidate) in
  let weighted_score := weighted_score + fuel_weight * fuel_score in
  let weight_total := weight_total + fuel_weight in
  let transmission_weight := 15 # 100 in
  let transmission_score :=
    cat_score (trans_of target) (trans_of candidate) in
  let weighted_score :=
    weighted_score + transmission_weight * transmission_score in
  let weight_total := weight_total + transmission_weight in
  let color_weight := 20 # 100 in
  let color_score := cat_score (color_of target) (color_of candidate) in
  let weighted_score := weighted_score + color_weight * color_score in
  let weight_total := weight_total + color_weight in
  let similarity :=
    if Qle_bool weight_total 0 then 1 # 2
    else weighted_score / weight_total in
  (similarity,
   [ mkComponent "make_model" mm_score make_model_weight;
     mkComponent "body" body_score body_weight;
     mkComponent "fuel" fuel_score fuel_weight;
     mkComponent "transmission" transmission_score transmission_weight;
     mkComponent "exterior_color" color_score color_weight ]).

End Similarity.

(* ------------------------------------------------------------------ *)
(** ** Component E: the deal scorer *)
(* ------------------------------------------------------------------ *)

Module Deal.
Local Open Scope R_scope.

Record Details := mkDetails {
  price_percentile : option R;
  median_price : option R;
  mileage_ratio : option R;
  discount_pct : option R;
  comparable : R;
  hedonic : R
}.

(** [x and x > 0] on an optional float. *)
Definition positive (x : option R) : option R :=
  match x with
  | Some v => if Rlt_dec 0 v then Some v else None
  | None => None
  end.

(** Truthiness of an optional float: not [None] and not zero. *)
Definition truthy (x : option R) : option R :=
  match x with
  | Some v => if Req_dec_T v 0 then None else Some v
  | None => None
  end.

Definition compute_deal_score
    (price percentile median_price target_price target_mileage
     candidate_mileage : option R) : R * Details :=
  match price with
  | None =>
      (5 / 10,
       mkDetails percentile median_price None None (5 / 10) (5 / 10))
  | Some price =>
      let comps_score :=
        match percentile with
        | None => 5 / 10
        | Some pct => Rmax 0 (Rmin 1 (1 - pct))
        end in
      let comps_discount :=
        match positive median_price with
        | Some m => Some ((m - price) / m)
        | None => None
        end in
      let comps_score :=
        match comps_discount with
        | Some d => 1 / (1 + exp (- 6 * d))
        | None => comps_score
        end in
      let mileage_ratio :=
        match truthy target_mileage, truthy candidate_mileage with
        | Some t, Some c => Some ((c - t) / Rmax t 1)
        | _, _ => None
        end in
      let comps_score :=
        match mileage_ratio with
        | Some r =>
            if Rlt_dec 0 r
            then comps_score - Rmin (r / (15 / 10)) 1 * (25 / 100)
            else comps_score + Rmin (Rabs r / (15 / 10)) 1 * (15 / 100)
        | None => comps_score
        end in
      let hedonic_score :=
        match positive target_price with
        | Some tp =>
            let hedonic_raw := (tp - price) / tp in
            1 / (1 + exp (- 6 * hedonic_raw))
        | None => comps_score
        end in
      let deal :=
        Rmax 0 (Rmin 1 (5 / 10 * comps_score + 5 / 10 * hedonic_score)) in
      (deal,
       mkDetails percentile median_price mileage_ratio
                 (option_map (fun d => d * 100) comps_discount)
                 comps_score hedonic_score)
  end.

End Deal.

(* ------------------------------------------------------------------ *)
(** ** Component F: the ranker *)
(* ------------------------------------------------------------------ *)

Module Ranking.
Import PyStr.

(** The freshness block of the scoring loop: [math.exp(-freshness_days /
    30.0)] when the payload has a [freshness_days]. *)
Definition freshness_score (freshness_days : option Q) : option R :=
  match freshness_days with
  | Some d => Some (exp (- Q2R d / 30))%R
  | None => None
  end.

(** [freshness_score if freshness_score is not None else 0.0] *)
Definition freshness_term (score : option R) : R :=
  match score with
  | Some s => s
  | None => 0%R
  end.

(** The blend of the scoring loop, clamped to [0, 1]. *)
Definition blend (alpha beta freshness_weight trust_weight : R)
    (similarity_score deal_score : R) (freshness : option R)
    (trust_score : R) : R :=
  let final_score :=
    (alpha * similarity_score + beta * deal_score
     + freshness_weight * freshness_term freshness
     + trust_weight * trust_score)%R in
  Rmax 0 (Rmin 1 final_score).

(** A scored payload: the keys the code after the scoring loop reads. *)
Record Scored := mkScored {
  s_id : pystr;
  similarity_score : Q;
  final_score : Q
}.

(** [list.sort(key=final_score, reverse=True)]: a stable sort in
    non-increasing key order.  The element inserted stood before the ones
    already placed, so it goes in front of the first key not above its
    own. *)
Fixpoint insert_desc (x : Scored) (l : list Scored) : list Scored :=
  match l with
  | [] => [x]
  | y :: t =>
      if Qle_bool (final_score y) (final_score x) then x :: l
      else y :: insert_desc x t
  end.

Definition sort_desc (l : list Scored) : list Scored :=
  fold_right insert_desc [] l.

Definition min_similarity_threshold : Q := 30 # 100.

Definition above_floor (p : Scored) : bool :=
  Qle_bool min_similarity_threshold (similarity_score p).

(** The code of [score_candidates] after the scoring loop: the sort and
    the quality floor.  [len(filtered) < len(scored) * 0.5] is compared on
    doubled integers. *)
Definition rank_scored (scored_payloads : list Scored) : list Scored :=
  let scored_payloads := sort_desc scored_payloads in
  let filtered_payloads := filter above_floor scored_payloads in
  if (2 * List.length filtered_payloads <? List.length scored_payloads)%nat
     && (0 <? List.length scored_payloads)%nat
  then
    let above_threshold := filter above_floor scored_payloads in
    let below_threshold :=
      filter (fun p => negb (above_floor p)) scored_payloads in
    let keep_below :=
      firstn (Nat.max 1 (List.length below_threshold / 2)) below_threshold in
    above_threshold ++ keep_below
  else filtered_payloads.

(** Consecutive results never increase in final score. *)
Fixpoint nonincreasing (l : list Scored) : Prop :=
  match l with
  | a :: (b :: _) as t => (final_score b <= final_score a)%Q /\ nonincreasing t
  | _ => True
  end.

End Ranking.

(* ------------------------------------------------------------------ *)
(** ** Component G: the request handler *)
(* ------------------------------------------------------------------ *)

Module Handler.
Import PyStr Normalize Store Retrieval Payloads Ranking.

(** [int(s)] on a decimal literal: surrounding whitespace, an optional
    sign, ASCII digits.  ([ValueError] is [None]; digit grouping with
    underscores is not modelled.) *)
Definition py_int (s : pystr) : option Z :=
  let digits (d : pystr) :=
    match d with
    | [] => None
    | _ => if forallb is_digit d then Some (digits_value d) else None
    end in
  match strip s with
  | 43%N :: d => digits d
  | 45%N :: d => option_map Z.opp (digits d)
  | d => digits d
  end.

Definition parse_int (raw : option pystr) (default : Z) : Z :=
  match raw with
  | None => default
  | Some s => match py_int s with Some v => v | None => default end
  end.

(** [parse_float]: the argument is the float the query parameter parses
    to, [None] when the parameter is absent or is not a float. *)
Definition parse_float (raw : option Q) (default : Q) : Q :=
  match raw with
  | None => default
  | Some v => v
  end.

(** The query string of a comparables request. *)
Record Args := mkArgs {
  arg_top : option pystr;
  arg_year_variance : option pystr;
  arg_mileage_variance_multiplier : option Q;
  arg_mileage_min_window : option Q;
  arg_power_variance_pct : option Q;
  arg_power_min_window : option Q;
  arg_max_candidates : option pystr;
  arg_balance : option Q
}.

(** [top = max(1, min(int(top_param), 50))]; [None] is the [ValueError]
    branch, answered with status 400. *)
Definition parse_top (top_param : option pystr) : option Z :=
  let top_param :=
    match top_param with Some s => s | None => utf8 "10" end in
  match py_int top_param with
  | Some v => Some (Z.max 1 (Z.min v 50))
  | None => None
  end.

(** The ranking weights computed from [balance]: (alpha_weight,
    beta_weight). *)
Definition rank_weights (balance : Q) : Q * Q :=
  let balance := Qmax (-1) (Qmin 1 balance) in
  let alpha_base := 55 # 100 in
  let beta_base := 30 # 100 in
  let alpha_raw := Qmax (15 # 100) (alpha_base + balance * (2 # 10)) in
  let beta_raw := Qmax (15 # 100) (beta_base - balance * (2 # 10)) in
  let total_raw := alpha_raw + beta_raw in
  let desired_total := 85 # 100 in
  let '(alpha_raw, beta_raw, total_raw) :=
    if Qle_bool total_raw 0
    then (alpha_base, beta_base, alpha_base + beta_base)
    else (alpha_raw, beta_raw, total_raw) in
  let scale := desired_total / total_raw in
  let alpha_weight := Qmax (1 # 10) (Qmin (85 # 100) (alpha_raw * scale)) in
  let beta_weight := Qmax (1 # 10) (Qmin (85 # 100) (beta_raw * scale)) in
  (alpha_weight, beta_weight).

Record ToleranceConfig := mkToleranceConfig {
  year_tolerance_years : Z;
  mileage_tolerance_ratio : Q;
  mileage_min_window : Q;
  power_tolerance_ratio : Q;
  power_min_window : Q;
  rank_alpha : Q;
  rank_beta : Q;
  rank_freshness : Q;
  rank_trust : Q
}.

Record Metadata := mkMetadata {
  requested_top : Z;
  returned : nat;
  total_candidates : nat;
  raw_candidates : nat;
  filter_strategy : option string;
  relaxation_attempts_count : nat;
  weights : Q * Q * Q * Q;
  meta_warning : option (nat * Z)
}.

Inductive Response :=
| Ok (comparables : list Scored) (metadata : Metadata)
| InvalidTop                                 (* 400 *)
| VehicleNotFound                            (* 404 *)
| NoComparables (debug : Debug).             (* 404 *)

Definition status (r : Response) : Z :=
  match r with
  | Ok _ _ => 200
  | InvalidTop => 400
  | VehicleNotFound => 404
  | NoComparables _ => 404
  end.

Section Endpoint.

(** [datetime.utcnow()] and the scoring loop of [score_candidates] (the
    per-candidate similarity, deal, freshness and trust scores and their
    blend), whose float results are taken as they come. *)
Variable now : Q.
Variable scoring_loop : Payload -> list Row -> ToleranceConfig -> list Scored.

Definition score_candidates (target_payload : Payload)
    (candidates : list Row) (tolerances : ToleranceConfig) : list Scored :=
  rank_scored (scoring_loop target_payload candidates tolerances).

Definition comparables_endpoint (db : list Listing) (vehicle_id : pystr)
    (args : Args) : Response :=
  match parse_top (arg_top args) with
  | None => InvalidTop
  | Some top =>
      match fetch_vehicle db vehicle_id with
      | None => VehicleNotFound
      | Some target_row =>
          let target_payload := format_vehicle_payload now target_row in
          let target_year := p_year target_payload in
          let year_tolerance_years :=
            Z.max 0 (parse_int (arg_year_variance args) 2) in
          let mileage_ratio :=
            parse_float (arg_mileage_variance_multiplier args) 2 in
          let mileage_min_window :=
            parse_float (arg_mileage_min_window args) 5000 in
          let power_variance_ratio :=
            parse_float (arg_power_variance_pct args) (15 # 100) in
          let power_min_window :=
            parse_float (arg_power_min_window args) 15 in
          let candidate_limit :=
            Z.max 50 (parse_int (arg_max_candidates args) 400) in
          let balance := parse_float (arg_balance args) 0 in
          let '(alpha_weight, beta_weight) := rank_weights balance in
          let freshness_weight := 10 # 100 in
          let trust_weight := 5 # 100 in
          let candidate_options :=
            mkOptions (Z.to_nat candidate_limit) (Z.max top 5) in
          let '(candidates_raw, candidate_debug) :=
            find_candidate_rows db target_row target_year candidate_options in
          match candidates_raw with
          | [] => NoComparables candidate_debug
          | _ :: _ =>
              let tolerance_config :=
                mkToleranceConfig year_tolerance_years mileage_ratio
                  mileage_min_window power_variance_ratio power_min_window
                  alpha_weight beta_weight freshness_weight trust_weight in
              let scored :=
                score_candidates target_payload candidates_raw
                                 tolerance_config in
              let comparables := firstn (Z.to_nat top) scored in
              Ok comparables
                 (mkMetadata top (List.length comparables)
                    (List.length scored) (List.length candidates_raw)
                    (selected_attempt candidate_debug)
                    (List.length (attempts candidate_debug))
                    (alpha_weight, beta_weight, freshness_weight, trust_weight)
                    (warning candidate_debug))
          end
      end
  end.

End Endpoint.

End Handler.

(* ------------------------------------------------------------------ *)
(** ** Predicates used by the statements and proofs *)
(* ------------------------------------------------------------------ *)

Module Props.
Import PyStr Normalize.

(** A code point that [strip_accents] and [lower] leave alone. *)
Definition stable (c : N) : Prop := nfkd_base c = [c] /\ lower_cp c = c.

(** Every base of [c], once lowered, is stable (boolean form). *)
Definition cp_closed (c : N) : bool :=
  forallb (fun d => let e := lower_cp d in
                    eqb (nfkd_base e) [e] && (lower_cp e =? e)%N)
          (nfkd_base c).

(** The code points [start], [start + 1], ... ([n] of them). *)
Fixpoint upto (n : nat) (start : N) : list N :=
  match n with
  | O => []
  | S k => start :: upto k (N.succ start)
  end.

(** Whitespace occurs only as single spaces; [prev] tells whether the
    code point before the string was a space. *)
Fixpoint ws_ok (prev : bool) (s : pystr) : bool :=
  match s with
  | [] => true
  | c :: t =>
      if is_space c then (c =? 32)%N && negb prev && ws_ok true t
      else ws_ok false t
  end.

(** The string does not start with whitespace. *)
Definition no_lead (s : pystr) : Prop :=
  match s with
  | c :: _ => is_space c = false
  | [] => True
  end.

(** The cleaning steps of [normalize_color] on the stripped text. *)
Definition clean_color (text : pystr) : pystr :=
  strip (sub_ws false (replace_cp 45 32 (lower (strip_accents text)))).

(** The three lookups of [normalize_color] on the cleaned text. *)
Definition color_of_lowered (lowered : pystr) : pystr :=
  match dict_get COLOR_CANONICAL_MAP lowered with
  | Some c => c
  | None =>
      match first_part_hit (split_color 0 [] lowered) with
      | Some c => c
      | None =>
          match keyword_hit COLOR_KEYWORD_MAP lowered with
          | Some c => c
          | None => lowered
          end
      end
  end.

(** The closed colour vocabulary. *)
Definition canonical_colours : list pystr :=
  map utf8 ["white"; "black"; "gray"; "blue"; "red"; "silver"; "green";
            "brown"; "beige"; "orange"; "yellow"]%string.

(** Every value the canonical map or the keyword map can return. *)
Definition lookup_colours : list pystr :=
  map snd COLOR_CANONICAL_MAP ++ map fst COLOR_KEYWORD_MAP.

Definition is_fixed_colour (c : pystr) : bool :=
  match normalize_color (Some c) with
  | Some r => eqb r c
  | None => false
  end.

End Props.

Module SimilarityProps.
Import PyStr Normalize Payloads Similarity.


(** The rule of the make and model field: a side is null when its
    stripped text is empty; the score is 1.0 only when make and model both
    agree. *)
Definition make_model_rule (target candidate : Payload) (score : Q) : Prop :=
  let tm := norm_value (p_make target) in
  let tmod := norm_value (p_model target) in
  let cm := norm_value (p_make candidate) in
  let cmod := norm_value (p_model candidate) in
  (tm = None \/ tmod = None \/ cm = None \/ cmod = None -> score = 1 # 2)
  /\ (tm <> None -> tmod <> None -> cm <> None -> cmod <> None ->
      (tm = cm /\ tmod = cmod -> score = 1)
      /\ (~ (tm = cm /\ tmod = cmod) -> score = 0)).

End SimilarityProps.

Module RetrievalProps.
Import PyStr Normalize Store Retrieval.

(** [a'] is at least as wide as [a] on every soft lock. *)
Definition wider (a a' : Attempt) : Prop :=
  (year_tolerance a <= year_tolerance a')%Z
  /\ (mileage_ratio a <= mileage_ratio a')%Q
  /\ (price_min a' <= price_min a)%Q
  /\ (price_max a <= price_max a')%Q
  /\ (power_ratio a <= power_ratio a')%Q.

(** Steps k and k+1 of the ladder. *)
Definition consecutive (a a' : Attempt) : Prop :=
  exists k : nat,
    nth_error relaxation_attempts k = Some a
    /\ nth_error relaxation_attempts (S k) = Some a'.



Section Loop.

(** The rows each attempt keeps, and the threshold. *)
Variable kept : Attempt -> list Row.
Variable min_results : Z.

Definition enough (a : Attempt) : bool :=
  (min_results <=? Z.of_nat (List.length (kept a)))%Z.

Definition log_of (a : Attempt) : string * nat :=
  (name a, List.length (kept a)).

(** One update of [best_result]. *)
Definition update_best (best : option (list Row * string)) (a : Attempt)
  : option (list Row * string) :=
  match best with
  | None => Some (kept a, name a)
  | Some (best_rows, _) =>
      if (List.length best_rows <? List.length (kept a))%nat
      then Some (kept a, name a)
      else best
  end.

(** The code after the loop. *)
Definition finish (logs : list (string * nat))
    (best : option (list Row * string)) : list Row * Debug :=
  match best with
  | Some (best_rows, best_name) =>
      if (0 <? List.length best_rows)%nat
      then (best_rows,
            mkDebug (Some best_name) logs
                    (Some (List.length best_rows, min_results)) None)
      else ([], mkDebug None logs None (Some NoCandidates))
  | None => ([], mkDebug None logs None (Some NoCandidates))
  end.

End Loop.

(** What the Python-side filter guarantees of a kept row. *)
Definition passes_python_filter (target_color : option pystr)
    (target_year : option Z) (a : Attempt) (r : Row) : Prop :=
  (truthy_str target_color = true ->
   normalize_color (color r) = target_color)
  /\ (forall ty, target_year = Some ty -> ty <> 0%Z ->
      exists cy, extract_year (first_registration_raw r) = Some cy
                 /\ (Z.abs (cy - ty) <= year_tolerance a)%Z)
  /\ match_strategy r = Some (name a).

End RetrievalProps.

Module RankingProps.
Import Ranking.

(** [a] may stand before [b] in a list ordered by final score. *)
Definition desc (a b : Scored) : Prop := (final_score b <= final_score a)%Q.

(** The returned list is a run of candidates above the quality floor
    followed by a run of re-admitted candidates below it, each run in
    non-increasing order of final score. *)
Definition two_sorted_runs (out : list Scored) : Prop :=
  exists above kept : list Scored,
    out = above ++ kept
    /\ nonincreasing above
    /\ nonincreasing kept
    /\ Forall (fun p => above_floor p = true) above
    /\ Forall (fun p => above_floor p = false) kept.

End RankingProps.

(* ------------------------------------------------------------------ *)
(** ** Sample data for the concrete instances *)
(* ------------------------------------------------------------------ *)

Module Samples.
Import PyStr Normalize Store Retrieval Payloads Ranking Handler.

(** An available petrol automatic saloon of 120 kW. *)
Definition listing (id mk md price km reg colour : string) : Listing :=
  mkListing (utf8 id) (Some (utf8 price)) (Some (utf8 km)) (Some (utf8 reg))
    (Some (utf8 mk)) (Some (utf8 md))
    (Some (utf8 "Benzin")) (Some (utf8 "Automatik")) (Some (utf8 "Limousine"))
    None (Some 120) (Some (utf8 colour)) None None true.

(** The target of the specification's scenarios (id [t]) with a twin, a
    newer car with more mileage, a white twin, and a listing whose make
    is empty (id [m]). *)
Definition sample_db : list Listing :=
  [ listing "t" "BMW" "3er" "25000" "45000" "03/2021" "schwarz";
    listing "a" "BMW" "3er" "23500" "43000" "05/2021" "Schwarz Metallic";
    listing "b" "BMW" "3er" "23500" "60000" "05/2024" "black";
    listing "c" "BMW" "3er" "23500" "43000" "05/2021" "white";
    listing "m" "" "3er" "23500" "43000" "05/2021" "black" ].

(** The target row as [fetch_vehicle] returns it. *)
Definition sample_target : Row :=
  select_base_fields
    (listing "t" "BMW" "3er" "25000" "45000" "03/2021" "schwarz").

(** A scoring loop that gives every candidate the same scores; the
    handler's status and clamping do not depend on the scores. *)
Definition flat_scoring (target : Payload) (rows : list Row)
    (tolerances : ToleranceConfig) : list Scored :=
  map (fun r => mkScored (match vehicle_id r with Some i => i | None => [] end)
                         (1 # 2) (1 # 2)) rows.

(** The twin listing with a creation timestamp (second 0) and, as read
    through [SELECT_BASE_FIELDS], no [updated_at]. *)
Definition dated_listing : Listing :=
  mkListing (utf8 "a") (Some (utf8 "23500")) (Some (utf8 "43000"))
    (Some (utf8 "05/2021")) (Some (utf8 "BMW")) (Some (utf8 "3er"))
    (Some (utf8 "Benzin")) (Some (utf8 "Automatik")) (Some (utf8 "Limousine"))
    None (Some 120) (Some (utf8 "black")) (Some (At 0)) (Some (At 0)) true.

(** Three scored payloads as the scoring loop can leave them with the
    default weights (final = 0.55 match + 0.30 deal + 0.10 freshness +
    0.05 trust): [A] and [B] match poorly but are cheap, fresh and
    complete; [C] matches just above the floor and is dear, undated and
    sparse. *)
Definition scored_A : Scored := mkScored (utf8 "A") (29 # 100) (5795 # 10000).
Definition scored_B : Scored := mkScored (utf8 "B") (25 # 100) (5275 # 10000).
Definition scored_C : Scored := mkScored (utf8 "C") (31 # 100) (2105 # 10000).

Definition request (top : option string) : Args :=
  mkArgs (option_map utf8 top) None None None None None None None.

End Samples.

(* ------------------------------------------------------------------ *)
(** ** Further predicates on strings *)
(* ------------------------------------------------------------------ *)

Module CaseProps.
Import PyStr Normalize.

(** Lowering a code point first changes neither its whitespace class nor
    its lowered bases (boolean form). *)
Definition cp_case_ok (c : N) : bool :=
  Bool.eqb (is_space (lower_cp c)) (is_space c)
  && eqb (map lower_cp (nfkd_base (lower_cp c)))
         (map lower_cp (nfkd_base c)).

(** The keys of a dict. *)
Definition keys (d : dict) : list pystr := map fst d.

(** The closed vocabularies of the category maps. *)
Definition fuel_vocabulary : list pystr :=
  map utf8 ["petrol"; "diesel"; "electric"; "hybrid"; "plug-in hybrid";
            "lpg"; "cng"]%string.

Definition transmission_vocabulary : list pystr :=
  map utf8 ["manual"; "automatic"]%string.

Definition body_vocabulary : list pystr :=
  map utf8 ["sedan"; "wagon"; "hatchback"; "coupe"; "convertible"; "suv";
            "van"]%string.

(** Boolean form of [Props.stable]. *)
Definition stable_b (c : N) : bool :=
  eqb (nfkd_base c) [c] && (lower_cp c =? c)%N.

(** The keys of a dict that no accent-stripped lowercase text can equal. *)
Definition dead_keys (d : dict) : list pystr :=
  filter (fun k => negb (forallb stable_b k)) (keys d).

(** Every value of the dict is a word of the vocabulary. *)
Definition values_within (d : dict) (vocabulary : list pystr) : bool :=
  forallb (fun kv => existsb (eqb (snd kv)) vocabulary) d.

End CaseProps.

(* ------------------------------------------------------------------ *)
(** ** Component D, continued: the engine, the numeric and the textual
       axis, and the match score *)
(* ------------------------------------------------------------------ *)

Module Engine.
Import PyStr Normalize Payloads Similarity Handler.
Local Open Scope Q_scope.

(** A weight dict: keys with their weights, in insertion order. *)
Definition weights := list (string * Q).

(** [sum(d.values())] *)
Definition total (d : weights) : Q := fold_left Qplus (map snd d) 0.

(** [d[key]]; [None] is the [KeyError]. *)
Fixpoint weight (d : weights) (key : string) : option Q :=
  match d with
  | [] => None
  | (k, v) :: rest => if String.eqb k key then Some v else weight rest key
  end.

(** One block of [SimilarityEngine.__init__]: the configured weights, or
    the defaults when their total is not positive, divided by their
    total. *)
Definition normalise (configured : option weights) (defaults : weights)
  : weights :=
  let chosen := match configured with Some w => w | None => defaults end in
  let chosen_total := total chosen in
  let '(chosen, chosen_total) :=
    if Qle_bool chosen_total 0 then (defaults, total defaults)
    else (chosen, chosen_total) in
  map (fun kv => (fst kv, snd kv / chosen_total)) chosen.

Definition default_match_weights : weights :=
  [("categorical"%string, 45 # 100); ("numeric"%string, 25 # 100);
   ("text"%string, 30 # 100)].

Definition default_numeric_weights : weights :=
  [("age"%string, 40 # 100); ("mileage"%string, 40 # 100);
   ("power"%string, 20 # 100)].

Definition default_text_weights : weights :=
  [("feature_overlap"%string, 60 # 100); ("token_overlap"%string, 40 # 100)].

(** The [config] dict of the constructor (the weight dicts it reads that
    the scoring methods use). *)
Record Config := mkConfig {
  cfg_match_weights : option weights;
  cfg_numeric_weights : option weights;
  cfg_text_weights : option weights
}.

Record SimilarityEngine := mkEngine {
  match_weights : weights;
  numeric_weights : weights;
  text_weights : weights
}.

Definition init (config : Config) : SimilarityEngine :=
  {| match_weights := normalise (cfg_match_weights config) default_match_weights;
     numeric_weights :=
       normalise (cfg_numeric_weights config) default_numeric_weights;
     text_weights := normalise (cfg_text_weights config) default_text_weights |}.

(** The module-level instance [similarity_engine = SimilarityEngine()]. *)
Definition similarity_engine : SimilarityEngine :=
  init (mkConfig None None None).

(** [SimilarityEngine._bounded_similarity] *)
Definition bounded_similarity (diff window : Q) : Q :=
  if Qle_bool window 0 then 1 # 2
  else Qmax 0 (Qmin 1 (1 - diff / window)).

(** The keys [_numeric_similarity] reads from a vehicle dict. *)
Record NumericFields := mkNumericFields {
  age_months : option Z;
  mileage_km : option Q;
  power_kw : option Q
}.

(** [x or 1.0] on a float. *)
Definition or_one (x : Q) : Q := if Qeq_bool x 0 then 1 else x.

(** The score of the mileage block and of the power block, which differ
    only in the keys they read. *)
Definition ratio_window_score (target candidate : option Q)
    (ratio min_window : Q) : Q :=
  match target, candidate with
  | Some t, Some c =>
      let tolerance_window := Qmax (Qabs t * ratio) min_window in
      let diff := Qabs (c - t) in
      bounded_similarity diff
        (if Qle_bool tolerance_window 0 then or_one min_window
         else tolerance_window)
  | _, _ => 1 # 2
  end.

(** [SimilarityEngine._numeric_similarity]; the result is the similarity
    with the three component scores (age, mileage, power). *)
Definition numeric_similarity (self : SimilarityEngine)
    (target candidate : NumericFields) (tolerances : ToleranceConfig)
  : option (Q * (Q * Q * Q)) :=
  let year_tolerance :=
    Qmax (inject_Z (year_tolerance_years tolerances)) (1 # 10) * 12 in
  let mileage_ratio := Qmax (mileage_tolerance_ratio tolerances) (1 # 100) in
  let mileage_min_window := Qmax (Handler.mileage_min_window tolerances) 0 in
  let power_ratio := Qmax (power_tolerance_ratio tolerances) (1 # 100) in
  let power_min_window := Qmax (Handler.power_min_window tolerances) 0 in
  let weighted_score := 0 in
  let weight_total := 0 in
  let age_score :=
    match age_months target, age_months candidate with
    | Some target_age, Some candidate_age =>
        let age_delta := inject_Z candidate_age - inject_Z target_age in
        let age_diff := Qabs age_delta in
        let age_window := Qmax year_tolerance 1 in
        bounded_similarity age_diff age_window
    | _, _ => 1 # 2
    end in
  match weight (numeric_weights self) "age" with
  | None => None
  | Some w_age =>
      let weighted_score := weighted_score + w_age * age_score in
      let weight_total := weight_total + w_age in
      let mileage_score :=
        ratio_window_score (mileage_km target) (mileage_km candidate)
                           mileage_ratio mileage_min_window in
      match weight (numeric_weights self) "mileage" with
      | None => None
      | Some w_mileage =>
          let weighted_score := weighted_score + w_mileage * mileage_score in
          let weight_total := weight_total + w_mileage in
          let power_score :=
            ratio_window_score (power_kw target) (power_kw candidate)
                               power_ratio power_min_window in
          match weight (numeric_weights self) "power" with
          | None => None
          | Some w_power =>
              let weighted_score := weighted_score + w_power * power_score in
              let weight_total := weight_total + w_power in
              let similarity :=
                if Qle_bool weight_total 0 then 1 # 2
                else weighted_score / weight_total in
              Some (similarity, (age_score, mileage_score, power_score))
          end
      end
  end.

(** A text profile: the token set and the option-feature set, each a
    list without repetition. *)
Record TextProfile := mkTextProfile {
  tokens : list pystr;
  features : list pystr
}.

Definition pystr_eq_dec : forall a b : pystr, {a = b} + {a <> b} :=
  list_eq_dec N.eq_dec.

(** [len(a & b) / len(a | b)] when the union is not empty, else 0.5. *)
Definition overlap (a b : list pystr) : Q :=
  let union := ListSet.set_union pystr_eq_dec a b in
  let intersection := ListSet.set_inter pystr_eq_dec a b in
  match union with
  | [] => 1 # 2
  | _ :: _ =>
      inject_Z (Z.of_nat (List.length intersection))
      / inject_Z (Z.of_nat (List.length union))
  end.

(** [SimilarityEngine._textual_similarity]: the score with the feature
    and the token overlap. *)
Definition textual_similarity (self : SimilarityEngine)
    (target_profile candidate_profile : TextProfile) : option (Q * (Q * Q)) :=
  let token_overlap :=
    overlap (tokens target_profile) (tokens candidate_profile) in
  let feature_overlap :=
    overlap (features target_profile) (features candidate_profile) in
  match weight (text_weights self) "feature_overlap" with
  | None => None
  | Some w_feature =>
      match weight (text_weights self) "token_overlap" with
      | None => None
      | Some w_token =>
          Some (w_feature * feature_overlap + w_token * token_overlap,
                (feature_overlap, token_overlap))
      end
  end.

(** [SimilarityEngine.score] for the profiles [score_candidates] passes
    in; the result is the match score with the three axis scores. *)
Definition score (self : SimilarityEngine) (target candidate : Payload)
    (target_numbers candidate_numbers : NumericFields)
    (tolerances : ToleranceConfig)
    (target_profile candidate_profile : TextProfile)
  : option (Q * (Q * Q * Q)) :=
  let '(categorical_score, _) := categorical_similarity target candidate in
  match numeric_similarity self target_numbers candidate_numbers tolerances with
  | None => None
  | Some (numeric_score, _) =>
      match textual_similarity self target_profile candidate_profile with
      | None => None
      | Some (text_score, _) =>
          match weight (match_weights self) "categorical",
                weight (match_weights self) "numeric",
                weight (match_weights self) "text" with
          | Some w_cat, Some w_num, Some w_text =>
              let total :=
                w_cat * categorical_score + w_num * numeric_score
                + w_text * text_score in
              let final_score := Qmax 0 (Qmin 1 total) in
              Some (final_score,
                    (categorical_score, numeric_score, text_score))
          | _, _, _ => None
          end
      end
  end.

End Engine.

(* ------------------------------------------------------------------ *)
(** ** The explanation builder: hard matches *)
(* ------------------------------------------------------------------ *)

Module Explain.
Import Similarity.
Local Open Scope Q_scope.

(** [categorical_components.get(key)] *)
Fixpoint get_component (components : list Component) (key : string)
  : option Component :=
  match components with
  | [] => None
  | c :: rest =>
      if String.eqb (c_key c) key then Some c else get_component rest key
  end.

(** The status chain of [build_explanation]; [score] is
    [component.get("score")]. *)
Definition hard_match_status (score : option Q) : string :=
  match score with
  | None => "unknown"%string
  | Some score =>
      if Qle_bool (99 # 100) score then "match"%string
      else if Qle_bool score (1 # 100) then "mismatch"%string
      else "partial"%string
  end.

(** One entry of [hard_matches]: the label with the status and score. *)
Definition hard_match_entry (key : string) (component : Component)
  : string * (string * Q) :=
  let score := c_score component in
  let status := hard_match_status (Some score) in
  let label :=
    if String.eqb key "make_model"
    then "Make & Model"%string else "Body Type"%string in
  (label, (status, score)).

(** The [for key in ["make_model", "body"]] loop. *)
Definition hard_matches (categorical_components : list Component)
  : list (string * (string * Q)) :=
  flat_map
    (fun key =>
       match get_component categorical_components key with
       | None => []
       | Some component => [hard_match_entry key component]
       end)
    ["make_model"; "body"]%string.

End Explain.

(* ------------------------------------------------------------------ *)
(** ** The price cohort of [score_candidates] *)
(* ------------------------------------------------------------------ *)

Module Cohort.
Import Payloads.
Local Open Scope Q_scope.

(** [sorted(...)] on floats. *)
Fixpoint insert_price (x : Q) (l : list Q) : list Q :=
  match l with
  | [] => [x]
  | y :: t => if Qle_bool x y then x :: l else y :: insert_price x t
  end.

Definition sorted (l : list Q) : list Q := fold_right insert_price [] l.

(** [sorted(p["price_eur"] for p in payloads if p.get("price_eur") is not
    None)] *)
Definition price_values_of (payloads : list Payload) : list Q :=
  sorted (flat_map (fun p => match p_price_eur p with
                             | Some v => [v]
                             | None => []
                             end) payloads).

(** [statistics.median]: [None] is [StatisticsError] (no data). *)
Definition median (data : list Q) : option Q :=
  let data := sorted data in
  let n := List.length data in
  match n with
  | O => None
  | _ =>
      if Nat.odd n then nth_error data (n / 2)
      else
        let i := (n / 2)%nat in
        match nth_error data (i - 1), nth_error data i with
        | Some a, Some b => Some ((a + b) / 2)
        | _, _ => None
        end
  end.

(** [statistics.median(price_values) if price_values else None] *)
Definition median_price_of (price_values : list Q) : option Q :=
  match price_values with
  | [] => None
  | _ :: _ => median price_values
  end.

(** [bisect_left] on a sorted list: the leftmost insertion point of [x],
    which is the length of the run of elements below [x] the list starts
    with. *)
Fixpoint bisect_left (a : list Q) (x : Q) : nat :=
  match a with
  | [] => 0
  | y :: t => if Qle_bool x y then 0 else S (bisect_left t x)
  end.

(** The local function [price_percentile] of [score_candidates]. *)
Definition price_percentile (price_values : list Q) (value : option Q)
  : option Q :=
  match value with
  | None => None
  | Some value =>
      match price_values with
      | [] => None
      | [_] => Some 0
      | _ =>
          let pos := bisect_left price_values value in
          let percentile :=
            inject_Z (Z.of_nat pos)
            / inject_Z (Z.of_nat (List.length price_values - 1)) in
          Some (Qmax 0 (Qmin 1 percentile))
      end
  end.

End Cohort.

(** Counting in a price list: the prices strictly below [v], and the
    values not above and not below [m]. *)
Module CohortProps.
Local Open Scope Q_scope.

Definition count (f : Q -> bool) (l : list Q) : nat :=
  List.length (filter f l).

Definition cheaper (prices : list Q) (v : Q) : nat :=
  count (fun y => negb (Qle_bool v y)) prices.

Definition at_most (data : list Q) (m : Q) : nat :=
  count (fun y => Qle_bool y m) data.

Definition at_least (data : list Q) (m : Q) : nat :=
  count (fun y => Qle_bool m y) data.

End CohortProps.

(* ------------------------------------------------------------------ *)
(** ** The scoring loop of [score_candidates] *)
(* ------------------------------------------------------------------ *)

Module Loop.
Import PyStr Store Payloads Deal Ranking Handler Engine Cohort.

(** Truthiness of an optional float. *)
Definition truthy_q (x : option Q) : bool :=
  match x with
  | Some q => negb (Qeq_bool q 0)
  | None => false
  end.

(** The [trust_fields] block: the share of the five fields that are
    truthy. *)
Definition trust_score (payload : Payload) (images : list pystr) : Q :=
  let trust_fields :=
    [ truthy_q (p_price_eur payload);
      truthy_q (p_mileage_km payload);
      truthy_q (p_power_kw payload);
      match p_description payload with [] => false | _ :: _ => true end;
      match images with [] => false | _ :: _ => true end ] in
  let non_null := List.length (filter (fun item => item) trust_fields) in
  match trust_fields with
  | [] => 1 # 2
  | _ :: _ =>
      (inject_Z (Z.of_nat non_null)
       / inject_Z (Z.of_nat (List.length trust_fields)))%Q
  end.

(** [savings]: the price difference when both prices are truthy. *)
Definition savings_of (target_price candidate_price : option Q) : Q :=
  match target_price, candidate_price with
  | Some t, Some c =>
      if truthy_q target_price && truthy_q candidate_price
      then (t - c)%Q else 0%Q
  | _, _ => 0%Q
  end.

(** A candidate as the loop sees it: the fetched row with the parts of its
    payload that are computed outside this development (the vehicle age in
    months, the text profile of the description and the parsed image
    list). *)
Record Candidate := mkCandidate {
  cand_row : Row;
  cand_age_months : option Z;
  cand_profile : TextProfile;
  cand_images : list pystr
}.

(** The keys the loop writes into the payload. *)
Record Result := mkResult {
  r_similarity_score : Q;
  r_deal_score : R;
  r_percentile : option Q;
  r_freshness_score : option R;
  r_trust_score : Q;
  r_savings : Q;
  r_final_score : R
}.

Definition lift (x : option Q) : option R := option_map Q2R x.

(** The body of [for payload in payloads]; [None] is the [KeyError] of a
    missing weight. *)
Definition score_payload (now : Q) (tolerances : ToleranceConfig)
    (target_payload : Payload) (target_age_months : option Z)
    (target_profile : TextProfile)
    (price_values : list Q) (median_price : option Q)
    (candidate : Candidate) : option Result :=
  let payload := format_vehicle_payload now (cand_row candidate) in
  let profile := cand_profile candidate in
  match
    score similarity_engine target_payload payload
      (mkNumericFields target_age_months (p_mileage_km target_payload)
                       (p_power_kw target_payload))
      (mkNumericFields (cand_age_months candidate) (p_mileage_km payload)
                       (p_power_kw payload))
      tolerances target_profile profile
  with
  | None => None
  | Some (similarity_score, _) =>
      let percentile := price_percentile price_values (p_price_eur payload) in
      let '(deal_score, _) :=
        compute_deal_score (lift (p_price_eur payload)) (lift percentile)
          (lift median_price) (lift (p_price_eur target_payload))
          (lift (p_mileage_km target_payload))
          (lift (p_mileage_km payload)) in
      let savings :=
        savings_of (p_price_eur target_payload) (p_price_eur payload) in
      let freshness_score := freshness_score (p_freshness_days payload) in
      let trust_score := trust_score payload (cand_images candidate) in
      let alpha := rank_alpha tolerances in
      let beta := rank_beta tolerances in
      let freshness_weight := rank_freshness tolerances in
      let trust_weight := rank_trust tolerances in
      let final_score :=
        blend (Q2R alpha) (Q2R beta) (Q2R freshness_weight)
              (Q2R trust_weight) (Q2R similarity_score) deal_score
              freshness_score (Q2R trust_score) in
      Some (mkResult similarity_score deal_score percentile freshness_score
                     trust_score savings final_score)
  end.

(** The loop with the cohort statistics computed before it. *)
Definition scoring_loop (now : Q) (tolerances : ToleranceConfig)
    (target_payload : Payload) (target_age_months : option Z)
    (target_profile : TextProfile) (candidates : list Candidate)
  : list (option Result) :=
  let payloads :=
    map (fun c => format_vehicle_payload now (cand_row c)) candidates in
  let price_values := price_values_of payloads in
  let median_price := median_price_of price_values in
  map (score_payload now tolerances target_payload target_age_months
                     target_profile price_values median_price)
      candidates.

End Loop.

(* ------------------------------------------------------------------ *)
(** ** The listing endpoint *)
(* ------------------------------------------------------------------ *)

Module Listings.
Import PyStr Store Payloads.

(** [{**row, "vehicle_id": vehicle_id}] *)
Definition with_vehicle_id (row : Row) (id : pystr) : Row :=
  {| vehicle_id := Some id;
     price := price row;
     mileage_km := mileage_km row;
     first_registration_raw := first_registration_raw row;
     make := make row;
     model := model row;
     fuel_type := fuel_type row;
     transmission := transmission row;
     body_type := body_type row;
     description := description row;
     power_kw := power_kw row;
     color := color row;
     created_at := created_at row;
     updated_at := updated_at row;
     price_num := price_num row;
     mileage_num := mileage_num row;
     match_strategy := match_strategy row |}.

Inductive ListingResponse :=
| Found (payload : Payload)      (* 200 *)
| NotFound.                      (* 404 *)


Definition get_vehicle_endpoint (now : Q) (db : list Listing)
    (vehicle_id : pystr) : ListingResponse :=
  match fetch_vehicle db vehicle_id with
  | None => NotFound
  | Some row =>
      Found (format_vehicle_payload now (with_vehicle_id row vehicle_id))
  end.

End Listings.

(* ------------------------------------------------------------------ *)
(** ** The cached base query *)
(* ------------------------------------------------------------------ *)

Module Cache.
Import PyStr Normalize Store.

(** The cache key: the folded make, the folded model and the limit. *)
Definition Key : Type := pystr * pystr * nat.

Definition key_eqb (a b : Key) : bool :=
  let '(a1, a2, a3) := a in
  let '(b1, b2, b3) := b in
  eqb a1 b1 && eqb a2 b2 && Nat.eqb a3 b3.

Record Entry := mkEntry {
  ts : Q;
  rows : list Row
}.

(** The module-level dict [CANDIDATE_CACHE]. *)
Definition CandidateCache : Type := list (Key * Entry).

Fixpoint cache_get (cache : CandidateCache) (key : Key) : option Entry :=
  match cache with
  | [] => None
  | (k, e) :: rest => if key_eqb k key then Some e else cache_get rest key
  end.

(** [CANDIDATE_CACHE[key] = entry] *)
Definition cache_set (cache : CandidateCache) (key : Key) (entry : Entry)
  : CandidateCache :=
  (key, entry) :: filter (fun kv => negb (key_eqb (fst kv) key)) cache.

(** The [logs] dict: the row counts of the two queries and the cache
    entry (hit or miss, and the row count of a hit). *)
Record Logs := mkLogs {
  primary : option nat;
  fallback : option nat;
  cache_hit : bool;
  cache_row_count : option nat
}.

Inductive Outcome :=
| ValueError                                  (* missing make or model *)
| Returned (rows : list Row) (logs : Logs).

(** The key a target row is cached under. *)
Definition cache_key (target_row : Row) (candidate_limit : nat)
  : option Key :=
  match normalize_text (make target_row),
        normalize_text (model target_row) with
  | Some target_make, Some target_model =>
      Some (lower (strip_accents target_make),
            lower (strip_accents target_model),
            candidate_limit)
  | _, _ => None
  end.

Definition primary_condition (target_row : Row) : list (Listing -> bool) :=
  [ (fun l => l_is_vehicle_available l);
    (fun l => sql_ne (Some (l_vehicle_id l)) (vehicle_id target_row));
    (fun l => sql_eq (l_make l) (make target_row));
    (fun l => sql_eq (l_model l) (model target_row)) ].

Definition fallback_condition (target_row : Row)
    (target_make target_model : pystr) : list (Listing -> bool) :=
  [ (fun l => l_is_vehicle_available l);
    (fun l => sql_ne (Some (l_vehicle_id l)) (vehicle_id target_row));
    (fun l => sql_eq (sql_lower_trim (l_make l)) (Some (lower target_make)));
    (fun l => sql_eq (sql_lower_trim (l_model l))
                     (Some (lower target_model))) ].

(** [fetch_candidate_rows]: the cache is passed in and returned;
    [CANDIDATE_CACHE_TTL] is read from the environment (180 by default)
    and [now] is [time.time()]. *)
Definition fetch_candidate_rows (CANDIDATE_CACHE_TTL : Z) (now : Q)
    (db : list Listing) (CANDIDATE_CACHE : CandidateCache)
    (target_row : Row) (candidate_limit : nat)
  : Outcome * CandidateCache :=
  match normalize_text (make target_row),
        normalize_text (model target_row) with
  | Some target_make, Some target_model =>
      let key := (lower (strip_accents target_make),
                  lower (strip_accents target_model),
                  candidate_limit) in
      let fresh :=
        match cache_get CANDIDATE_CACHE key with
        | Some cache_entry =>
            if Qle_bool (inject_Z CANDIDATE_CACHE_TTL)
                        (now - ts cache_entry)
            then None else Some cache_entry
        | None => None
        end in
      match fresh with
      | Some cache_entry =>
          (Returned (rows cache_entry)
                    (mkLogs None None true
                            (Some (List.length (rows cache_entry)))),
           CANDIDATE_CACHE)
      | None =>
          let rows :=
            run_query db (primary_condition target_row) candidate_limit in
          let primary := Some (List.length rows) in
          let '(rows, fallback) :=
            match rows with
            | [] =>
                let rows :=
                  run_query db
                    (fallback_condition target_row target_make target_model)
                    candidate_limit in
                (rows, Some (List.length rows))
            | _ :: _ => (rows, None)
            end in
          (Returned rows (mkLogs primary fallback false None),
           cache_set CANDIDATE_CACHE key (mkEntry now rows))
      end
  | _, _ => (ValueError, CANDIDATE_CACHE)
  end.

End Cache.

(* ------------------------------------------------------------------ *)
(** ** The categorical rule in the words of the specification *)
(* ------------------------------------------------------------------ *)

Module CategoricalSpec.
Import PyStr Normalize Payloads.
Local Open Scope Q_scope.

(** "Accent-stripped-lowercase". *)
Definition folded (s : pystr) : pystr := lower (strip_accents s).


(** The name a payload field stands for: null when the stripped text is
    empty, else the folded stripped text. *)
Definition name_of (field : option pystr) : option pystr :=
  option_map folded (normalize_text field).






End CategoricalSpec.

(* ------------------------------------------------------------------ *)
(** ** Further sample data *)
(* ------------------------------------------------------------------ *)

Module Samples2.
Import PyStr Normalize Store Payloads Samples.

(** A listing created at second 0 and touched thirty days later. *)
Definition touched_listing : Listing :=
  mkListing (utf8 "a") (Some (utf8 "23500")) (Some (utf8 "43000"))
    (Some (utf8 "05/2021")) (Some (utf8 "BMW")) (Some (utf8 "3er"))
    (Some (utf8 "Benzin")) (Some (utf8 "Automatik")) (Some (utf8 "Limousine"))
    None (Some 120) (Some (utf8 "black")) (Some (At 0))
    (Some (At 2592000)) true.

(** The same listing had the query selected [updated_at] too. *)
Definition touched_row_with_updated_at : Row :=
  {| vehicle_id := Some (utf8 "a");
     price := Some (utf8 "23500");
     mileage_km := Some (utf8 "43000");
     first_registration_raw := Some (utf8 "05/2021");
     make := Some (utf8 "BMW");
     model := Some (utf8 "3er");
     fuel_type := Some (utf8 "Benzin");
     transmission := Some (utf8 "Automatik");
     body_type := Some (utf8 "Limousine");
     description := None;
     power_kw := Some 120;
     color := Some (utf8 "black");
     created_at := Some (At 0);
     updated_at := Some (At 2592000);
     price_num := Some 23500;
     mileage_num := Some 43000;
     match_strategy := None |}.


End Samples2.

(* ------------------------------------------------------------------ *)
(** ** Binary64 arithmetic *)
(* ------------------------------------------------------------------ *)

(** The modules above take a Python float for the rational it prints as
    and leave the rounding out.  From here on a float is the rational it
    is: a literal or an operation yields the binary64 number nearest to
    the exact value, ties going to the even significand, as IEEE 754
    prescribes and CPython does.  The exponent is bounded below (down to
    the subnormal numbers) and not above: a result of magnitude [2^1024]
    or more stands for an infinity, and [finite] tells them apart. *)
Module Binary64.
Local Open Scope Q_scope.

Definition pow2 (e : Z) : Q := Qpower 2 e.

(** The exponent of the leading bit of a positive rational: the [e] with
    [2^e <= x < 2^(e+1)]. *)
Definition ilog2 (x : Q) : Z :=
  let e0 := (Z.log2 (Qnum x) - Z.log2 (Zpos (Qden x)))%Z in
  if Qle_bool (pow2 e0) x then e0 else (e0 - 1)%Z.

(** Rounding to the nearest integer, ties to even. *)
Definition round_half_even (y : Q) : Z :=
  let f := Qfloor y in
  match Qcompare (y - inject_Z f) (1 # 2) with
  | Lt => f
  | Gt => (f + 1)%Z
  | Eq => if Z.even f then f else (f + 1)%Z
  end.

(** The exponent of the last place of the binary64 numbers around [x]:
    53 significant bits, and never below [2^-1074]. *)
Definition exponent (x : Q) : Z := Z.max (ilog2 (Qabs x) - 52) (-1074).

Definition round64 (x : Q) : Q :=
  if Qeq_bool x 0 then 0
  else Qred (inject_Z (round_half_even (x / pow2 (exponent x)))
             * pow2 (exponent x)).

(** [2^1024], the first magnitude that rounds to an infinity. *)
Definition inf64 : Q := pow2 1024.

Definition finite (x : Q) : bool :=
  negb (Qle_bool inf64 (Qabs x)).

(** A float literal and the four operations on finite floats. *)
Definition lit (q : Q) : Q := round64 q.
Definition fadd (x y : Q) : Q := round64 (x + y).
Definition fsub (x y : Q) : Q := round64 (x - y).
Definition fmul (x y : Q) : Q := round64 (x * y).
Definition fdiv (x y : Q) : Q := round64 (x / y).

(** Half a unit in the last place of the numbers in [1, 2). *)
Definition ulp_half : Q := 1 # 9007199254740992.

End Binary64.

(* ------------------------------------------------------------------ *)
(** ** Exceptions *)
(* ------------------------------------------------------------------ *)

(** The exceptions the modelled code can raise, and a computation that
    returns or raises.  An exception that leaves a request handler is
    answered with status 500. *)
Module Exceptions.

Inductive exn :=
| ValueError
| TypeError
| OverflowError.

Inductive outcome (A : Type) :=
| Returns (a : A)
| Raises (e : exn).

Arguments Returns {A} a.
Arguments Raises {A} e.

Definition bind {A B : Type} (m : outcome A) (f : A -> outcome B)
  : outcome B :=
  match m with
  | Returns a => f a
  | Raises e => Raises e
  end.

Notation "x <- m ;; k" := (bind m (fun x => k))
  (at level 61, m at next level, right associativity).

End Exceptions.

(* ------------------------------------------------------------------ *)
(** ** Digits of Unicode 14 *)
(* ------------------------------------------------------------------ *)

(** [str.isdigit], [str.isdecimal] and the digit values [int] and [float]
    read, as CPython 3.11 (Unicode 14.0.0) has them. *)
Module Unicode.
Import PyStr.

(** The code points with [Numeric_Type] Decimal or Digit, as inclusive
    ranges: the characters on which [str.isdigit] is true. *)
Definition digit_ranges : list (N * N) :=
  [ (48, 57); (178, 179); (185, 185); (1632, 1641); (1776, 1785); (1984,
    1993); (2406, 2415); (2534, 2543); (2662, 2671); (2790, 2799); (2918,
    2927); (3046, 3055); (3174, 3183); (3302, 3311); (3430, 3439); (3558,
    3567); (3664, 3673); (3792, 3801); (3872, 3881); (4160, 4169); (4240,
    4249); (4969, 4977); (6112, 6121); (6160, 6169); (6470, 6479); (6608,
    6618); (6784, 6793); (6800, 6809); (6992, 7001); (7088, 7097); (7232,
    7241); (7248, 7257); (8304, 8304); (8308, 8313); (8320, 8329); (9312,
    9320); (9332, 9340); (9352, 9360); (9450, 9450); (9461, 9469); (9471,
    9471); (10102, 10110); (10112, 10120); (10122, 10130); (42528, 42537);
    (43216, 43225); (43264, 43273); (43472, 43481); (43504, 43513);
    (43600, 43609); (44016, 44025); (65296, 65305); (66720, 66729);
    (68160, 68163); (68912, 68921); (69216, 69224); (69714, 69722);
    (69734, 69743); (69872, 69881); (69942, 69951); (70096, 70105);
    (70384, 70393); (70736, 70745); (70864, 70873); (71248, 71257);
    (71360, 71369); (71472, 71481); (71904, 71913); (72016, 72025);
    (72784, 72793); (73040, 73049); (73120, 73129); (92768, 92777);
    (92864, 92873); (93008, 93017); (120782, 120831); (123200, 123209);
    (123632, 123641); (125264, 125273); (127232, 127242); (130032, 130041) ]%N.

Definition isdigit (c : N) : bool :=
  existsb (fun r => (fst r <=? c) && (c <=? snd r))%N digit_ranges.

(** The zeros of the decimal digit runs (general category Nd); each run
    holds the digits 0 to 9 in order. *)
Definition decimal_zeros : list N :=
  [ 48; 1632; 1776; 1984; 2406; 2534; 2662; 2790; 2918; 3046; 3174; 3302;
    3430; 3558; 3664; 3792; 3872; 4160; 4240; 6112; 6160; 6470; 6608;
    6784; 6800; 6992; 7088; 7232; 7248; 42528; 43216; 43264; 43472; 43504;
    43600; 44016; 65296; 66720; 68912; 69734; 69872; 69942; 70096; 70384;
    70736; 70864; 71248; 71360; 71472; 71904; 72016; 72784; 73040; 73120;
    92768; 92864; 93008; 120782; 120792; 120802; 120812; 120822; 123200;
    123632; 125264; 130032 ]%N.

(** The value of a decimal digit ([str.isdecimal]), which is what [int]
    and [float] accept as a digit. *)
Definition decimal_value (c : N) : option Z :=
  match find (fun z => (z <=? c) && (c <? z + 10))%N decimal_zeros with
  | Some z => Some (Z.of_N (c - z))
  | None => None
  end.

(** [s.isdigit()] *)
Definition str_isdigit (s : pystr) : bool :=
  match s with
  | [] => false
  | _ :: _ => forallb isdigit s
  end.

(** The whitespace [int] skips at both ends: [str.isspace] without the
    four ASCII separators U+001C to U+001F. *)
Definition int_space (c : N) : bool :=
  is_space c && negb (in_range 28 31 c).

End Unicode.

(* ------------------------------------------------------------------ *)
(** ** The program on binary64 floats and with its exceptions *)
(* ------------------------------------------------------------------ *)

(** [Impl] holds the functions of [api.py] once more, now with the float
    arithmetic of [Binary64] where a result depends on the rounding, with
    the digits of [Unicode], and with the exceptions of the conversions
    ([float] and [int] on text, [math.exp], the comparison of a time-zone
    aware registration date).  The store is the one of [Store]: [price]
    and [mileage_km] are text, [power_kw] is a number, a query evaluates
    without error.  The values the deal scorer returns are kept as real
    numbers. *)
Module Impl.
Import PyStr Normalize Store Retrieval Payloads Similarity Ranking Handler.
Import Listings Binary64 Exceptions Unicode.
Local Open Scope Q_scope.

(** The ranking weights computed from [balance] (the float the query
    parameter parses to): (alpha_weight, beta_weight). *)
Definition rank_weights (balance : Q) : Q * Q :=
  let balance := Qmax (-1) (Qmin 1 balance) in
  let alpha_base := lit (55 # 100) in
  let beta_base := lit (30 # 100) in
  let alpha_raw :=
    Qmax (lit (15 # 100)) (fadd alpha_base (fmul balance (lit (2 # 10)))) in
  let beta_raw :=
    Qmax (lit (15 # 100)) (fsub beta_base (fmul balance (lit (2 # 10)))) in
  let total_raw := fadd alpha_raw beta_raw in
  let desired_total := lit (85 # 100) in
  let '(alpha_raw, beta_raw, total_raw) :=
    if Qle_bool total_raw 0
    then (alpha_base, beta_base, fadd alpha_base beta_base)
    else (alpha_raw, beta_raw, total_raw) in
  let scale := fdiv desired_total total_raw in
  let alpha_weight :=
    Qmax (lit (1 # 10)) (Qmin (lit (85 # 100)) (fmul alpha_raw scale)) in
  let beta_weight :=
    Qmax (lit (1 # 10)) (Qmin (lit (85 # 100)) (fmul beta_raw scale)) in
  (alpha_weight, beta_weight).

(** [_categorical_similarity]: the five field scores are those of
    [Similarity]; the running [weighted_score] and [weight_total] and the
    final quotient are floats. *)
Definition categorical_similarity (target candidate : Payload)
  : Q * list Component :=
  let weighted_score := 0 in
  let weight_total := 0 in
  let make_model_weight := lit (25 # 100) in
  let mm_score := mm_score_of target candidate in
  let weighted_score :=
    fadd weighted_score (fmul make_model_weight mm_score) in
  let weight_total := fadd weight_total make_model_weight in
  let body_weight := lit (20 # 100) in
  let body_score := cat_score (body_of target) (body_of candidate) in
  let weighted_score := fadd weighted_score (fmul body_weight body_score) in
  let weight_total := fadd weight_total body_weight in
  let fuel_weight := lit (20 # 100) in
  let fuel_score := cat_score (fuel_of target) (fuel_of candidate) in
  let weighted_score := fadd weighted_score (fmul fuel_weight fuel_score) in
  let weight_total := fadd weight_total fuel_weight in
  let transmission_weight := lit (15 # 100) in
  let transmission_score :=
    cat_score (trans_of target) (trans_of candidate) in
  let weighted_score :=
    fadd weighted_score (fmul transmission_weight transmission_score) in
  let weight_total := fadd weight_total transmission_weight in
  let color_weight := lit (20 # 100) in
  let color_score := cat_score (color_of target) (color_of candidate) in
  let weighted_score := fadd weighted_score (fmul color_weight color_score) in
  let weight_total := fadd weight_total color_weight in
  let similarity :=
    if Qle_bool weight_total 0 then 1 # 2
    else fdiv weighted_score weight_total in
  (similarity,
   [ mkComponent "make_model" mm_score make_model_weight;
     mkComponent "body" body_score body_weight;
     mkComponent "fuel" fuel_score fuel_weight;
     mkComponent "transmission" transmission_score transmission_weight;
     mkComponent "exterior_color" color_score color_weight ]).


(** *** Conversions *)

(** The value of a string of decimal digits, most significant first;
    [None] when a character is not a decimal digit. *)
Fixpoint decimal_digits (s : pystr) (acc : Z) : option Z :=
  match s with
  | [] => Some acc
  | c :: t =>
      match decimal_value c with
      | Some d => decimal_digits t (acc * 10 + d)%Z
      | None => None
      end
  end.

(** [float(digits)] on a non-empty string of [isdigit] characters: a
    digit that is not decimal (a superscript, a circled digit) is not a
    digit to [float]. *)
Definition float_of_digits (digits : pystr) : outcome Q :=
  match decimal_digits digits 0 with
  | Some v => Returns (round64 (inject_Z v))
  | None => Raises ValueError
  end.

Fixpoint lstrip_int (s : pystr) : pystr :=
  match s with
  | [] => []
  | c :: t => if int_space c then lstrip_int t else s
  end.

(** The digits of an integer literal: decimal digits with single
    underscores between them.  [after_digit] tells whether the previous
    character was a digit. *)
Fixpoint grouped_digits (after_digit : bool) (s : pystr) (acc : list Z)
  : option (list Z) :=
  match s with
  | [] => if after_digit then Some (rev acc) else None
  | c :: t =>
      match decimal_value c with
      | Some d => grouped_digits true t (d :: acc)
      | None =>
          if (c =? 95)%N && after_digit then grouped_digits false t acc
          else None
      end
  end.

(** [int(s)]: surrounding whitespace, an optional sign, decimal digits of
    any script with single underscores between them, at most 4300 digits
    (the default of [sys.set_int_max_str_digits]).  [None] is the
    [ValueError]. *)
Definition py_int (s : pystr) : option Z :=
  let s := rev (lstrip_int (rev (lstrip_int s))) in
  let '(negative, body) :=
    match s with
    | 43%N :: t => (false, t)
    | 45%N :: t => (true, t)
    | _ => (false, s)
    end in
  match grouped_digits false body [] with
  | Some digits =>
      if (4300 <? List.length digits)%nat then None
      else
        let v := fold_left (fun acc d => (acc * 10 + d)%Z) digits 0%Z in
        Some (if negative : bool then (- v)%Z else v)
  | None => None
  end.

Definition parse_int (raw : option pystr) (default : Z) : Z :=
  match raw with
  | None => default
  | Some s => match py_int s with Some v => v | None => default end
  end.

(** *** Normalisation helpers *)

(** [normalise_price] and [normalise_mileage]: a number is converted to a
    float, a text to the float of its [isdigit] characters. *)
Definition normalise_price (value : option pyval) : outcome (option Q) :=
  match value with
  | None => Returns None
  | Some (VNum q) => Returns (Some (round64 q))
  | Some (VStr s) =>
      match filter isdigit s with
      | [] => Returns None
      | digits => v <- float_of_digits digits ;; Returns (Some v)
      end
  end.

Definition normalise_mileage := normalise_price.

Fixpoint first_year_token (tokens : list pystr) : outcome (option Z) :=
  match tokens with
  | [] => Returns None
  | token :: rest =>
      if str_isdigit token && (List.length token =? 4)%nat
      then match py_int token with
           | Some year => Returns (Some year)
           | None => Raises ValueError
           end
      else first_year_token rest
  end.

Definition extract_year (raw : option pystr) : outcome (option Z) :=
  match raw with
  | None => Returns None
  | Some text => first_year_token (split_cp 45 [] (replace_cp 47 45 text))
  end.

(** What [datetime.fromisoformat] makes of a text: it rejects it, or
    parses it to a datetime without or with a time zone. *)
Inductive iso :=
| Invalid
| Naive
| Aware.

Section Formatting.

(** [datetime.utcnow()] in seconds, and the library's parser of ISO
    dates, which is not modelled. *)
Variable now : Q.
Variable fromisoformat : pystr -> iso.

(** The [age_months] block: the comparison [reg > now] of an aware
    registration date with the naive [utcnow()] is a [TypeError]. *)
Definition registration_check (raw_registration : option pystr)
  : outcome unit :=
  match raw_registration with
  | Some ((_ :: _) as raw) =>
      match fromisoformat (replace_cp 32 84 raw) with
      | Aware => Raises TypeError
      | _ => Returns tt
      end
  | _ => Returns tt
  end.

Definition format_vehicle_payload (row : Row) : outcome Payload :=
  price_value <- normalise_price (option_map VNum (price_num row)) ;;
  price_value <-
    match price_value with
    | Some _ => Returns price_value
    | None => normalise_price (option_map VStr (price row))
    end ;;
  mileage <- normalise_mileage (option_map VNum (mileage_num row)) ;;
  mileage <-
    match mileage with
    | Some _ => Returns mileage
    | None => normalise_mileage (option_map VStr (mileage_km row))
    end ;;
  year <- extract_year (first_registration_raw row) ;;
  _ <- registration_check (first_registration_raw row) ;;
  Returns
    {| p_id := vehicle_id row;
       p_price_eur := price_value;
       p_mileage_km := mileage;
       p_year := year;
       p_make := make row;
       p_model := model row;
       p_fuel_group := normalize_category (fuel_type row) FUEL_MAP;
       p_transmission_group :=
         normalize_category (transmission row) TRANSMISSION_MAP;
       p_body_group := normalize_category (body_type row) BODY_TYPE_MAP;
       p_color := color row;
       p_color_canonical := normalize_color (color row);
       p_description :=
         match description row with Some d => d | None => [] end;
       p_power_kw := option_map round64 (power_kw row);
       p_freshness_days := freshness_days_of now row;
       p_body_type := None;
       p_fuel_type := None;
       p_transmission := None |}.

(** *** The listing endpoint *)

Inductive ListingAnswer :=
| ListingFound (payload : Payload)     (* 200 *)
| ListingNotFound                      (* 404 *)
| ListingError (e : exn).              (* 500 *)

Definition listing_answer_status (a : ListingAnswer) : Z :=
  match a with
  | ListingFound _ => 200
  | ListingNotFound => 404
  | ListingError _ => 500
  end.

Definition get_vehicle_endpoint (db : list Listing) (vehicle_id : pystr)
  : ListingAnswer :=
  match fetch_vehicle db vehicle_id with
  | None => ListingNotFound
  | Some row =>
      match format_vehicle_payload (with_vehicle_id row vehicle_id) with
      | Returns payload => ListingFound payload
      | Raises e => ListingError e
      end
  end.

End Formatting.

(** *** The deal scorer *)

(** The largest float whose [math.exp] is finite
    (709.782712893384 = 0x1.62e42fefa39efp+9); [math.exp] raises
    [OverflowError] on every finite float above it. *)
Definition EXP_MAX : Q := 6243314768165359 # 8796093022208.

(** The argument [-6 * ((reference - price) / reference)] of [math.exp];
    [None] when it is an infinity, on which [math.exp] does not raise. *)
Definition exp_argument (reference price : Q) : option Q :=
  let difference := fsub reference price in
  if negb (finite difference) then None
  else
    let discount := fdiv difference reference in
    if negb (finite discount) then None
    else
      let argument := fmul (-6) discount in
      if finite argument then Some argument else None.

Definition exp_overflows (reference price : Q) : bool :=
  match exp_argument reference price with
  | Some argument => negb (Qle_bool argument EXP_MAX)
  | None => false
  end.

(** [compute_deal_score]: the two calls of [math.exp] in the order of the
    code; the returned scores are those of [Deal.compute_deal_score]. *)
Definition compute_deal_score
    (price percentile median_price target_price target_mileage
     candidate_mileage : option Q) : outcome (R * Deal.Details) :=
  let scores :=
    Deal.compute_deal_score
      (option_map Q2R price) (option_map Q2R percentile)
      (option_map Q2R median_price) (option_map Q2R target_price)
      (option_map Q2R target_mileage) (option_map Q2R candidate_mileage) in
  match price with
  | None => Returns scores
  | Some price =>
      if match positive median_price with
         | Some median_price => exp_overflows median_price price
         | None => false
         end
      then Raises OverflowError
      else if match positive target_price with
              | Some target_price => exp_overflows target_price price
              | None => false
              end
      then Raises OverflowError
      else Returns scores
  end.

(** *** Candidate retrieval *)

(** The values the prologue of [find_candidate_rows] takes from the
    target row. *)
Record Targets := mkTargets {
  target_vehicle_id : option pystr;
  target_make : option pystr;
  target_model : option pystr;
  target_body_raw : option pystr;
  target_fuel_raw : option pystr;
  target_transmission_raw : option pystr;
  target_color : option pystr;
  target_price : option Q;
  target_mileage : option Q;
  target_power : option Q
}.

Definition targets_of (target_row : Row) : outcome Targets :=
  target_price <-
    normalise_price (or_num_str (price_num target_row) (price target_row)) ;;
  target_mileage <-
    normalise_mileage
      (or_num_str (mileage_num target_row) (mileage_km target_row)) ;;
  target_power <-
    normalise_mileage (option_map VNum (power_kw target_row)) ;;
  Returns
    (mkTargets (vehicle_id target_row)
       (normalize_text (make target_row))
       (normalize_text (model target_row))
       (body_type target_row) (fuel_type target_row)
       (transmission target_row)
       (normalize_color (color target_row))
       target_price target_mileage target_power).

(** [CAST(... AS DOUBLE PRECISION)] *)
Definition to_double (x : option Q) : option Q := option_map round64 x.

(** The conjuncts of the [WHERE] clause of one attempt, in the order the
    code appends them; the bounds are the float products the code passes
    as parameters. *)
Definition build_conditions (t : Targets) (attempt : Attempt)
  : list (Listing -> bool) :=
  [ (fun l => l_is_vehicle_available l);
    (fun l => sql_ne (Some (l_vehicle_id l)) (target_vehicle_id t));
    (fun l => sql_eq (l_make l) (target_make t));
    (fun l => sql_eq (l_model l) (target_model t)) ]
  ++ (if truthy_str (target_body_raw t)
      then [fun l => sql_eq (sql_lower_trim (l_body_type l))
                            (option_map (fun s => lower (strip_accents s))
                                        (target_body_raw t))]
      else [])
  ++ (if truthy_str (target_fuel_raw t)
      then [fun l => sql_eq (sql_lower_trim (l_fuel_type l))
                            (option_map (fun s => lower (strip_accents s))
                                        (target_fuel_raw t))]
      else [])
  ++ (if truthy_str (target_transmission_raw t)
      then [fun l => sql_eq (sql_lower_trim (l_transmission l))
                            (option_map (fun s => lower (strip_accents s))
                                        (target_transmission_raw t))]
      else [])
  ++ (if truthy_str (target_color t)
      then [fun l => truthy_str (l_color l)]
      else [])
  ++ (match positive (target_mileage t) with
      | Some m =>
          let mileage_low := fmul m (fsub 1 (lit (mileage_ratio attempt))) in
          let mileage_high := fmul m (fadd 1 (lit (mileage_ratio attempt))) in
          [fun l => sql_between (to_double (NUMERIC_MILEAGE_SQL l))
                                mileage_low mileage_high]
      | None => []
      end)
  ++ (match positive (target_price t) with
      | Some p =>
          let price_low := fmul p (lit (price_min attempt)) in
          let price_high := fmul p (lit (price_max attempt)) in
          [fun l => sql_between (to_double (NUMERIC_PRICE_SQL l))
                                price_low price_high]
      | None => []
      end)
  ++ (match positive (target_power t) with
      | Some w =>
          let power_low := fmul w (fsub 1 (lit (power_ratio attempt))) in
          let power_high := fmul w (fadd 1 (lit (power_ratio attempt))) in
          [fun l => sql_between (to_double (l_power_kw l))
                                power_low power_high]
      | None => []
      end).

(** [if target_year:] *)
Definition truthy_year (target_year : option Z) : option Z :=
  match target_year with
  | Some ty => if (ty =? 0)%Z then None else Some ty
  | None => None
  end.

(** The Python-side loop over the fetched rows: colour (hard lock) and
    year (soft lock), then the strategy annotation. *)
Fixpoint filter_rows (target_color : option pystr) (target_year : option Z)
    (attempt : Attempt) (rows : list Row) : outcome (list Row) :=
  match rows with
  | [] => Returns []
  | row :: rest =>
      if truthy_str target_color
         && negb (opt_str_eqb (normalize_color (color row)) target_color)
      then filter_rows target_color target_year attempt rest
      else
        match truthy_year target_year with
        | Some ty =>
            candidate_year <- extract_year (first_registration_raw row) ;;
            match candidate_year with
            | Some cy =>
                if (year_tolerance attempt <? Z.abs (cy - ty))%Z
                then filter_rows target_color target_year attempt rest
                else
                  kept <- filter_rows target_color target_year attempt rest ;;
                  Returns (set_match_strategy (name attempt) row :: kept)
            | None => filter_rows target_color target_year attempt rest
            end
        | None =>
            kept <- filter_rows target_color target_year attempt rest ;;
            Returns (set_match_strategy (name attempt) row :: kept)
        end
  end.

(** The rows one attempt keeps: the query, then the Python-side filter. *)
Definition attempt_rows (db : list Listing) (t : Targets)
    (target_year : option Z) (options : Options) (attempt : Attempt)
  : outcome (list Row) :=
  let rows :=
    run_query db (build_conditions t attempt) (candidate_limit options) in
  filter_rows (target_color t) target_year attempt rows.

(** The [for attempt in relaxation_attempts] loop with its two pieces of
    state, [attempt_logs] and [best_result], and the code after it;
    [kept] is the body of the loop up to [filtered_rows]. *)
Fixpoint relaxation_loop (kept : Attempt -> outcome (list Row))
    (min_results : Z) (todo : list Attempt)
    (attempt_logs : list (string * nat))
    (best_result : option (list Row * string))
  : outcome (list Row * Debug) :=
  match todo with
  | attempt :: rest =>
      filtered_rows <- kept attempt ;;
      let attempt_logs :=
        attempt_logs ++ [(name attempt, List.length filtered_rows)] in
      let best_result :=
        match best_result with
        | None => Some (filtered_rows, name attempt)
        | Some (best_rows, _) =>
            if (List.length best_rows <? List.length filtered_rows)%nat
            then Some (filtered_rows, name attempt)
            else best_result
        end in
      if (min_results <=? Z.of_nat (List.length filtered_rows))%Z
      then Returns (filtered_rows,
                    mkDebug (Some (name attempt)) attempt_logs None None)
      else relaxation_loop kept min_results rest attempt_logs best_result
  | [] =>
      Returns
        match best_result with
        | Some (best_rows, best_name) =>
            if (0 <? List.length best_rows)%nat
            then (best_rows,
                  mkDebug (Some best_name) attempt_logs
                          (Some (List.length best_rows, min_results)) None)
            else ([], mkDebug None attempt_logs None (Some NoCandidates))
        | None => ([], mkDebug None attempt_logs None (Some NoCandidates))
        end
  end.

Definition find_candidate_rows (db : list Listing) (target_row : Row)
    (target_year : option Z) (options : Options)
  : outcome (list Row * Debug) :=
  t <- targets_of target_row ;;
  match target_make t, target_model t with
  | Some _, Some _ =>
      relaxation_loop (attempt_rows db t target_year options)
                      (min_results options) relaxation_attempts [] None
  | _, _ => Returns ([], mkDebug None [] None (Some MissingMakeModel))
  end.

(** *** The comparables endpoint *)

(** [top = max(1, min(int(top_param), 50))]; [None] is the [ValueError]
    branch, answered with status 400. *)
Definition parse_top (top_param : option pystr) : option Z :=
  let top_param :=
    match top_param with Some s => s | None => utf8 "10" end in
  match py_int top_param with
  | Some v => Some (Z.max 1 (Z.min v 50))
  | None => None
  end.

Inductive Answer :=
| Answered (r : Response)
| ServerError (e : exn).      (* 500 *)

Definition answer_status (a : Answer) : Z :=
  match a with
  | Answered r => status r
  | ServerError _ => 500
  end.

Section Endpoint.

(** [datetime.utcnow()], the ISO parser, the environment variable
    [CANDIDATE_LIMIT] ([None] when unset) and the scoring loop of
    [score_candidates], which may raise. *)
Variable now : Q.
Variable fromisoformat : pystr -> iso.
Variable CANDIDATE_LIMIT : option pystr.
Variable scoring_loop
  : Payload -> list Row -> ToleranceConfig -> outcome (list Scored).

Definition score_candidates (target_payload : Payload)
    (candidates : list Row) (tolerances : ToleranceConfig)
  : outcome (list Scored) :=
  scored_payloads <- scoring_loop target_payload candidates tolerances ;;
  Returns (rank_scored scored_payloads).

(** [int(os.getenv("CANDIDATE_LIMIT", "400"))] *)
Definition env_candidate_limit : outcome Z :=
  match py_int (match CANDIDATE_LIMIT with
                | Some s => s
                | None => utf8 "400"
                end) with
  | Some v => Returns v
  | None => Raises ValueError
  end.

(** The handler after the target row is fetched. *)
Definition comparables_of (db : list Listing) (vehicle_id : pystr)
    (args : Args) (top : Z) (target_row : Row) : outcome Response :=
  target_payload <-
    format_vehicle_payload now fromisoformat
      (with_vehicle_id target_row vehicle_id) ;;
  let target_year := p_year target_payload in
  let year_tolerance_years :=
    Z.max 0 (parse_int (arg_year_variance args) 2) in
  let mileage_ratio :=
    parse_float (arg_mileage_variance_multiplier args) 2 in
  let mileage_min_window :=
    parse_float (arg_mileage_min_window args) 5000 in
  let power_variance_ratio :=
    parse_float (arg_power_variance_pct args) (lit (15 # 100)) in
  let power_min_window :=
    parse_float (arg_power_min_window args) 15 in
  default_limit <- env_candidate_limit ;;
  let candidate_limit :=
    Z.max 50 (parse_int (arg_max_candidates args) default_limit) in
  let balance := parse_float (arg_balance args) 0 in
  let '(alpha_weight, beta_weight) := rank_weights balance in
  let freshness_weight := lit (10 # 100) in
  let trust_weight := lit (5 # 100) in
  let candidate_options :=
    mkOptions (Z.to_nat candidate_limit) (Z.max top 5) in
  found <- find_candidate_rows db target_row target_year candidate_options ;;
  let '(candidates_raw, candidate_debug) := found in
  match candidates_raw with
  | [] => Returns (NoComparables candidate_debug)
  | _ :: _ =>
      let tolerance_config :=
        mkToleranceConfig year_tolerance_years mileage_ratio
          mileage_min_window power_variance_ratio power_min_window
          alpha_weight beta_weight freshness_weight trust_weight in
      scored <-
        score_candidates target_payload candidates_raw tolerance_config ;;
      let comparables := firstn (Z.to_nat top) scored in
      Returns
        (Ok comparables
            (mkMetadata top (List.length comparables)
               (List.length scored) (List.length candidates_raw)
               (selected_attempt candidate_debug)
               (List.length (attempts candidate_debug))
               (alpha_weight, beta_weight, freshness_weight, trust_weight)
               (warning candidate_debug)))
  end.

Definition comparables_endpoint (db : list Listing) (vehicle_id : pystr)
    (args : Args) : Answer :=
  match parse_top (arg_top args) with
  | None => Answered InvalidTop
  | Some top =>
      match fetch_vehicle db vehicle_id with
      | None => Answered VehicleNotFound
      | Some target_row =>
          match comparables_of db vehicle_id args top target_row with
          | Returns r => Answered r
          | Raises e => ServerError e
          end
      end
  end.

End Endpoint.

End Impl.

(* ------------------------------------------------------------------ *)
(** ** Facts about strings *)
(* ------------------------------------------------------------------ *)

Import PyStr Normalize Props.

Lemma eqb_eq (a b : pystr) : eqb a b = true <-> a = b.
Proof.
  revert b; induction a as [|x a IH]; intros [|y b]; simpl;
    try (split; [discriminate | discriminate]); try tauto.
  rewrite andb_true_iff, N.eqb_eq, IH.
  split; [intros [-> ->]; reflexivity | intros H; inversion H; auto].
Qed.

Lemma eqb_refl (a : pystr) : eqb a a = true.
Proof. apply eqb_eq; reflexivity. Qed.

Lemma in_upto (n : nat) (start c : N) :
  (start <= c < start + N.of_nat n)%N -> In c (upto n start).
Proof.
  revert start; induction n as [|n IH]; intros start H; simpl.
  - lia.
  - destruct (N.eq_dec start c) as [-> | Hne]; [left; reflexivity | right].
    apply IH. lia.
Qed.

Lemma cp_closed_low : forallb cp_closed (upto (N.to_nat 12289) 0) = true.
Proof. vm_compute. reflexivity. Qed.

Lemma cp_closed_all (c : N) : cp_closed c = true.
Proof.
  destruct (N.le_gt_cases c 12288) as [Hle | Hgt].
  - pose proof cp_closed_low as H.
    rewrite forallb_forall in H. apply H.
    apply in_upto. rewrite N2Nat.id. lia.
  - unfold cp_closed, nfkd_base.
    assert (H1 : (c <? 128)%N = false) by (apply N.ltb_ge; lia).
    assert (H2 : (12288 <? c)%N = true) by (apply N.ltb_lt; lia).
    rewrite H1, H2. simpl.
    assert (H3 : lower_cp c = c).
    { unfold lower_cp, in_range.
      replace (c <=? 90)%N with false by (symmetry; apply N.leb_gt; lia).
      replace (c <=? 222)%N with false by (symmetry; apply N.leb_gt; lia).
      rewrite !andb_false_r. reflexivity. }
    rewrite !H3, H1, H2. simpl. rewrite N.eqb_refl. reflexivity.
Qed.

Lemma lower_base_stable (c d : N) :
  In d (nfkd_base c) -> stable (lower_cp d).
Proof.
  intros Hin. pose proof (cp_closed_all c) as H.
  unfold cp_closed in H. rewrite forallb_forall in H.
  specialize (H d Hin). simpl in H.
  apply andb_true_iff in H. destruct H as [H1 H2].
  split; [apply eqb_eq; exact H1 | apply N.eqb_eq; exact H2].
Qed.

Lemma stable_space : stable 32.
Proof. split; reflexivity. Qed.

Lemma lower_strip_accents_stable (t : pystr) :
  Forall stable (lower (strip_accents t)).
Proof.
  unfold lower, strip_accents. apply Forall_forall. intros e He.
  apply in_map_iff in He. destruct He as [d [<- Hd]].
  apply in_flat_map in Hd. destruct Hd as [c [_ Hc]].
  eapply lower_base_stable; eassumption.
Qed.

Lemma lower_strip_accents_fixed (l : pystr) :
  Forall stable l -> lower (strip_accents l) = l.
Proof.
  induction 1 as [|c l [Hn Hl] _ IH]; [reflexivity|].
  unfold lower, strip_accents in *. simpl. rewrite Hn. simpl.
  rewrite Hl, IH. reflexivity.
Qed.

Section Preservation.

Variable P : N -> Prop.
Hypothesis P_space : P 32.

Lemma Forall_replace_dash (s : pystr) :
  Forall P s -> Forall P (replace_cp 45 32 s).
Proof.
  unfold replace_cp. induction 1 as [|c s Hc _ IH]; simpl; constructor; auto.
  destruct (c =? 45)%N; assumption.
Qed.

Lemma Forall_sub_ws (b : bool) (s : pystr) :
  Forall P s -> Forall P (sub_ws b s).
Proof.
  intros H; revert b; induction H as [|c s Hc _ IH]; intros b; simpl.
  - constructor.
  - destruct (is_space c); [destruct b|]; auto.
Qed.

End Preservation.

Lemma Forall_lstrip (P : N -> Prop) (s : pystr) :
  Forall P s -> Forall P (lstrip s).
Proof.
  induction 1 as [|c s Hc Hs IH]; simpl; [constructor|].
  destruct (is_space c); auto.
Qed.

Lemma Forall_rstrip (P : N -> Prop) (s : pystr) :
  Forall P s -> Forall P (rstrip s).
Proof.
  induction 1 as [|c s Hc Hs IH]; simpl; [constructor|].
  destruct (rstrip s) as [|d t'].
  - destruct (is_space c); auto.
  - auto.
Qed.

Lemma Forall_strip (P : N -> Prop) (s : pystr) :
  Forall P s -> Forall P (strip s).
Proof. intros H. apply Forall_rstrip, Forall_lstrip, H. Qed.

Lemma no_dash_after_replace (s : pystr) :
  Forall (fun c => c <> 45%N) (replace_cp 45 32 s).
Proof.
  unfold replace_cp. induction s as [|c s IH]; simpl; constructor; auto.
  destruct (N.eqb_spec c 45); [discriminate | assumption].
Qed.

Lemma replace_dash_fixed (s : pystr) :
  Forall (fun c => c <> 45%N) s -> replace_cp 45 32 s = s.
Proof.
  unfold replace_cp. induction 1 as [|c s Hc _ IH]; simpl; [reflexivity|].
  rewrite IH. destruct (N.eqb_spec c 45); [contradiction | reflexivity].
Qed.

(** *** Whitespace runs *)

Lemma sub_ws_ok (b : bool) (s : pystr) : ws_ok b (sub_ws b s) = true.
Proof.
  revert b; induction s as [|c s IH]; intros b; simpl; [reflexivity|].
  destruct (is_space c) eqn:Hc.
  - destruct b; [apply IH|]. simpl. apply IH.
  - simpl. rewrite Hc. apply IH.
Qed.

Lemma ws_ok_fixed (b : bool) (s : pystr) :
  ws_ok b s = true -> sub_ws b s = s.
Proof.
  revert b; induction s as [|c s IH]; intros b; simpl; [reflexivity|].
  destruct (is_space c) eqn:Hc; intros H.
  - apply andb_true_iff in H. destruct H as [H Ht].
    apply andb_true_iff in H. destruct H as [Hc32 Hb].
    apply N.eqb_eq in Hc32. destruct b; [discriminate|].
    rewrite (IH true Ht). subst c. reflexivity.
  - rewrite (IH false H). reflexivity.
Qed.

Lemma ws_ok_lstrip (b : bool) (s : pystr) :
  ws_ok b s = true -> ws_ok false (lstrip s) = true.
Proof.
  revert b; induction s as [|c s IH]; intros b; simpl; [reflexivity|].
  destruct (is_space c) eqn:Hc; intros H.
  - apply andb_true_iff in H. destruct H as [_ Ht]. apply (IH true Ht).
  - simpl. rewrite Hc. exact H.
Qed.

Lemma ws_ok_rstrip (b : bool) (s : pystr) :
  ws_ok b s = true -> ws_ok b (rstrip s) = true.
Proof.
  revert b; induction s as [|c s IH]; intros b; simpl; [reflexivity|].
  destruct (is_space c) eqn:Hc; intros H.
  - apply andb_true_iff in H. destruct H as [H Ht].
    specialize (IH true Ht).
    destruct (rstrip s) as [|d t']; [reflexivity|].
    simpl. rewrite Hc. simpl in IH. rewrite H. exact IH.
  - specialize (IH false H).
    destruct (rstrip s) as [|d t']; simpl; rewrite Hc; [reflexivity|].
    exact IH.
Qed.

(** *** [strip] is idempotent *)

Lemma no_lead_lstrip (s : pystr) : no_lead (lstrip s).
Proof.
  induction s as [|c s IH]; simpl; [exact I|].
  destruct (is_space c) eqn:Hc; [exact IH | simpl; exact Hc].
Qed.

Lemma no_lead_fixed (s : pystr) : no_lead s -> lstrip s = s.
Proof. destruct s as [|c s]; simpl; [reflexivity | intros ->; reflexivity]. Qed.

Lemma no_lead_rstrip (s : pystr) : no_lead s -> no_lead (rstrip s).
Proof.
  destruct s as [|c s]; simpl; [auto|]. intros Hc.
  destruct (rstrip s); rewrite ?Hc; simpl; exact Hc.
Qed.

Lemma rstrip_idem (s : pystr) : rstrip (rstrip s) = rstrip s.
Proof.
  induction s as [|c s IH]; simpl; [reflexivity|].
  destruct (rstrip s) as [|d t'] eqn:Hr.
  - destruct (is_space c) eqn:Hc; simpl; rewrite ?Hc; reflexivity.
  - change (rstrip (c :: d :: t')) with
      (match rstrip (d :: t') with
       | [] => if is_space c then [] else [c]
       | x :: r => c :: x :: r
       end).
    rewrite IH. reflexivity.
Qed.

Lemma strip_idem (s : pystr) : strip (strip s) = strip s.
Proof.
  unfold strip.
  rewrite (no_lead_fixed (rstrip (lstrip s))).
  - apply rstrip_idem.
  - apply no_lead_rstrip, no_lead_lstrip.
Qed.

(** *** The cleaned text is a fixed point of every cleaning step *)

Lemma clean_color_strip (t : pystr) : strip (clean_color t) = clean_color t.
Proof. unfold clean_color. apply strip_idem. Qed.

Lemma clean_color_idem (t : pystr) :
  clean_color (clean_color t) = clean_color t.
Proof.
  set (l := clean_color t).
  assert (Hst : Forall stable l).
  { unfold l, clean_color. apply Forall_strip.
    apply Forall_sub_ws; [exact stable_space|].
    apply Forall_replace_dash; [exact stable_space|].
    apply lower_strip_accents_stable. }
  assert (Hnd : Forall (fun c => c <> 45%N) l).
  { unfold l, clean_color. apply Forall_strip.
    apply Forall_sub_ws; [discriminate|]. apply no_dash_after_replace. }
  assert (Hws : ws_ok false l = true).
  { unfold l, clean_color, strip.
    apply ws_ok_rstrip. eapply ws_ok_lstrip. apply sub_ws_ok. }
  unfold clean_color at 1.
  rewrite (lower_strip_accents_fixed l Hst), (replace_dash_fixed l Hnd),
    (ws_ok_fixed false l Hws).
  apply clean_color_strip.
Qed.

(* ------------------------------------------------------------------ *)
(** ** [normalize_color] *)
(* ------------------------------------------------------------------ *)

Lemma normalize_color_unfold (x : option pystr) :
  normalize_color x =
  match normalize_text x with
  | None => None
  | Some text => Some (color_of_lowered (clean_color text))
  end.
Proof.
  unfold normalize_color, color_of_lowered, clean_color.
  destruct (normalize_text x) as [text|]; [|reflexivity].
  destruct (dict_get _ _); [reflexivity|].
  destruct (first_part_hit _); [reflexivity|].
  destruct (keyword_hit _ _); reflexivity.
Qed.

Lemma normalize_text_fixed (l : pystr) :
  strip l = l -> l <> [] -> normalize_text (Some l) = Some l.
Proof.
  intros Hs Hne. unfold normalize_text. rewrite Hs.
  destruct l; [contradiction | reflexivity].
Qed.

Lemma dict_get_range (d : dict) (k c : pystr) :
  dict_get d k = Some c -> In c (map snd d).
Proof.
  induction d as [|[k' v] d IH]; simpl; [discriminate|].
  destruct (eqb k k'); [intros [= ->]; left; reflexivity | auto].
Qed.

Lemma first_part_hit_range (parts : list pystr) (c : pystr) :
  first_part_hit parts = Some c -> In c (map snd COLOR_CANONICAL_MAP).
Proof.
  induction parts as [|part rest IH]; [discriminate|].
  cbn [first_part_hit].
  destruct (strip part) as [|a p]; [exact IH|].
  destruct (dict_get COLOR_CANONICAL_MAP (a :: p)) as [v|] eqn:Hg; [|exact IH].
  intros [= <-]. eapply dict_get_range; eassumption.
Qed.

Lemma keyword_hit_range (m : list (pystr * list pystr)) (l c : pystr) :
  keyword_hit m l = Some c -> In c (map fst m).
Proof.
  induction m as [|[canonical keywords] m IH]; simpl; [discriminate|].
  destruct (existsb _ keywords); [intros [= ->]; left; reflexivity | auto].
Qed.

Lemma color_of_lowered_cases (l : pystr) :
  In (color_of_lowered l) lookup_colours \/ color_of_lowered l = l.
Proof.
  unfold color_of_lowered, lookup_colours.
  destruct (dict_get COLOR_CANONICAL_MAP l) as [c|] eqn:H1.
  { left. apply in_or_app. left. eapply dict_get_range; eassumption. }
  destruct (first_part_hit _) as [c|] eqn:H2.
  { left. apply in_or_app. left. eapply first_part_hit_range; eassumption. }
  destruct (keyword_hit _ _) as [c|] eqn:H3.
  { left. apply in_or_app. right. eapply keyword_hit_range; eassumption. }
  right. reflexivity.
Qed.

Lemma lookup_colours_canonical :
  forallb (fun c => existsb (eqb c) canonical_colours) lookup_colours = true.
Proof. vm_compute. reflexivity. Qed.

Lemma lookup_colours_fixed : forallb is_fixed_colour lookup_colours = true.
Proof. vm_compute. reflexivity. Qed.

Lemma lookup_colour_fixed (c : pystr) :
  In c lookup_colours -> normalize_color (Some c) = Some c.
Proof.
  intros Hin. pose proof lookup_colours_fixed as H.
  rewrite forallb_forall in H. specialize (H c Hin).
  unfold is_fixed_colour in H.
  destruct (normalize_color (Some c)) as [r|]; [|discriminate].
  apply eqb_eq in H. subst r. reflexivity.
Qed.

Lemma normalize_color_output_fixed (x : option pystr) (y : pystr) :
  normalize_color x = Some y -> y <> [] -> normalize_color (Some y) = Some y.
Proof.
  rewrite normalize_color_unfold.
  destruct (normalize_text x) as [text|]; [|discriminate].
  intros [= <-] Hne.
  destruct (color_of_lowered_cases (clean_color text)) as [Hin | Heq].
  - apply lookup_colour_fixed, Hin.
  - rewrite Heq in *. rewrite normalize_color_unfold.
    rewrite (normalize_text_fixed _ (clean_color_strip text) Hne).
    rewrite clean_color_idem, Heq. reflexivity.
Qed.

(** Away from the empty literal [normalize_color] is idempotent: when the
    normalised colour of [x] is not the empty string, applying the function
    to its own output (null, a canonical colour or a non-empty lowercased
    literal) returns that output. *)
Lemma normalize_color_idempotent_nonempty (x : option pystr) :
  normalize_color x <> Some [] ->
  normalize_color (normalize_color x) = normalize_color x.
Proof.
  intros Hne. destruct (normalize_color x) as [y|] eqn:Hx.
  - apply (normalize_color_output_fixed x y Hx). intros ->. apply Hne.
    reflexivity.
  - reflexivity.
Qed.

(** C10.  Idempotence of [normalize_color] fails at the input "-": the
    text is not empty, so the guard for empty text lets it through; the
    hyphen replacement and the whitespace collapse then leave the empty
    string, which is returned as the literal fallback; the empty string is
    in turn normalised to null. *)
Lemma normalize_color_not_idempotent :
  normalize_color (Some (utf8 "-")) = Some []
  /\ normalize_color (normalize_color (Some (utf8 "-"))) = None
  /\ normalize_color (normalize_color (Some (utf8 "-")))
     <> normalize_color (Some (utf8 "-")).
Proof. vm_compute. repeat split. discriminate. Qed.

(* ------------------------------------------------------------------ *)
(** ** Categorical similarity *)
(* ------------------------------------------------------------------ *)

Section Categorical.
Import Payloads Similarity SimilarityProps.


Lemma mm_score_rule (target candidate : Payload) :
  make_model_rule target candidate (mm_score_of target candidate).
Proof.
  unfold make_model_rule, mm_score_of.
  destruct (norm_value (p_make target)) as [tm|];
    destruct (norm_value (p_model target)) as [tmod|];
    destruct (norm_value (p_make candidate)) as [cm|];
    destruct (norm_value (p_model candidate)) as [cmod|];
    (split; [ intros H; try reflexivity;
              destruct H as [H | [H | [H | H]]]; discriminate
            | intros H1 H2 H3 H4; try congruence ]).
  split.
  - intros [[= ->] [= ->]]. rewrite !eqb_refl. reflexivity.
  - intros Hne.
    destruct (eqb tm cm) eqn:E1; [|reflexivity].
    destruct (eqb tmod cmod) eqn:E2; [|reflexivity].
    apply eqb_eq in E1, E2. subst. exfalso. apply Hne. split; reflexivity.
Qed.

End Categorical.

(* ------------------------------------------------------------------ *)
(** ** The ranking weights of the request handler *)
(* ------------------------------------------------------------------ *)

Section RankWeights.
Import Handler.
Local Open Scope Q_scope.

Lemma rank_weights_closed_form (b : Q) :
  -1 <= b -> b <= 1 ->
  let alpha := fst (rank_weights b) in
  let beta := snd (rank_weights b) in
  (b <= 3 # 4 ->
     alpha == (55 # 100) + b * (2 # 10) /\ beta == (30 # 100) - b * (2 # 10))
  /\ (3 # 4 < b ->
     alpha * ((70 # 100) + b * (2 # 10))
       == (85 # 100) * ((55 # 100) + b * (2 # 10))
     /\ beta * ((70 # 100) + b * (2 # 10)) == (85 # 100) * (15 # 100)).
Proof.
  intros Hlo Hhi. unfold rank_weights.
  set (bal := Qmax (-1) (Qmin 1 b)).
  assert (Hbal : bal == b).
  { unfold bal.
    destruct (Q.min_spec 1 b) as [[? Hm] | [? Hm]];
      destruct (Q.max_spec (-1) (Qmin 1 b)) as [[? HM] | [? HM]]; lra. }
  set (ar := Qmax (15 # 100) ((55 # 100) + bal * (2 # 10))).
  assert (Har : ar == (55 # 100) + b * (2 # 10)).
  { unfold ar.
    destruct (Q.max_spec (15 # 100) ((55 # 100) + bal * (2 # 10)))
      as [[? HM] | [? HM]]; lra. }
  set (br := Qmax (15 # 100) ((30 # 100) - bal * (2 # 10))).
  assert (Hbr : (b <= 3 # 4 -> br == (30 # 100) - b * (2 # 10))
                /\ (3 # 4 < b -> br == 15 # 100)).
  { unfold br.
    destruct (Q.max_spec (15 # 100) ((30 # 100) - bal * (2 # 10)))
      as [[? HM] | [? HM]]; split; intros; lra. }
  assert (Hbr15 : 15 # 100 <= br) by (unfold br; apply Q.le_max_l).
  assert (Hbr50 : br <= 50 # 100).
  { destruct (Qlt_le_dec (3 # 4) b) as [H | H];
      [apply (proj2 Hbr) in H | apply (proj1 Hbr) in H]; lra. }
  destruct (Qle_bool (ar + br) 0) eqn:E.
  { apply Qle_bool_iff in E. lra. }
  clear E. cbv zeta beta iota.
  set (s := (85 # 100) / (ar + br)).
  assert (Hs : s * (ar + br) == 85 # 100) by (unfold s; field; lra).
  assert (Hspos : 0 < s) by nra.
  assert (Hs1 : s <= 1) by nra.
  assert (Hs2 : 17 # 18 <= s) by nra.
  assert (Hsum : ar * s + br * s == 85 # 100) by lra.
  assert (Hbs : (15 # 100) * (17 # 18) <= br * s) by nra.
  assert (Has : (35 # 100) * (17 # 18) <= ar * s) by nra.
  cbn [fst snd].
  set (aw := Qmax (1 # 10) (Qmin (85 # 100) (ar * s))).
  set (bw := Qmax (1 # 10) (Qmin (85 # 100) (br * s))).
  assert (Haw : aw == ar * s).
  { unfold aw.
    destruct (Q.min_spec (85 # 100) (ar * s)) as [[? Hm] | [? Hm]];
      destruct (Q.max_spec (1 # 10) (Qmin (85 # 100) (ar * s)))
        as [[? HM] | [? HM]]; lra. }
  assert (Hbw : bw == br * s).
  { unfold bw.
    destruct (Q.min_spec (85 # 100) (br * s)) as [[? Hm] | [? Hm]];
      destruct (Q.max_spec (1 # 10) (Qmin (85 # 100) (br * s)))
        as [[? HM] | [? HM]]; lra. }
  split; intros Hb.
  - apply (proj1 Hbr) in Hb. assert (s == 1) by nra. split; nra.
  - apply (proj2 Hbr) in Hb. split; nra.
Qed.

(** With exact arithmetic, for balances [b <= b'] in [-1, 1]: alpha +
    beta is 0.85, alpha stays within [0.15, 0.85] and beta within [0.10,
    0.85]; beta is at least 0.15 exactly when the balance is at most 0.75;
    alpha does not decrease and beta does not increase with the balance,
    strictly so when [b < b']. *)
Lemma rank_weights_exact (b b' : Q) :
  -1 <= b -> b <= b' -> b' <= 1 ->
  let alpha := fst (rank_weights b) in
  let beta := snd (rank_weights b) in
  let alpha' := fst (rank_weights b') in
  let beta' := snd (rank_weights b') in
  alpha + beta == 85 # 100
  /\ alpha' + beta' == 85 # 100
  /\ (15 # 100 <= alpha /\ alpha <= 85 # 100)
  /\ (15 # 100 <= alpha' /\ alpha' <= 85 # 100)
  /\ (1 # 10 <= beta /\ beta <= 85 # 100)
  /\ (1 # 10 <= beta' /\ beta' <= 85 # 100)
  /\ (15 # 100 <= beta <-> b <= 3 # 4)
  /\ (15 # 100 <= beta' <-> b' <= 3 # 4)
  /\ alpha <= alpha' /\ beta' <= beta
  /\ (b < b' -> alpha < alpha' /\ beta' < beta).
Proof.
  intros Hlo Hle Hhi.
  assert (Hhi1 : b <= 1) by lra. assert (Hlo2 : -1 <= b') by lra.
  pose proof (rank_weights_closed_form b Hlo Hhi1) as [L1 G1].
  pose proof (rank_weights_closed_form b' Hlo2 Hhi) as [L2 G2].
  cbv zeta in *.
  set (alpha := fst (rank_weights b)) in *.
  set (beta := snd (rank_weights b)) in *.
  set (alpha' := fst (rank_weights b')) in *.
  set (beta' := snd (rank_weights b')) in *.
  destruct (Qlt_le_dec (3 # 4) b) as [Hb | Hb];
    destruct (Qlt_le_dec (3 # 4) b') as [Hb' | Hb'];
    [ destruct (G1 Hb) as [A1 B1]; destruct (G2 Hb') as [A2 B2]
    | exfalso; lra
    | destruct (L1 Hb) as [A1 B1]; destruct (G2 Hb') as [A2 B2]
    | destruct (L1 Hb) as [A1 B1]; destruct (L2 Hb') as [A2 B2] ];
    clear L1 G1 L2 G2.
  - assert (0 < beta) by nra. assert (0 < beta') by nra.
    assert (beta < 15 # 100) by nra. assert (beta' < 15 # 100) by nra.
    assert (17 # 120 <= beta) by nra. assert (17 # 120 <= beta') by nra.
    assert (alpha + beta == 85 # 100) by nra.
    assert (alpha' + beta' == 85 # 100) by nra.
    assert (beta' <= beta) by nra.
    assert (Hstrict : b < b' -> beta' < beta) by (intros; nra).
    assert (b < b' -> alpha < alpha')
      by (intros Hlt; specialize (Hstrict Hlt); lra).
    repeat split; try lra; intros; try lra; auto.
  - assert (0 < beta') by nra.
    assert (beta' < 15 # 100) by nra. assert (17 # 120 <= beta') by nra.
    assert (alpha' + beta' == 85 # 100) by nra.
    repeat split; try lra; intros; lra.
  - repeat split; try lra; intros; lra.
Qed.

(** C6 (as stated) fails at balance 1: the handler computes
    beta = 0.14166666666666666, below 0.15 (17/120 before rounding). *)
Lemma rank_weights_beta_below_floor :
  -1 <= 1 /\ 1 <= 1
  /\ snd (Impl.rank_weights 1) = 2552039788843281 # 18014398509481984
  /\ ~ (15 # 100 <= snd (Impl.rank_weights 1))
  /\ Qred (snd (rank_weights 1)) = 17 # 120.
Proof.
  split; [lra|]. split; [lra|]. split; [vm_compute; reflexivity|]. split.
  - intros H. apply Qle_bool_iff in H. vm_compute in H. discriminate.
  - vm_compute. reflexivity.
Qed.

End RankWeights.

(* ------------------------------------------------------------------ *)
(** ** The comparables endpoint: [top] and the missing make or model *)
(* ------------------------------------------------------------------ *)

Section EndpointFacts.
Import Store Retrieval Payloads Ranking Handler Samples.

Variable now : Q.
Variable scoring_loop : Payload -> list Row -> ToleranceConfig -> list Scored.

Lemma parse_top_range (p : option pystr) (top : Z) :
  parse_top p = Some top -> (1 <= top <= 50)%Z.
Proof.
  unfold parse_top. destruct (py_int _) as [v|]; [|discriminate].
  intros [= <-]. lia.
Qed.

Lemma endpoint_status_400 (db : list Listing) (id : pystr) (args : Args) :
  status (comparables_endpoint now scoring_loop db id args) = 400%Z
  <-> parse_top (arg_top args) = None.
Proof.
  unfold comparables_endpoint.
  destruct (parse_top (arg_top args)) as [top|]; [|simpl; tauto].
  split; [|discriminate]. intros H. exfalso. revert H.
  destruct (fetch_vehicle db id) as [row|]; [|simpl; discriminate].
  destruct (rank_weights _) as [a b].
  destruct (find_candidate_rows _ _ _ _) as [[|r rows] dbg]; simpl;
    discriminate.
Qed.

(** C7 (as amended).  [top=0] is clamped to 1 and [top=51] to 50; every
    [top] that parses as an integer is clamped into 1..50, and the request
    is answered with status 400 exactly when [top] does not parse. *)
Theorem comparables_top_clamped (db : list Listing) (id : pystr)
    (args : Args) :
  parse_top (Some (utf8 "0")) = Some 1%Z
  /\ parse_top (Some (utf8 "51")) = Some 50%Z
  /\ (forall top, parse_top (arg_top args) = Some top -> (1 <= top <= 50)%Z)
  /\ (status (comparables_endpoint now scoring_loop db id args) = 400%Z
      <-> parse_top (arg_top args) = None).
Proof.
  split; [reflexivity|]. split; [reflexivity|]. split.
  - intros top. apply parse_top_range.
  - apply endpoint_status_400.
Qed.


End EndpointFacts.

Section EndpointInstances.
Import Store Retrieval Payloads Ranking Handler Samples.


(** C7 (as stated) fails: a request with [top=0] for the sample target is
    answered with status 200 and one comparable, not with 400. *)
Lemma top_zero_is_not_400 :
  match comparables_endpoint 0 flat_scoring sample_db (utf8 "t")
                             (request (Some "0"%string)) with
  | Ok comparables metadata =>
      requested_top metadata = 1%Z /\ List.length comparables = 1%nat
  | _ => False
  end
  /\ status (comparables_endpoint 0 flat_scoring sample_db (utf8 "t")
                                  (request (Some "0"%string))) <> 400%Z.
Proof. vm_compute. split; [split; reflexivity | discriminate]. Qed.


End EndpointInstances.

(* ------------------------------------------------------------------ *)
(** ** Freshness *)
(* ------------------------------------------------------------------ *)

Section Freshness.
Import Store Payloads Ranking.

(** The decayed score of a known freshness lies in (0, 1]. *)
Lemma freshness_decay_bounds (d : Q) :
  (0 <= d)%Q -> (0 < exp (- Q2R d / 30) <= 1)%R.
Proof.
  intros Hd. split; [apply exp_pos|].
  apply Qle_Rle in Hd. rewrite RMicromega.Q2R_0 in Hd.
  rewrite <- exp_0.
  destruct (Req_dec (Q2R d) 0) as [E | E].
  - rewrite E. right. f_equal. lra.
  - left. apply exp_increasing. lra.
Qed.

End Freshness.

(* ------------------------------------------------------------------ *)
(** ** The deal scorer *)
(* ------------------------------------------------------------------ *)

Section DealScore.
Import Deal.
Local Open Scope R_scope.

Lemma sigmoid_bounds (x : R) : 0 < 1 / (1 + exp x) < 1.
Proof.
  pose proof (exp_pos x) as Hx.
  split.
  - apply Rdiv_lt_0_compat; lra.
  - apply Rmult_lt_reg_r with (1 + exp x); [lra|].
    unfold Rdiv. rewrite Rmult_assoc, Rinv_l by lra. lra.
Qed.

Lemma clamp_bounds (x : R) : 0 <= Rmax 0 (Rmin 1 x) <= 1.
Proof.
  split; [apply Rmax_l|].
  apply Rmax_lub; [lra | apply Rmin_l].
Qed.

Lemma capped_share_bounds (x : R) : 0 <= x -> 0 <= Rmin (x / (15 / 10)) 1 <= 1.
Proof.
  intros Hx. split; [|apply Rmin_r].
  apply Rmin_glb; [|lra].
  apply Rmult_le_pos; [exact Hx|].
  left. apply Rinv_0_lt_compat. lra.
Qed.

(** The mileage adjustment moves the comparable score down by at most
    0.25 and up by at most 0.15. *)
Lemma mileage_adjustment_bounds (comps r : R) :
  let adjusted :=
    if Rlt_dec 0 r
    then comps - Rmin (r / (15 / 10)) 1 * (25 / 100)
    else comps + Rmin (Rabs r / (15 / 10)) 1 * (15 / 100) in
  comps - 25 / 100 <= adjusted <= comps + 15 / 100.
Proof.
  cbv zeta. destruct (Rlt_dec 0 r) as [Hr | Hr].
  - pose proof (capped_share_bounds r (Rlt_le _ _ Hr)). nra.
  - pose proof (capped_share_bounds (Rabs r) (Rabs_pos r)). nra.
Qed.

(** The scores of [Deal.compute_deal_score].  Before the mileage
    adjustment the comparable score lies in [0, 1], and it stays there
    when no adjustment applies; after the adjustment (minus at most 0.25,
    plus at most 0.15) it lies in [-0.25, 1.15].  The hedonic score lies in
    [0, 1] when the target price is positive and otherwise equals the
    comparable score.  The deal score itself is clamped to [0, 1]. *)
Lemma deal_scores_real_bounds
    (price percentile median_price target_price target_mileage
     candidate_mileage : option R) :
  let result :=
    compute_deal_score price percentile median_price target_price
                       target_mileage candidate_mileage in
  let details := snd result in
  - (25 / 100) <= comparable details <= 115 / 100
  /\ - (25 / 100) <= hedonic details <= 115 / 100
  /\ (mileage_ratio details = None -> 0 <= comparable details <= 1)
  /\ (positive target_price <> None -> 0 <= hedonic details <= 1)
  /\ (positive target_price = None -> hedonic details = comparable details)
  /\ 0 <= fst result <= 1.
Proof.
  cbv zeta. unfold compute_deal_score.
  destruct price as [price|]; cbn [fst snd comparable hedonic mileage_ratio];
    [| repeat split; intros; lra ].
  set (base :=
         match
           match positive median_price with
           | Some m => Some ((m - price) / m)
           | None => None
           end
         with
         | Some d => 1 / (1 + exp (- 6 * d))
         | None =>
             match percentile with
             | Some pct => Rmax 0 (Rmin 1 (1 - pct))
             | None => 5 / 10
             end
         end).
  assert (Hbase : 0 <= base <= 1).
  { unfold base. destruct (positive median_price) as [m|].
    - pose proof (sigmoid_bounds (- 6 * ((m - price) / m))). lra.
    - destruct percentile as [pct|]; [apply clamp_bounds | lra]. }
  set (ratio :=
         match truthy target_mileage, truthy candidate_mileage with
         | Some t, Some c => Some ((c - t) / Rmax t 1)
         | _, _ => None
         end).
  set (comps :=
         match ratio with
         | Some r =>
             if Rlt_dec 0 r
             then base - Rmin (r / (15 / 10)) 1 * (25 / 100)
             else base + Rmin (Rabs r / (15 / 10)) 1 * (15 / 100)
         | None => base
         end).
  assert (Hcomps : - (25 / 100) <= comps <= 115 / 100).
  { unfold comps. destruct ratio as [r|]; [|lra].
    pose proof (mileage_adjustment_bounds base r) as H. cbv zeta in H. lra. }
  assert (Hnone : ratio = None -> 0 <= comps <= 1).
  { unfold comps. intros ->. exact Hbase. }
  split; [exact Hcomps|].
  destruct (positive target_price) as [tp|].
  - pose proof (sigmoid_bounds (- 6 * ((tp - price) / tp))).
    repeat split; intros; try lra; try apply clamp_bounds; try discriminate.
    apply Hnone; assumption. apply Hnone; assumption.
  - repeat split; intros; try lra; try apply clamp_bounds;
      try contradiction.
    apply Hnone; assumption. apply Hnone; assumption.
Qed.

(** C4 (as stated) fails: a candidate at twice the cohort median with four
    times the target's mileage, for a target without a price, has the
    comparable and the hedonic score at [1 / (1 + exp 6) - 0.25], below 0. *)
Lemma deal_sub_scores_negative :
  let details :=
    snd (compute_deal_score (Some 40000) (Some 1) (Some 20000) None
                            (Some 10000) (Some 40000)) in
  comparable details < 0 /\ hedonic details < 0.
Proof.
  cbv zeta. unfold compute_deal_score, positive, truthy.
  destruct (Rlt_dec 0 20000) as [_|H]; [|exfalso; lra].
  destruct (Req_dec_T 10000 0) as [H|_]; [exfalso; lra|].
  destruct (Req_dec_T 40000 0) as [H|_]; [exfalso; lra|].
  cbn [snd comparable hedonic].
  replace (Rmax 10000 1) with 10000
    by (symmetry; apply Rmax_left; lra).
  destruct (Rlt_dec 0 ((40000 - 10000) / 10000)) as [_|H];
    [|exfalso; apply H; lra].
  replace (Rmin ((40000 - 10000) / 10000 / (15 / 10)) 1) with 1
    by (symmetry; apply Rmin_right; lra).
  replace (- 6 * ((20000 - 40000) / 20000)) with 6 by lra.
  assert (Hexp : 7 < exp 6).
  { pose proof (exp_ineq1 6) as H. lra. }
  assert (Hsig : 1 / (1 + exp 6) < 1 / 8).
  { apply Rmult_lt_reg_r with (1 + exp 6); [lra|].
    unfold Rdiv at 1. rewrite Rmult_assoc, Rinv_l by lra. lra. }
  split; lra.
Qed.

End DealScore.

(* ------------------------------------------------------------------ *)
(** ** Ordering of the comparables *)
(* ------------------------------------------------------------------ *)

Section RankingOrder.
Import Store Payloads Ranking RankingProps Handler.

Lemma in_firstn (A : Type) (n : nat) (l : list A) (x : A) :
  In x (firstn n l) -> In x l.
Proof.
  revert l; induction n as [|n IH]; intros [|y l]; simpl; try tauto.
  intros [-> | H]; [left; reflexivity | right; apply IH, H].
Qed.

Lemma Forall_insert_desc (P : Scored -> Prop) (x : Scored) (l : list Scored) :
  P x -> Forall P l -> Forall P (insert_desc x l).
Proof.
  intros Hx Hl. induction Hl as [|y t Hy Ht IH]; simpl.
  - constructor; [exact Hx | constructor].
  - destruct (Qle_bool (final_score y) (final_score x)); repeat constructor;
      assumption.
Qed.

Lemma insert_desc_sorted (x : Scored) (l : list Scored) :
  StronglySorted desc l -> StronglySorted desc (insert_desc x l).
Proof.
  induction 1 as [|y t Hs IH Hall]; simpl.
  - constructor; constructor.
  - destruct (Qle_bool (final_score y) (final_score x)) eqn:E.
    + apply Qle_bool_iff in E.
      constructor; [constructor; assumption|].
      constructor; [exact E|].
      eapply Forall_impl; [|exact Hall].
      intros z Hz. unfold desc in *. eapply Qle_trans; eassumption.
    + constructor; [exact IH|].
      apply Forall_insert_desc; [|exact Hall].
      unfold desc. apply Qlt_le_weak, Qnot_le_lt.
      intros H. apply Qle_bool_iff in H. congruence.
Qed.

Lemma sort_desc_sorted (l : list Scored) : StronglySorted desc (sort_desc l).
Proof.
  unfold sort_desc. induction l as [|x l IH]; simpl.
  - constructor.
  - apply insert_desc_sorted, IH.
Qed.

Lemma sorted_filter (f : Scored -> bool) (l : list Scored) :
  StronglySorted desc l -> StronglySorted desc (filter f l).
Proof.
  induction 1 as [|y t Hs IH Hall]; simpl; [constructor|].
  destruct (f y); [|exact IH].
  constructor; [exact IH|].
  apply Forall_forall. intros z Hz. apply filter_In in Hz.
  rewrite Forall_forall in Hall. apply Hall, Hz.
Qed.

Lemma sorted_firstn (n : nat) (l : list Scored) :
  StronglySorted desc l -> StronglySorted desc (firstn n l).
Proof.
  intros H; revert n; induction H as [|y t Hs IH Hall]; intros [|n]; simpl;
    try constructor.
  - apply IH.
  - apply Forall_forall. intros z Hz.
    rewrite Forall_forall in Hall. apply Hall.
    eapply in_firstn; eassumption.
Qed.

Lemma sorted_nonincreasing (l : list Scored) :
  StronglySorted desc l -> nonincreasing l.
Proof.
  induction 1 as [|y t Hs IH Hall]; [exact I|].
  destruct t as [|z t]; [exact I|].
  split; [|exact IH]. inversion Hall; assumption.
Qed.

Lemma filter_all (f : Scored -> bool) (l : list Scored) :
  Forall (fun p => f p = true) (filter f l).
Proof. apply Forall_forall. intros p Hp. apply filter_In in Hp. tauto. Qed.

(** The code after the scoring loop returns two sorted runs; without
    re-admission the second run is empty. *)
Lemma rank_scored_runs (scored : list Scored) :
  exists above kept : list Scored,
    rank_scored scored = above ++ kept
    /\ StronglySorted desc above
    /\ StronglySorted desc kept
    /\ Forall (fun p => above_floor p = true) above
    /\ Forall (fun p => above_floor p = false) kept.
Proof.
  unfold rank_scored.
  pose proof (sort_desc_sorted scored) as Hs.
  set (sorted := sort_desc scored) in *.
  destruct ((2 * List.length (filter above_floor sorted)
             <? List.length sorted)%nat
            && (0 <? List.length sorted)%nat).
  - exists (filter above_floor sorted).
    exists (firstn
              (Nat.max 1
                 (List.length
                    (filter (fun p => negb (above_floor p)) sorted) / 2))
              (filter (fun p => negb (above_floor p)) sorted)).
    split; [reflexivity|]. split; [apply sorted_filter, Hs|].
    split; [apply sorted_firstn, sorted_filter, Hs|].
    split; [apply filter_all|].
    apply Forall_forall. intros p Hp. apply in_firstn in Hp.
    apply filter_In in Hp. destruct Hp as [_ Hp].
    apply negb_true_iff in Hp. exact Hp.
  - exists (filter above_floor sorted), [].
    rewrite app_nil_r.
    split; [reflexivity|]. split; [apply sorted_filter, Hs|].
    split; [constructor|]. split; [apply filter_all | constructor].
Qed.

Lemma firstn_two_runs (n : nat) (out : list Scored) :
  (exists above kept : list Scored,
      out = above ++ kept
      /\ StronglySorted desc above
      /\ StronglySorted desc kept
      /\ Forall (fun p => above_floor p = true) above
      /\ Forall (fun p => above_floor p = false) kept) ->
  two_sorted_runs (firstn n out).
Proof.
  intros [above [kept [-> [Ha [Hk [Fa Fk]]]]]].
  exists (firstn n above), (firstn (n - List.length above) kept).
  split; [apply firstn_app|].
  split; [apply sorted_nonincreasing, sorted_firstn, Ha|].
  split; [apply sorted_nonincreasing, sorted_firstn, Hk|].
  split; apply Forall_forall; intros p Hp; apply in_firstn in Hp.
  - rewrite Forall_forall in Fa. apply Fa, Hp.
  - rewrite Forall_forall in Fk. apply Fk, Hp.
Qed.

(** The comparables of a successful response come in two runs, each in
    non-increasing order of final score: candidates above the quality
    floor, then re-admitted candidates below it; when every returned
    candidate is above the floor the whole list is in non-increasing
    order. *)
Lemma comparables_two_sorted_runs (now : Q)
    (scoring_loop : Payload -> list Row -> ToleranceConfig -> list Scored)
    (db : list Listing) (id : PyStr.pystr) (args : Args) :
  match comparables_endpoint now scoring_loop db id args with
  | Ok comparables _ =>
      two_sorted_runs comparables
      /\ (Forall (fun p => above_floor p = true) comparables ->
          nonincreasing comparables)
  | _ => True
  end.
Proof.
  unfold comparables_endpoint.
  destruct (parse_top (arg_top args)) as [top|]; [|exact I].
  destruct (fetch_vehicle db id) as [row|]; [|exact I].
  destruct (rank_weights _) as [a b].
  destruct (Retrieval.find_candidate_rows _ _ _ _) as [[|r rows] dbg];
    [exact I|].
  unfold score_candidates.
  set (scored := scoring_loop _ _ _).
  pose proof (firstn_two_runs (Z.to_nat top) _ (rank_scored_runs scored))
    as Hruns.
  split; [exact Hruns|].
  intros Hall.
  destruct Hruns as [above [kept [E [Ha [Hk [Fa Fk]]]]]].
  rewrite E in *.
  destruct kept as [|k kept].
  - rewrite app_nil_r. exact Ha.
  - exfalso. rewrite Forall_forall in Hall.
    assert (Hk1 : above_floor k = true)
      by (apply Hall, in_or_app; right; left; reflexivity).
    inversion Fk; congruence.
Qed.

(** The sample scores are blends with the default weights: [A] of match
    0.29, deal 0.9, freshness 1 and trust 1; [B] of match 0.25, deal 0.8,
    freshness 1 and trust 1; [C] of match 0.31, deal 0.1, no freshness and
    trust 0.2. *)
Lemma sample_scores_are_blends :
  let final (p : Scored) (deal : R) (freshness : option R) (trust : R) :=
    blend (55 / 100) (30 / 100) (10 / 100) (5 / 100)
          (Q2R (similarity_score p)) deal freshness trust in
  Q2R (final_score Samples.scored_A)
  = final Samples.scored_A (9 / 10)%R (Some 1%R) 1%R
  /\ Q2R (final_score Samples.scored_B)
     = final Samples.scored_B (8 / 10)%R (Some 1%R) 1%R
  /\ Q2R (final_score Samples.scored_C)
     = final Samples.scored_C (1 / 10)%R None (2 / 10)%R.
Proof.
  cbv zeta. unfold blend, freshness_term. cbn. unfold Q2R. cbn.
  repeat split;
    (rewrite Rmin_right by lra; rewrite Rmax_right by lra; lra).
Qed.

(** C2.  [score_candidates] ("return sorted payloads") does not return
    its result in order of final score.  Of three scored candidates only
    [C] is above the quality floor, fewer than half, so [A], the better of
    the two below it, is re-admitted behind [C]: the result, and with it
    the comparables of the response for any [top >= 2], is [C; A] although
    [A] has the higher final score. *)
Lemma readmitted_candidate_breaks_order :
  rank_scored [Samples.scored_C; Samples.scored_B; Samples.scored_A]
  = [Samples.scored_C; Samples.scored_A]
  /\ firstn 10 (rank_scored
                  [Samples.scored_C; Samples.scored_B; Samples.scored_A])
     = [Samples.scored_C; Samples.scored_A]
  /\ ~ nonincreasing [Samples.scored_C; Samples.scored_A].
Proof.
  split; [vm_compute; reflexivity|]. split; [vm_compute; reflexivity|].
  simpl. intros [H _]. apply Qle_bool_iff in H. vm_compute in H.
  discriminate.
Qed.

End RankingOrder.

(* ------------------------------------------------------------------ *)
(** ** The relaxation ladder *)
(* ------------------------------------------------------------------ *)

Section Ladder.
Import Store Retrieval RetrievalProps.

Lemma positive_gt_0 (x : option Q) (m : Q) :
  positive x = Some m -> (0 < m)%Q.
Proof.
  unfold positive. destruct x as [q|]; [|discriminate].
  destruct (Qle_bool q 0) eqn:E; [discriminate|]. intros [= <-].
  apply Qnot_le_lt. intros H. apply Qle_bool_iff in H. congruence.
Qed.

Lemma between_widen (x : option Q) (lo hi lo' hi' : Q) :
  (lo' <= lo)%Q -> (hi <= hi')%Q ->
  sql_between x lo hi = true -> sql_between x lo' hi' = true.
Proof.
  unfold sql_between. destruct x as [v|]; [|discriminate].
  intros Hlo Hhi H. apply andb_true_iff in H. destruct H as [H1 H2].
  apply Qle_bool_iff in H1, H2.
  apply andb_true_iff; split; apply Qle_bool_iff; lra.
Qed.

Lemma opt_str_eqb_eq (a b : option pystr) :
  opt_str_eqb a b = true <-> a = b.
Proof.
  destruct a as [x|], b as [y|]; simpl; try (split; discriminate);
    try tauto.
  rewrite eqb_eq. split; [intros ->; reflexivity | intros [= ->]; reflexivity].
Qed.

(** The [WHERE] clause of a wider attempt selects every listing the
    narrower one selects. *)
Lemma conditions_wider (target_row : Row) (a a' : Attempt) (l : Listing) :
  wider a a' ->
  forallb (fun c => c l) (build_conditions target_row a) = true ->
  forallb (fun c => c l) (build_conditions target_row a') = true.
Proof.
  intros [_ [Hm [Hpl [Hph Hw]]]].
  unfold build_conditions. cbv zeta.
  rewrite !forallb_app, !andb_true_iff.
  intros [Hhard [Hbody [Hfuel [Htrans [Hcol [Hmil [Hprice Hpow]]]]]]].
  repeat split; try assumption.
  - destruct (positive (normalise_mileage _)) as [m|] eqn:E; [|reflexivity].
    apply positive_gt_0 in E. simpl in *.
    rewrite andb_true_r in *.
    eapply between_widen; [| |exact Hmil]; nra.
  - destruct (positive (normalise_price _)) as [p|] eqn:E; [|reflexivity].
    apply positive_gt_0 in E. simpl in *.
    rewrite andb_true_r in *.
    eapply between_widen; [| |exact Hprice]; nra.
  - destruct (positive (normalise_mileage (option_map VNum _))) as [w|] eqn:E;
      [|reflexivity].
    apply positive_gt_0 in E. simpl in *.
    rewrite andb_true_r in *.
    eapply between_widen; [| |exact Hpow]; nra.
Qed.

(** The Python-side filter of a wider attempt keeps every row the
    narrower one keeps. *)
Lemma filter_rows_wider (target_color : option pystr) (target_year : option Z)
    (a a' : Attempt) (row : Row) :
  wider a a' ->
  filter_rows target_color target_year a [row] <> [] ->
  filter_rows target_color target_year a' [row] <> [].
Proof.
  intros [Hy _]. cbn [filter_rows].
  destruct (truthy_str target_color
            && negb (opt_str_eqb (normalize_color (color row)) target_color));
    [tauto|].
  destruct target_year as [ty|]; [|discriminate].
  destruct (ty =? 0)%Z; [discriminate|].
  destruct (extract_year (first_registration_raw row)) as [cy|]; [|tauto].
  destruct (year_tolerance a <? Z.abs (cy - ty))%Z eqn:E; [tauto|].
  apply Z.ltb_ge in E.
  replace (year_tolerance a' <? Z.abs (cy - ty))%Z with false
    by (symmetry; apply Z.ltb_ge; lia).
  discriminate.
Qed.

Lemma accepts_wider (target_row : Row) (target_year : option Z)
    (a a' : Attempt) (l : Listing) :
  wider a a' ->
  accepts target_row target_year a l = true ->
  accepts target_row target_year a' l = true.
Proof.
  intros Hw. unfold accepts. rewrite !andb_true_iff. intros [Hc Hp].
  split; [eapply conditions_wider; eassumption|].
  pose proof (filter_rows_wider (normalize_color (color target_row))
                target_year a a' (select_base_fields l) Hw) as H.
  destruct (filter_rows _ _ a [select_base_fields l]); [discriminate|].
  destruct (filter_rows _ _ a' [select_base_fields l]);
    [exfalso; apply H; [discriminate | reflexivity] | reflexivity].
Qed.

Lemma consecutive_wider (a a' : Attempt) : consecutive a a' -> wider a a'.
Proof.
  intros [k [H1 H2]].
  destruct k as [|[|[|[|k]]]]; simpl in H1, H2;
    try (injection H1 as <-; injection H2 as <-;
         unfold wider; simpl; repeat split; try lia; try lra).
  destruct k; discriminate.
Qed.

Lemma filter_rows_cons (tc : option pystr) (ty : option Z) (a : Attempt)
    (row : Row) (rows : list Row) :
  filter_rows tc ty a (row :: rows)
  = filter_rows tc ty a [row] ++ filter_rows tc ty a rows.
Proof.
  cbn [filter_rows].
  destruct (truthy_str tc && negb (opt_str_eqb (normalize_color (color row)) tc));
    [reflexivity|].
  destruct (match ty with
            | Some ty0 =>
                if (ty0 =? 0)%Z then false
                else match extract_year (first_registration_raw row) with
                     | Some cy => (year_tolerance a <? Z.abs (cy - ty0))%Z
                     | None => true
                     end
            | None => false
            end); reflexivity.
Qed.

Lemma filter_rows_single (tc : option pystr) (ty : option Z) (a : Attempt)
    (row : Row) :
  filter_rows tc ty a [row] = []
  \/ filter_rows tc ty a [row] = [set_match_strategy (name a) row].
Proof.
  cbn [filter_rows].
  destruct (truthy_str tc && negb (opt_str_eqb (normalize_color (color row)) tc));
    [left; reflexivity|].
  destruct (match ty with
            | Some ty0 =>
                if (ty0 =? 0)%Z then false
                else match extract_year (first_registration_raw row) with
                     | Some cy => (year_tolerance a <? Z.abs (cy - ty0))%Z
                     | None => true
                     end
            | None => false
            end); [left | right]; reflexivity.
Qed.

(** Without truncation, the rows an attempt keeps are exactly the
    listings of the store it accepts, in store order, annotated. *)
Lemma attempt_rows_untruncated (db : list Listing) (target_row : Row)
    (target_year : option Z) (options : Options) (a : Attempt) :
  (List.length db <= candidate_limit options)%nat ->
  attempt_rows db target_row target_year options a
  = map (fun l => set_match_strategy (name a) (select_base_fields l))
        (filter (accepts target_row target_year a) db).
Proof.
  intros Hlim. unfold attempt_rows, run_query.
  rewrite firstn_all2.
  2:{ eapply Nat.le_trans; [apply filter_length_le | exact Hlim]. }
  clear Hlim. induction db as [|l db IH]; [reflexivity|].
  cbn [filter]. unfold accepts at 1.
  destruct (forallb (fun c => c l) (build_conditions target_row a)).
  - cbn [map]. rewrite filter_rows_cons, IH. cbn [andb].
    destruct (filter_rows_single (normalize_color (color target_row))
                target_year a (select_base_fields l)) as [E | E];
      rewrite E; reflexivity.
  - cbn [andb]. exact IH.
Qed.

(** C3.  A listing admitted by step k of the ladder (its [WHERE] clause
    and the Python-side colour and year filters) is admitted by step k+1;
    so on any store the listings step k accepts are among those step k+1
    accepts. *)
Theorem relaxation_monotone (target_row : Row) (target_year : option Z)
    (a a' : Attempt) :
  consecutive a a' ->
  (forall l : Listing,
      accepts target_row target_year a l = true ->
      accepts target_row target_year a' l = true)
  /\ (forall db : list Listing,
        incl (filter (accepts target_row target_year a) db)
             (filter (accepts target_row target_year a') db))
  /\ (forall (db : list Listing) (options : Options) (b : Attempt),
        (List.length db <= candidate_limit options)%nat ->
        attempt_rows db target_row target_year options b
        = map (fun l => set_match_strategy (name b) (select_base_fields l))
              (filter (accepts target_row target_year b) db)).
Proof.
  intros Hc. apply consecutive_wider in Hc.
  split; [|split].
  - intros l. apply accepts_wider, Hc.
  - intros db l Hl. apply filter_In in Hl. destruct Hl as [Hin Hl].
    apply filter_In. split; [exact Hin|].
    eapply accepts_wider; eassumption.
  - intros db options b. apply attempt_rows_untruncated.
Qed.

Lemma relaxation_monotone_witness :
  consecutive (mkAttempt "strict" 2 (5 # 10) (6 # 10) (14 # 10) (15 # 100))
              (mkAttempt "relaxed_year" 3 (5 # 10) (6 # 10) (14 # 10)
                         (15 # 100))
  /\ incl (filter (accepts (select_base_fields
                             (Samples.listing "t" "BMW" "3er" "25000" "45000"
                                              "03/2021" "schwarz"))
                          (Some 2021%Z)
                          (mkAttempt "strict" 2 (5 # 10) (6 # 10) (14 # 10)
                                     (15 # 100)))
                  Samples.sample_db)
          (filter (accepts (select_base_fields
                             (Samples.listing "t" "BMW" "3er" "25000" "45000"
                                              "03/2021" "schwarz"))
                          (Some 2021%Z)
                          (mkAttempt "relaxed_year" 3 (5 # 10) (6 # 10)
                                     (14 # 10) (15 # 100)))
                  Samples.sample_db).
Proof.
  assert (H : consecutive
                (mkAttempt "strict" 2 (5 # 10) (6 # 10) (14 # 10) (15 # 100))
                (mkAttempt "relaxed_year" 3 (5 # 10) (6 # 10) (14 # 10)
                           (15 # 100)))
    by (exists 0%nat; split; reflexivity).
  split; [exact H|].
  apply (relaxation_monotone _ _ _ _ H).
Defined.

End Ladder.

(* ------------------------------------------------------------------ *)
(** ** The relaxation loop *)
(* ------------------------------------------------------------------ *)

Section LadderLoop.
Import Store Retrieval RetrievalProps.

Variable db : list Listing.
Variable target_row : Row.
Variable target_year : option Z.
Variable options : Options.

Local Abbreviation kept := (attempt_rows db target_row target_year options).
Local Abbreviation threshold := (min_results options).

Lemma loop_stops (pre post : list Attempt) (a : Attempt)
    (logs : list (string * nat)) (best : option (list Row * string)) :
  Forall (fun x => enough kept threshold x = false) pre ->
  enough kept threshold a = true ->
  relaxation_loop db target_row target_year options (pre ++ a :: post)
                  logs best
  = (kept a,
     mkDebug (Some (name a))
             (logs ++ map (log_of kept) pre ++ [log_of kept a]) None None).
Proof.
  intros Hpre Ha. revert logs best.
  induction Hpre as [|x pre Hx _ IH]; intros logs best.
  - cbn [app map relaxation_loop].
    unfold enough in Ha. rewrite Ha. reflexivity.
  - cbn [app map relaxation_loop].
    unfold enough in Hx. rewrite Hx.
    rewrite IH. unfold log_of at 2. rewrite <- app_assoc. reflexivity.
Qed.

Lemma loop_exhausted (todo : list Attempt) (logs : list (string * nat))
    (best : option (list Row * string)) :
  Forall (fun x => enough kept threshold x = false) todo ->
  relaxation_loop db target_row target_year options todo logs best
  = finish threshold (logs ++ map (log_of kept) todo)
           (fold_left (update_best kept) todo best).
Proof.
  intros Htodo. revert logs best.
  induction Htodo as [|x todo Hx _ IH]; intros logs best.
  - cbn [map fold_left relaxation_loop]. rewrite app_nil_r.
    unfold finish. destruct best as [[rows nm]|]; reflexivity.
  - cbn [map fold_left relaxation_loop].
    unfold enough in Hx. rewrite Hx.
    rewrite IH. unfold log_of at 2. rewrite <- app_assoc.
    cbn [app]. f_equal.
Qed.

Lemma first_enough_split (todo : list Attempt) :
  Forall (fun x => enough kept threshold x = false) todo
  \/ exists pre a post,
       todo = pre ++ a :: post
       /\ Forall (fun x => enough kept threshold x = false) pre
       /\ enough kept threshold a = true.
Proof.
  induction todo as [|x todo IH]; [left; constructor|].
  destruct (enough kept threshold x) eqn:Ex.
  - right. exists [], x, todo. repeat split; [constructor | exact Ex].
  - destruct IH as [IH | [pre [a [post [-> [Hpre Ha]]]]]].
    + left. constructor; assumption.
    + right. exists (x :: pre), a, post.
      repeat split; [constructor; assumption | exact Ha].
Qed.

(** [best_result] after the loop: the rows of one of the attempts (or the
    initial value), no shorter than any attempt's rows. *)
Lemma best_after_loop (todo : list Attempt)
    (best : option (list Row * string)) :
  match fold_left (update_best kept) todo best with
  | Some (rows, nm) =>
      ((exists b, In b todo /\ rows = kept b /\ nm = name b)
       \/ best = Some (rows, nm))
      /\ (forall a, In a todo ->
                    (List.length (kept a) <= List.length rows)%nat)
      /\ (forall r n, best = Some (r, n) ->
                      (List.length r <= List.length rows)%nat)
  | None => todo = [] /\ best = None
  end.
Proof.
  revert best. induction todo as [|x todo IH]; intros best.
  - cbn [fold_left]. destruct best as [[rows nm]|]; [|tauto].
    split; [right; reflexivity|].
    split; [intros a []|]. intros r n [= -> ->]. apply Nat.le_refl.
  - cbn [fold_left]. specialize (IH (update_best kept best x)).
    destruct (fold_left (update_best kept) todo (update_best kept best x))
      as [[rows nm]|].
    + destruct IH as [Horigin [Hmax Hbest]].
      assert (Hx : (List.length (kept x) <= List.length rows)%nat
                   /\ forall r n, best = Some (r, n) ->
                                  (List.length r <= List.length rows)%nat).
      { unfold update_best in Hbest.
        destruct best as [[r0 n0]|].
        - destruct (List.length r0 <? List.length (kept x))%nat eqn:E.
          + apply Nat.ltb_lt in E. specialize (Hbest _ _ eq_refl).
            split; [exact Hbest|]. intros r n [= <- <-]. lia.
          + apply Nat.ltb_ge in E. specialize (Hbest _ _ eq_refl).
            split; [lia|]. intros r n [= <- <-]. exact Hbest.
        - split; [apply (Hbest _ _ eq_refl) | discriminate]. }
      split; [|split].
      * destruct Horigin as [[b [Hb [Hr Hn]]] | Horigin].
        { left. exists b. repeat split; [right; exact Hb | | ]; assumption. }
        unfold update_best in Horigin.
        destruct best as [[r0 n0]|].
        -- destruct (List.length r0 <? List.length (kept x))%nat.
           ++ injection Horigin as <- <-. left. exists x.
              repeat split. left; reflexivity.
           ++ right. exact Horigin.
        -- injection Horigin as <- <-. left. exists x.
           repeat split. left; reflexivity.
      * intros a [<- | Ha]; [apply Hx | apply Hmax, Ha].
      * apply Hx.
    + destruct IH as [_ IH]. unfold update_best in IH.
      destruct best as [[r0 n0]|]; [|discriminate].
      destruct (List.length r0 <? List.length (kept x))%nat; discriminate.
Qed.

Lemma kept_passes_filter (a : Attempt) (r : Row) :
  In r (kept a) ->
  passes_python_filter (normalize_color (color target_row)) target_year a r.
Proof.
  unfold kept, attempt_rows.
  generalize (run_query db (build_conditions target_row a)
                        (candidate_limit options)) as rows.
  generalize (normalize_color (color target_row)) as tc.
  intros tc rows. induction rows as [|row rows IH]; [intros []|].
  cbn [filter_rows].
  destruct (truthy_str tc) eqn:Etc; cbn [andb].
  - destruct (opt_str_eqb (normalize_color (color row)) tc) eqn:Ec;
      cbn [negb]; [|exact IH].
    apply opt_str_eqb_eq in Ec.
    destruct target_year as [ty|].
    + destruct (ty =? 0)%Z eqn:E0.
      * intros [<- | Hin]; [|apply IH, Hin].
        repeat split; [intros _; exact Ec|].
        intros ty' [= <-] Hne. apply Z.eqb_eq in E0. contradiction.
      * destruct (extract_year (first_registration_raw row)) as [cy|]
          eqn:Ecy; [|exact IH].
        destruct (year_tolerance a <? Z.abs (cy - ty))%Z eqn:Ey; [exact IH|].
        intros [<- | Hin]; [|apply IH, Hin].
        repeat split; [intros _; exact Ec|].
        intros ty' [= <-] _. exists cy. split; [exact Ecy|].
        apply Z.ltb_ge in Ey. exact Ey.
    + intros [<- | Hin]; [|apply IH, Hin].
      repeat split; [intros _; exact Ec | intros ty' E; discriminate E].
  - destruct target_year as [ty|].
    + destruct (ty =? 0)%Z eqn:E0.
      * intros [<- | Hin]; [|apply IH, Hin].
        repeat split; [intros H; congruence|].
        intros ty' [= <-] Hne. apply Z.eqb_eq in E0. contradiction.
      * destruct (extract_year (first_registration_raw row)) as [cy|]
          eqn:Ecy; [|exact IH].
        destruct (year_tolerance a <? Z.abs (cy - ty))%Z eqn:Ey; [exact IH|].
        intros [<- | Hin]; [|apply IH, Hin].
        repeat split; [intros H; congruence|].
        intros ty' [= <-] _. exists cy. split; [exact Ecy|].
        apply Z.ltb_ge in Ey. exact Ey.
    + intros [<- | Hin]; [|apply IH, Hin].
      repeat split; [intros H; congruence | intros ty' E; discriminate E].
Qed.



(** The outcome when no attempt reaches the threshold. *)
Lemma exhausted_outcome :
  Forall (fun x => enough kept threshold x = false) relaxation_attempts ->
  exists best,
    In best relaxation_attempts
    /\ (forall a, In a relaxation_attempts ->
                  (List.length (kept a) <= List.length (kept best))%nat)
    /\ relaxation_loop db target_row target_year options relaxation_attempts
                       [] None
       = finish threshold (map (log_of kept) relaxation_attempts)
                (Some (kept best, name best)).
Proof.
  intros Hall. rewrite (loop_exhausted _ _ _ Hall). cbn [app].
  pose proof (best_after_loop relaxation_attempts None) as H.
  destruct (fold_left (update_best kept) relaxation_attempts None)
    as [[rows nm]|].
  - destruct H as [[[b [Hb [-> ->]]] | Hn] [Hmax _]]; [|discriminate].
    exists b. repeat split; assumption.
  - destruct H as [H _]. discriminate.
Qed.


End LadderLoop.

Section LadderInstance.
Import Store Retrieval RetrievalProps Samples.


End LadderInstance.

(* ------------------------------------------------------------------ *)
(** ** Further properties of the normalisation helpers *)
(* ------------------------------------------------------------------ *)

Section NormalizeMore.
Import CaseProps.

(** X1.  [normalize_text] is idempotent, and a result it returns is never
    empty and has no whitespace at either end. *)
Theorem normalize_text_idempotent (value : option pystr) :
  normalize_text (normalize_text value) = normalize_text value
  /\ (forall text, normalize_text value = Some text ->
        text <> [] /\ strip text = text
        /\ no_lead text /\ rstrip text = text).
Proof.
  assert (H : forall text, normalize_text value = Some text ->
                text <> [] /\ strip text = text
                /\ no_lead text /\ rstrip text = text).
  { unfold normalize_text. destruct value as [v|]; [|discriminate].
    intros text. destruct (strip v) as [|c t] eqn:E; [discriminate|].
    intros [= <-]. split; [discriminate|].
    rewrite <- E. split; [apply strip_idem|].
    split.
    - unfold strip. apply no_lead_rstrip, no_lead_lstrip.
    - unfold strip. apply rstrip_idem. }
  split; [|exact H].
  destruct (normalize_text value) as [text|] eqn:E; [|reflexivity].
  destruct (H text eq_refl) as [Hne [Hs _]].
  apply normalize_text_fixed; assumption.
Qed.

Lemma cp_case_low : forallb cp_case_ok (upto (N.to_nat 12289) 0) = true.
Proof. vm_compute. reflexivity. Qed.

Lemma lower_cp_high (c : N) : (12288 < c)%N -> lower_cp c = c.
Proof.
  intros H. unfold lower_cp, in_range.
  replace (c <=? 90)%N with false by (symmetry; apply N.leb_gt; lia).
  replace (c <=? 222)%N with false by (symmetry; apply N.leb_gt; lia).
  rewrite !andb_false_r. reflexivity.
Qed.

Lemma cp_case_all (c : N) : cp_case_ok c = true.
Proof.
  destruct (N.le_gt_cases c 12288) as [Hle | Hgt].
  - pose proof cp_case_low as H. rewrite forallb_forall in H. apply H.
    apply in_upto. rewrite N2Nat.id. lia.
  - unfold cp_case_ok. rewrite (lower_cp_high c Hgt).
    rewrite Bool.eqb_reflx, eqb_refl. reflexivity.
Qed.

Lemma is_space_lower (c : N) : is_space (lower_cp c) = is_space c.
Proof.
  pose proof (cp_case_all c) as H. unfold cp_case_ok in H.
  apply andb_true_iff in H. destruct H as [H _].
  apply Bool.eqb_prop in H. exact H.
Qed.

Lemma bases_lower (c : N) :
  map lower_cp (nfkd_base (lower_cp c)) = map lower_cp (nfkd_base c).
Proof.
  pose proof (cp_case_all c) as H. unfold cp_case_ok in H.
  apply andb_true_iff in H. destruct H as [_ H].
  apply eqb_eq in H. exact H.
Qed.

Lemma lstrip_lower (s : pystr) : lstrip (lower s) = lower (lstrip s).
Proof.
  induction s as [|c s IH]; [reflexivity|].
  unfold lower in *. simpl. rewrite is_space_lower.
  destruct (is_space c); [exact IH | reflexivity].
Qed.

Lemma rstrip_lower (s : pystr) : rstrip (lower s) = lower (rstrip s).
Proof.
  induction s as [|c s IH]; [reflexivity|].
  unfold lower in *. simpl. rewrite IH, is_space_lower.
  destruct (rstrip s); simpl; [destruct (is_space c)|]; reflexivity.
Qed.

Lemma strip_lower (s : pystr) : strip (lower s) = lower (strip s).
Proof. unfold strip. rewrite lstrip_lower, rstrip_lower. reflexivity. Qed.

Lemma lower_strip_accents_lower (s : pystr) :
  lower (strip_accents (lower s)) = lower (strip_accents s).
Proof.
  unfold lower, strip_accents.
  induction s as [|c s IH]; [reflexivity|].
  simpl. rewrite !map_app, IH, bases_lower. reflexivity.
Qed.

(** X2.  Colour normalisation ignores surrounding whitespace, and on
    Latin-1 text (every code point below 256, where the case table of
    [lower_cp] is that of [str.lower]) it ignores letter case: stripping
    the raw value first gives the same colour, and so does lowering a
    Latin-1 value first. *)
Theorem normalize_color_case_insensitive (s : pystr) :
  normalize_color (Some (strip s)) = normalize_color (Some s)
  /\ (Forall (fun c => (c < 256)%N) s ->
      normalize_color (Some (lower s)) = normalize_color (Some s)).
Proof.
  split; [|intros _]; cycle 1.
  - rewrite !normalize_color_unfold. unfold normalize_text.
    rewrite strip_lower.
    destruct (strip s) as [|c t]; [reflexivity|].
    change (lower (c :: t)) with (lower_cp c :: lower t).
    f_equal. f_equal. unfold clean_color.
    change (lower_cp c :: lower t) with (lower (c :: t)).
    rewrite lower_strip_accents_lower. reflexivity.
  - rewrite !normalize_color_unfold. unfold normalize_text.
    rewrite strip_idem. reflexivity.
Qed.

Lemma normalize_color_case_insensitive_witness :
  Forall (fun c => (c < 256)%N) (utf8 " Schwarz / WEISS ")
  /\ normalize_color (Some (lower (utf8 " Schwarz / WEISS ")))
     = normalize_color (Some (utf8 " Schwarz / WEISS "))
  /\ normalize_color (Some (utf8 " Schwarz / WEISS ")) = Some (utf8 "black").
Proof.
  assert (H : Forall (fun c => (c < 256)%N) (utf8 " Schwarz / WEISS ")).
  { repeat constructor. }
  split; [exact H|].
  split; [exact (proj2 (normalize_color_case_insensitive _) H)|].
  vm_compute. reflexivity.
Defined.

Lemma canonical_of_lookup (c : pystr) :
  In c lookup_colours -> In c canonical_colours.
Proof.
  intros Hin. pose proof lookup_colours_canonical as H.
  rewrite forallb_forall in H. specialize (H c Hin).
  apply existsb_exists in H. destruct H as [d [Hd E]].
  apply eqb_eq in E. subst d. exact Hd.
Qed.

(** X3.  Every colour [normalize_color] returns is one of the eleven
    canonical colours, or else the cleaned literal: free of hyphens, of
    leading, trailing and repeated whitespace, and unchanged by accent
    stripping and lowercasing. *)
Theorem normalize_color_output_shape (value : option pystr) (y : pystr) :
  normalize_color value = Some y ->
  In y canonical_colours
  \/ (Forall (fun c => c <> 45%N) y
      /\ strip y = y
      /\ ws_ok false y = true
      /\ lower (strip_accents y) = y).
Proof.
  rewrite normalize_color_unfold.
  destruct (normalize_text value) as [text|]; [|discriminate].
  intros [= <-].
  destruct (color_of_lowered_cases (clean_color text)) as [Hin | Heq].
  - left. apply canonical_of_lookup, Hin.
  - right. rewrite Heq.
    split; [|split; [|split]].
    + unfold clean_color. apply Forall_strip.
      apply Forall_sub_ws; [discriminate|]. apply no_dash_after_replace.
    + apply clean_color_strip.
    + unfold clean_color, strip.
      apply ws_ok_rstrip. eapply ws_ok_lstrip. apply sub_ws_ok.
    + apply lower_strip_accents_fixed.
      unfold clean_color. apply Forall_strip.
      apply Forall_sub_ws; [exact stable_space|].
      apply Forall_replace_dash; [exact stable_space|].
      apply lower_strip_accents_stable.
Qed.

Lemma normalize_color_output_shape_witness :
  normalize_color (Some (utf8 "Nardo-Grau  Matt")) = Some (utf8 "gray")
  /\ (In (utf8 "gray") canonical_colours
      \/ (Forall (fun c => c <> 45%N) (utf8 "gray")
          /\ strip (utf8 "gray") = utf8 "gray"
          /\ ws_ok false (utf8 "gray") = true
          /\ lower (strip_accents (utf8 "gray")) = utf8 "gray")).
Proof.
  assert (H : normalize_color (Some (utf8 "Nardo-Grau  Matt"))
              = Some (utf8 "gray")) by (vm_compute; reflexivity).
  split; [exact H|].
  apply (normalize_color_output_shape _ _ H).
Defined.

End NormalizeMore.

Section CategoryMore.
Import CaseProps Store Payloads.

Lemma stable_b_iff (c : N) : stable_b c = true <-> stable c.
Proof.
  unfold stable_b, stable. rewrite andb_true_iff, eqb_eq, N.eqb_eq. tauto.
Qed.

Lemma dict_get_entry (d : dict) (k v : pystr) :
  dict_get d k = Some v -> In (k, v) d.
Proof.
  induction d as [|[k' v'] d IH]; simpl; [discriminate|].
  destruct (eqb k k') eqn:E.
  - apply eqb_eq in E. subst k'. intros [= ->]. left. reflexivity.
  - intros H. right. apply IH, H.
Qed.

Lemma values_within_spec (d : dict) (vocabulary : list pystr) (k v : pystr) :
  values_within d vocabulary = true -> In (k, v) d -> In v vocabulary.
Proof.
  unfold values_within. rewrite forallb_forall. intros H Hin.
  specialize (H (k, v) Hin). apply existsb_exists in H.
  destruct H as [w [Hw E]]. apply eqb_eq in E. simpl in E. subst w.
  exact Hw.
Qed.

(** The result of [normalize_category] on any mapping. *)
Lemma normalize_category_cases (value : option pystr) (mapping : dict) :
  match normalize_category value mapping with
  | None => normalize_text value = None
  | Some v =>
      exists text,
        normalize_text value = Some text
        /\ ((In (lower (strip_accents text), v) mapping)
            \/ (v = lower (strip_accents text)
                /\ dict_get mapping v = None))
  end.
Proof.
  unfold normalize_category.
  destruct (normalize_text value) as [text|]; [|reflexivity].
  destruct (dict_get mapping (lower (strip_accents text))) as [v|] eqn:E.
  - exists text. split; [reflexivity|]. left. apply dict_get_entry, E.
  - exists text. split; [reflexivity|]. right. split; [reflexivity | exact E].
Qed.

(** X4.  On the fuel, transmission and body maps, [normalize_category]
    returns null exactly for a null or blank value; any other value gives a
    word of the closed vocabulary or else the accent-stripped lowercase
    literal, which is then not a key of the map. *)
Theorem normalize_category_vocabulary (value : option pystr) :
  let outcome (mapping : dict) (vocabulary : list pystr) :=
    match normalize_category value mapping with
    | None => normalize_text value = None
    | Some v =>
        normalize_text value <> None
        /\ (In v vocabulary
            \/ (dict_get mapping v = None
                /\ lower (strip_accents v) = v))
    end in
  outcome FUEL_MAP fuel_vocabulary
  /\ outcome TRANSMISSION_MAP transmission_vocabulary
  /\ outcome BODY_TYPE_MAP body_vocabulary.
Proof.
  cbv zeta.
  assert (H : forall mapping vocabulary,
             values_within mapping vocabulary = true ->
             match normalize_category value mapping with
             | None => normalize_text value = None
             | Some v =>
                 normalize_text value <> None
                 /\ (In v vocabulary
                     \/ (dict_get mapping v = None
                         /\ lower (strip_accents v) = v))
             end).
  { intros mapping vocabulary Hv.
    pose proof (normalize_category_cases value mapping) as H.
    destruct (normalize_category value mapping) as [v|]; [|exact H].
    destruct H as [text [Ht [Hin | [-> Hnone]]]].
    - split; [congruence|]. left. eapply values_within_spec; eassumption.
    - split; [congruence|]. right. split; [exact Hnone|].
      apply lower_strip_accents_fixed, lower_strip_accents_stable. }
  repeat split; apply H; vm_compute; reflexivity.
Qed.

(** X5.  Dictionary keys that carry an accented letter can never be hit,
    because the lookup key is accent-stripped: the body keys
    "suv/geländewagen/pickup", "geländewagen", "coupé" and
    "schräghecklimousine" and the colour key "grün" are dead, so a body
    type "Geländewagen" stays the literal "gelandewagen" and is not mapped
    to "suv". *)
Theorem accented_keys_are_dead :
  dead_keys BODY_TYPE_MAP
  = map utf8 ["suv/geländewagen/pickup"; "geländewagen"; "coupé";
              "schräghecklimousine"]%string
  /\ dead_keys COLOR_CANONICAL_MAP = [utf8 "grün"]
  /\ dead_keys FUEL_MAP = []
  /\ dead_keys TRANSMISSION_MAP = []
  /\ (forall (mapping : dict) (text : pystr),
        ~ In (lower (strip_accents text)) (dead_keys mapping))
  /\ (forall text : pystr, ~ In (clean_color text) (dead_keys COLOR_CANONICAL_MAP))
  /\ normalize_category (Some (utf8 "Geländewagen")) BODY_TYPE_MAP
     = Some (utf8 "gelandewagen").
Proof.
  assert (Hdead : forall (mapping : dict) (k : pystr),
             Forall stable k -> ~ In k (dead_keys mapping)).
  { intros mapping k Hk Hin. unfold dead_keys in Hin.
    apply filter_In in Hin. destruct Hin as [_ Hin].
    apply negb_true_iff in Hin.
    assert (forallb stable_b k = true).
    { apply forallb_forall. intros c Hc. apply stable_b_iff.
      rewrite Forall_forall in Hk. apply Hk, Hc. }
    congruence. }
  split; [vm_compute; reflexivity|]. split; [vm_compute; reflexivity|].
  split; [vm_compute; reflexivity|]. split; [vm_compute; reflexivity|].
  split; [|split].
  - intros mapping text. apply Hdead, lower_strip_accents_stable.
  - intros text. apply Hdead. unfold clean_color. apply Forall_strip.
    apply Forall_sub_ws; [exact stable_space|].
    apply Forall_replace_dash; [exact stable_space|].
    apply lower_strip_accents_stable.
  - vm_compute. reflexivity.
Qed.



Lemma four_digits_bound (token : pystr) :
  forallb is_digit token = true -> List.length token = 4%nat ->
  (0 <= digits_value token <= 9999)%Z.
Proof.
  intros Hd Hl.
  destruct token as [|a [|b [|c [|d [|e t]]]]]; try discriminate.
  simpl in Hd. rewrite !andb_true_iff in Hd.
  destruct Hd as [Ha [Hb [Hc [Hd _]]]].
  unfold is_digit in *. rewrite andb_true_iff in Ha, Hb, Hc, Hd.
  rewrite !N.leb_le in *.
  unfold digits_value. simpl. lia.
Qed.

Lemma first_year_token_bound (tokens : list pystr) (y : Z) :
  first_year_token tokens = Some y -> (0 <= y <= 9999)%Z.
Proof.
  induction tokens as [|token rest IH]; simpl; [discriminate|].
  destruct (forallb is_digit token && (List.length token =? 4)%nat) eqn:E;
    [|exact IH].
  apply andb_true_iff in E. destruct E as [Hd Hl].
  apply Nat.eqb_eq in Hl. intros [= <-]. apply four_digits_bound; assumption.
Qed.

Lemma replace_cp_twice (a b : N) (s : pystr) :
  a <> b -> replace_cp a b (replace_cp a b s) = replace_cp a b s.
Proof.
  intros Hne. unfold replace_cp. rewrite map_map. apply map_ext.
  intros c. destruct (N.eqb_spec c a) as [-> | Hc].
  - destruct (N.eqb_spec b a); [congruence | reflexivity].
  - destruct (N.eqb_spec c a); [contradiction | reflexivity].
Qed.

(** X6.  A year [extract_year] returns lies between 0 and 9999 (it is a
    token of exactly four digits), and slashes count as hyphens: replacing
    them beforehand changes nothing. *)
Theorem extract_year_range (raw : option pystr) (y : Z) :
  extract_year raw = Some y ->
  (0 <= y <= 9999)%Z
  /\ extract_year (option_map (replace_cp 47 45) raw) = Some y.
Proof.
  unfold extract_year. destruct raw as [text|]; [|discriminate].
  intros H. split; [eapply first_year_token_bound; exact H|].
  simpl. rewrite replace_cp_twice by discriminate. exact H.
Qed.

Lemma extract_year_range_witness :
  extract_year (Some (utf8 "03/2021")) = Some 2021%Z
  /\ (0 <= 2021 <= 9999)%Z
  /\ extract_year (option_map (replace_cp 47 45) (Some (utf8 "03/2021")))
     = Some 2021%Z.
Proof.
  assert (H : extract_year (Some (utf8 "03/2021")) = Some 2021%Z)
    by (vm_compute; reflexivity).
  split; [exact H|]. apply (extract_year_range _ _ H).
Defined.




End CategoryMore.

(* ------------------------------------------------------------------ *)
(** ** Further properties of the store and of the retrieval *)
(* ------------------------------------------------------------------ *)

Section RetrievalMore.
Import Store Retrieval RetrievalProps.

(** X8.  [fetch_vehicle] returns a row exactly when the store holds an
    available listing with the requested id, and the row is the selected
    columns of such a listing: an unavailable listing is never returned. *)
Theorem fetch_vehicle_available (db : list Listing) (id : pystr) :
  match fetch_vehicle db id with
  | Some row =>
      exists l, In l db /\ l_vehicle_id l = id
                /\ l_is_vehicle_available l = true
                /\ row = select_base_fields l
                /\ vehicle_id row = Some id
  | None =>
      forall l, In l db -> l_vehicle_id l = id ->
                l_is_vehicle_available l = false
  end.
Proof.
  unfold fetch_vehicle, run_query.
  set (f := fun l : Listing =>
              forallb (fun c : Listing -> bool => c l)
                [fun l0 => eqb (l_vehicle_id l0) id;
                 fun l0 => l_is_vehicle_available l0]).
  assert (Hf : forall l, f l = true
                         <-> l_vehicle_id l = id
                             /\ l_is_vehicle_available l = true).
  { intros l. unfold f. simpl. rewrite andb_true_r, andb_true_iff, eqb_eq.
    tauto. }
  destruct (filter f db) as [|l rest] eqn:E.
  - simpl. intros l Hin Hid.
    destruct (l_is_vehicle_available l) eqn:Ha; [|reflexivity].
    assert (Hl : In l (filter f db))
      by (apply filter_In; split; [exact Hin | apply Hf; tauto]).
    rewrite E in Hl. destruct Hl.
  - simpl.
    assert (Hl : In l (filter f db)) by (rewrite E; left; reflexivity).
    apply filter_In in Hl. destruct Hl as [Hin Hl]. apply Hf in Hl.
    destruct Hl as [Hid Ha].
    exists l. repeat split; try assumption. simpl. rewrite Hid. reflexivity.
Qed.

Lemma filter_rows_origin (tc : option pystr) (ty : option Z) (a : Attempt)
    (rows : list Row) (r : Row) :
  In r (filter_rows tc ty a rows) ->
  exists row, In row rows /\ r = set_match_strategy (name a) row.
Proof.
  induction rows as [|row rows IH]; [intros []|].
  rewrite filter_rows_cons. intros Hin. apply in_app_or in Hin.
  destruct Hin as [Hin | Hin].
  - destruct (filter_rows_single tc ty a row) as [E | E]; rewrite E in Hin.
    + destruct Hin.
    + destruct Hin as [<- | []]. exists row. split; [left|]; reflexivity.
  - destruct (IH Hin) as [row' [Hr E]]. exists row'. split; [right|]; assumption.
Qed.

Lemma filter_rows_length (tc : option pystr) (ty : option Z) (a : Attempt)
    (rows : list Row) :
  (List.length (filter_rows tc ty a rows) <= List.length rows)%nat.
Proof.
  induction rows as [|row rows IH]; [apply Nat.le_refl|].
  rewrite filter_rows_cons, length_app.
  destruct (filter_rows_single tc ty a row) as [E | E]; rewrite E; simpl; lia.
Qed.

(** Where the rows of one attempt come from. *)
Lemma attempt_rows_origin (db : list Listing) (target_row : Row)
    (target_year : option Z) (options : Options) (a : Attempt) (r : Row) :
  In r (attempt_rows db target_row target_year options a) ->
  exists l,
    In l db
    /\ r = set_match_strategy (name a) (select_base_fields l)
    /\ forallb (fun c => c l) (build_conditions target_row a) = true.
Proof.
  unfold attempt_rows, run_query. intros Hin.
  apply filter_rows_origin in Hin. destruct Hin as [row [Hrow ->]].
  apply in_map_iff in Hrow. destruct Hrow as [l [<- Hl]].
  apply in_firstn in Hl. apply filter_In in Hl. destruct Hl as [Hl Hc].
  exists l. repeat split; assumption.
Qed.

Lemma attempt_rows_length (db : list Listing) (target_row : Row)
    (target_year : option Z) (options : Options) (a : Attempt) :
  (List.length (attempt_rows db target_row target_year options a)
   <= candidate_limit options)%nat.
Proof.
  unfold attempt_rows, run_query.
  eapply Nat.le_trans; [apply filter_rows_length|].
  rewrite length_map. apply firstn_le_length.
Qed.

(** The shape of every result of [find_candidate_rows]. *)
Lemma find_candidate_rows_cases (db : list Listing) (target_row : Row)
    (target_year : option Z) (options : Options) :
  let result := find_candidate_rows db target_row target_year options in
  let rows_of := attempt_rows db target_row target_year options in
  (fst result = [] /\ error (snd result) <> None
   /\ warning (snd result) = None
   /\ selected_attempt (snd result) = None
   /\ (List.length (attempts (snd result)) = 0
       \/ List.length (attempts (snd result)) = 5)%nat)
  \/ (exists pre a post,
        relaxation_attempts = pre ++ a :: post
        /\ result = (rows_of a,
                     mkDebug (Some (name a))
                             (map (log_of rows_of) (pre ++ [a])) None None)
        /\ (min_results options <= Z.of_nat (List.length (rows_of a)))%Z
        /\ Forall (fun x => (Z.of_nat (List.length (rows_of x))
                             < min_results options)%Z) pre)
  \/ (exists best,
        In best relaxation_attempts
        /\ result = (rows_of best,
                     mkDebug (Some (name best))
                             (map (log_of rows_of) relaxation_attempts)
                             (Some (List.length (rows_of best),
                                    min_results options)) None)
        /\ rows_of best <> []
        /\ (Z.of_nat (List.length (rows_of best)) < min_results options)%Z
        /\ (forall a, In a relaxation_attempts ->
                      (List.length (rows_of a)
                       <= List.length (rows_of best))%nat)).
Proof.
  cbv zeta. unfold find_candidate_rows.
  destruct (normalize_text (make target_row)) as [mk|];
    [|left; repeat split; [discriminate | left; reflexivity]].
  destruct (normalize_text (model target_row)) as [md|];
    [|left; repeat split; [discriminate | left; reflexivity]].
  destruct (first_enough_split db target_row target_year options
              relaxation_attempts)
    as [Hall | [pre [a [post [E [Hpre Ha]]]]]].
  - destruct (exhausted_outcome db target_row target_year options Hall)
      as [best [Hin [Hmax E]]].
    rewrite E. unfold finish.
    destruct (attempt_rows db target_row target_year options best)
      as [|r0 k0] eqn:Eb.
    + left. cbn. repeat split; [discriminate | right; reflexivity].
    + right. right. exists best. rewrite Eb.
      split; [exact Hin|]. split; [reflexivity|]. split; [discriminate|].
      split.
      * rewrite Forall_forall in Hall. specialize (Hall best Hin).
        unfold enough in Hall. rewrite Eb in Hall.
        apply Z.leb_gt in Hall. exact Hall.
      * exact Hmax.
  - right. left. exists pre, a, post. split; [exact E|].
    rewrite E at 1.
    rewrite (loop_stops db target_row target_year options pre post a []
               None Hpre Ha).
    rewrite map_app. split; [reflexivity|].
    split.
    + unfold enough in Ha. apply Z.leb_le in Ha. exact Ha.
    + eapply Forall_impl; [|exact Hpre].
      intros x Hx. unfold enough in Hx. apply Z.leb_gt in Hx. exact Hx.
Qed.

Lemma sql_eq_true (col param : option pystr) :
  sql_eq col param = true -> col = param /\ col <> None.
Proof.
  unfold sql_eq. destruct col as [a|], param as [b|]; try discriminate.
  intros H. apply eqb_eq in H. subst. split; [reflexivity | discriminate].
Qed.

Lemma sql_ne_true (id : pystr) (param : option pystr) :
  sql_ne (Some id) param = true -> param <> None /\ param <> Some id.
Proof.
  unfold sql_ne. destruct param as [b|]; [|discriminate].
  intros H. apply negb_true_iff in H.
  split; [discriminate|]. intros [= ->]. rewrite eqb_refl in H. discriminate.
Qed.

(** X9.  Every candidate row [find_candidate_rows] returns is the selected
    columns of a listing of the store that is available, is not the target,
    and has exactly the target's stripped make and model; it carries the
    name of the selected attempt as its strategy; and it passed the
    Python-side colour and year filters of that attempt. *)
Theorem candidates_are_admissible (db : list Listing) (target_row : Row)
    (target_year : option Z) (options : Options) (r : Row) :
  let result := find_candidate_rows db target_row target_year options in
  In r (fst result) ->
  exists l a,
    In l db /\ In a relaxation_attempts
    /\ r = set_match_strategy (name a) (select_base_fields l)
    /\ selected_attempt (snd result) = Some (name a)
    /\ match_strategy r = selected_attempt (snd result)
    /\ l_is_vehicle_available l = true
    /\ vehicle_id target_row <> Some (l_vehicle_id l)
    /\ l_make l = normalize_text (make target_row)
    /\ l_model l = normalize_text (model target_row)
    /\ passes_python_filter (normalize_color (color target_row))
                            target_year a r.
Proof.
  cbv zeta. intros Hin.
  assert (H : exists a,
             In a relaxation_attempts
             /\ In r (attempt_rows db target_row target_year options a)
             /\ selected_attempt
                  (snd (find_candidate_rows db target_row target_year options))
                = Some (name a)).
  { pose proof (find_candidate_rows_cases db target_row target_year options)
      as H. cbv zeta in H.
    destruct H as [[E _] | [[pre [a [post [E [Er _]]]]] | [best [Hb [Er _]]]]].
    - rewrite E in Hin. destruct Hin.
    - rewrite Er in Hin |- *. exists a. repeat split; [|exact Hin].
      rewrite E. apply in_or_app. right. left. reflexivity.
    - rewrite Er in Hin |- *. exists best. repeat split; assumption. }
  destruct H as [a [Ha [Hr Hsel]]].
  pose proof (kept_passes_filter db target_row target_year options a r Hr)
    as Hpass.
  destruct (attempt_rows_origin _ _ _ _ _ _ Hr) as [l [Hl [-> Hc]]].
  exists l, a.
  unfold build_conditions in Hc. cbv zeta in Hc.
  rewrite !forallb_app in Hc. apply andb_true_iff in Hc.
  destruct Hc as [Hhard _]. simpl in Hhard.
  rewrite !andb_true_iff in Hhard.
  destruct Hhard as [Hav [Hid [Hmk [Hmd _]]]].
  apply sql_ne_true in Hid. apply sql_eq_true in Hmk, Hmd.
  destruct Hid as [_ Hid]. destruct Hmk as [Hmk _]. destruct Hmd as [Hmd _].
  split; [exact Hl|]. split; [exact Ha|]. split; [reflexivity|].
  split; [exact Hsel|]. split; [rewrite Hsel; reflexivity|].
  split; [exact Hav|]. split; [exact Hid|]. split; [exact Hmk|].
  split; [exact Hmd | exact Hpass].
Qed.

Lemma candidates_are_admissible_witness :
  In (set_match_strategy "strict"
        (select_base_fields
           (Samples.listing "a" "BMW" "3er" "23500" "43000" "05/2021"
                            "Schwarz Metallic")))
     (fst (find_candidate_rows Samples.sample_db Samples.sample_target
                               (Some 2021%Z) (mkOptions 400 1)))
  /\ exists l a,
       In l Samples.sample_db /\ In a relaxation_attempts
       /\ l_is_vehicle_available l = true
       /\ vehicle_id Samples.sample_target <> Some (l_vehicle_id l)
       /\ l_make l = normalize_text (make Samples.sample_target).
Proof.
  assert (H : In (set_match_strategy "strict"
                    (select_base_fields
                       (Samples.listing "a" "BMW" "3er" "23500" "43000"
                                        "05/2021" "Schwarz Metallic")))
                 (fst (find_candidate_rows Samples.sample_db
                         Samples.sample_target (Some 2021%Z)
                         (mkOptions 400 1))))
    by (vm_compute; left; reflexivity).
  split; [exact H|].
  destruct (candidates_are_admissible _ _ _ _ _ H)
    as [l [a [H1 [H2 [_ [_ [_ [H3 [H4 [H5 _]]]]]]]]]].
  exists l, a. repeat split; assumption.
Defined.

(** X10.  The outcome of [find_candidate_rows] is consistent with its
    debug record: at most [candidate_limit] rows are returned and at most
    five attempts are logged; a warning is present exactly when the result
    is non-empty and below [min_results] after all five attempts, and it
    carries the row count and the threshold; a result with neither warning
    nor error has at least [min_results] rows and logs the attempts up to
    the selected one; an error comes with an empty result. *)
Theorem retrieval_outcome_consistent (db : list Listing) (target_row : Row)
    (target_year : option Z) (options : Options) :
  let result := find_candidate_rows db target_row target_year options in
  let rows := fst result in
  let debug := snd result in
  (List.length rows <= candidate_limit options)%nat
  /\ (List.length (attempts debug) <= 5)%nat
  /\ (forall n m, warning debug = Some (n, m) ->
        n = List.length rows /\ m = min_results options
        /\ (0 < n)%nat /\ (Z.of_nat n < m)%Z
        /\ List.length (attempts debug) = 5%nat
        /\ error debug = None)
  /\ (warning debug = None -> error debug = None ->
      (min_results options <= Z.of_nat (List.length rows))%Z
      /\ exists a, selected_attempt debug = Some (name a)
                   /\ nth_error relaxation_attempts
                        (List.length (attempts debug) - 1) = Some a)
  /\ (error debug <> None ->
      rows = [] /\ selected_attempt debug = None)
  /\ (rows <> [] -> Forall (fun entry => (snd entry <= List.length rows)%nat)
                           (attempts debug)).
Proof.
  cbv zeta.
  pose proof (find_candidate_rows_cases db target_row target_year options)
    as H. cbv zeta in H.
  destruct H as [[E [Herr [Hw [Hsel Hlen]]]]
                | [[pre [a [post [E [Er [Hmin Hpre]]]]]]
                  | [best [Hb [Er [Hne [Hlt Hmax]]]]]]].
  - rewrite E, Hw.
    split; [simpl; lia|]. split; [destruct Hlen as [-> | ->]; lia|].
    split; [discriminate|]. split; [intros _ Hn; contradiction|].
    split; [intros _; split; [reflexivity | exact Hsel]|].
    intros Hn. contradiction.
  - rewrite Er. cbn [fst snd attempts warning error selected_attempt].
    assert (Hlen : (List.length pre + 1 <= 5)%nat).
    { assert (L : List.length relaxation_attempts = 5%nat) by reflexivity.
      rewrite E, length_app in L. simpl in L. lia. }
    split; [apply attempt_rows_length|].
    split; [rewrite length_map, length_app; simpl; lia|].
    split; [discriminate|].
    split.
    { intros _ _. split; [exact Hmin|]. exists a. split; [reflexivity|].
      rewrite length_map, length_app. simpl.
      replace (List.length pre + 1 - 1)%nat with (List.length pre) by lia.
      rewrite E. rewrite nth_error_app2 by lia.
      rewrite Nat.sub_diag. reflexivity. }
    split; [intros Hn; contradiction|].
    intros _. apply Forall_forall. intros entry Hentry.
    apply in_map_iff in Hentry. destruct Hentry as [x [<- Hx]].
    unfold log_of. simpl.
    apply in_app_or in Hx. destruct Hx as [Hx | [<- | []]]; [|lia].
    rewrite Forall_forall in Hpre. specialize (Hpre x Hx). lia.
  - rewrite Er. cbn [fst snd attempts warning error selected_attempt].
    split; [apply attempt_rows_length|].
    split; [rewrite length_map; simpl; lia|].
    split.
    { intros n m [= <- <-].
      split; [reflexivity|]. split; [reflexivity|].
      split; [destruct (attempt_rows db target_row target_year options best);
              [contradiction | simpl; lia]|].
      split; [exact Hlt|]. split; [rewrite length_map|]; reflexivity. }
    split; [discriminate|].
    split; [intros Hn; contradiction|].
    intros _. apply Forall_forall. intros entry Hentry.
    apply in_map_iff in Hentry. destruct Hentry as [x [<- Hx]].
    unfold log_of. simpl. apply Hmax, Hx.
Qed.

End RetrievalMore.

(* ------------------------------------------------------------------ *)
(** ** The similarity engine *)
(* ------------------------------------------------------------------ *)

Section EngineFacts.
Import Payloads Similarity SimilarityProps Handler Engine.
Local Open Scope Q_scope.

Lemma clamp01_bounds (x : Q) : 0 <= Qmax 0 (Qmin 1 x) <= 1.
Proof.
  split; [apply Q.le_max_l|].
  apply Q.max_lub; [lra | apply Q.le_min_l].
Qed.

Lemma clamp01_id (x : Q) : 0 <= x -> x <= 1 -> Qmax 0 (Qmin 1 x) == x.
Proof.
  intros H0 H1. rewrite (Q.min_r 1 x H1). apply Q.max_r, H0.
Qed.

Lemma clamp01_mono (x y : Q) :
  x <= y -> Qmax 0 (Qmin 1 x) <= Qmax 0 (Qmin 1 y).
Proof.
  intros H. apply Q.max_le_compat_l, Q.min_le_compat_l, H.
Qed.

Lemma div_le_div (d1 d2 w : Q) : 0 < w -> d1 <= d2 -> d1 / w <= d2 / w.
Proof.
  intros Hw Hd. unfold Qdiv. apply Qmult_le_compat_r; [exact Hd|].
  apply Qinv_le_0_compat. lra.
Qed.

(** X11.  [_bounded_similarity] returns a value in [0, 1]; it is the
    neutral 0.5 for a window that is not positive; for a positive window
    it is 1 at a difference of 0 (or less), 0 at a difference of the
    window or more, and it never grows when the difference grows. *)
Theorem bounded_similarity_profile (diff diff' window : Q) :
  0 <= bounded_similarity diff window <= 1
  /\ (window <= 0 -> bounded_similarity diff window = 1 # 2)
  /\ (0 < window -> diff <= 0 -> bounded_similarity diff window == 1)
  /\ (0 < window -> window <= diff -> bounded_similarity diff window == 0)
  /\ (0 < window -> 0 <= diff -> diff <= window ->
      bounded_similarity diff window == 1 - diff / window)
  /\ (diff <= diff' ->
      bounded_similarity diff' window <= bounded_similarity diff window).
Proof.
  unfold bounded_similarity.
  destruct (Qle_bool window 0) eqn:E.
  - apply Qle_bool_iff in E.
    split; [lra|]. split; [reflexivity|].
    repeat split; intros; try lra.
  - assert (Hw : 0 < window).
    { apply Qnot_le_lt. intros H. apply Qle_bool_iff in H. congruence. }
    assert (Hq : diff / window * window == diff) by (field; lra).
    split; [apply clamp01_bounds|]. split; [intros; lra|].
    split.
    { intros _ Hd. assert (diff / window <= 0) by nra.
      rewrite (Q.min_l 1 (1 - diff / window)) by lra.
      apply Q.max_r. lra. }
    split.
    { intros _ Hd. assert (1 <= diff / window) by nra.
      rewrite (Q.min_r 1 (1 - diff / window)) by lra.
      apply Q.max_l. lra. }
    split.
    { intros _ H0 H1. assert (0 <= diff / window) by nra.
      assert (diff / window <= 1) by nra.
      apply clamp01_id; lra. }
    intros Hd. apply clamp01_mono.
    pose proof (div_le_div diff diff' window Hw Hd). lra.
Qed.

Lemma fold_plus_shift (l : list Q) (acc : Q) :
  fold_left Qplus l acc == acc + fold_left Qplus l 0.
Proof.
  revert acc; induction l as [|x l IH]; intros acc; simpl; [lra|].
  rewrite (IH (acc + x)), (IH (0 + x)). lra.
Qed.

Lemma total_scaled (d : weights) (t : Q) :
  total (map (fun kv => (fst kv, snd kv / t)) d) == total d / t.
Proof.
  unfold total. induction d as [|[k v] d IH]; simpl.
  - unfold Qdiv. lra.
  - rewrite (fold_plus_shift _ (0 + v / t)), IH.
    rewrite (fold_plus_shift _ (0 + v)).
    unfold Qdiv. lra.
Qed.

Lemma normalise_total (configured : option weights) (defaults : weights) :
  0 < total defaults -> total (normalise configured defaults) == 1.
Proof.
  intros Hd. unfold normalise.
  destruct (Qle_bool (total match configured with
                            | Some w => w
                            | None => defaults
                            end) 0) eqn:E.
  - rewrite total_scaled. field. lra.
  - assert (0 < total match configured with
                       | Some w => w
                       | None => defaults
                       end).
    { apply Qnot_le_lt. intros H. apply Qle_bool_iff in H. congruence. }
    rewrite total_scaled. field. lra.
Qed.

Lemma normalise_keys (configured : option weights) (defaults : weights) :
  map fst (normalise configured defaults)
  = map fst (if Qle_bool (total match configured with
                                | Some w => w
                                | None => defaults
                                end) 0
             then defaults
             else match configured with Some w => w | None => defaults end).
Proof.
  unfold normalise.
  destruct (Qle_bool _ 0); rewrite map_map; reflexivity.
Qed.

Lemma cat_score_values (a b : option pystr) :
  cat_score a b = 0 \/ cat_score a b = 1 # 2 \/ cat_score a b = 1.
Proof.
  unfold cat_score. destruct a, b; try (right; left; reflexivity).
  destruct (eqb _ _); [right; right | left]; reflexivity.
Qed.

Lemma mm_score_values (target candidate : Payload) :
  mm_score_of target candidate = 0
  \/ mm_score_of target candidate = 1 # 2
  \/ mm_score_of target candidate = 1.
Proof.
  unfold mm_score_of.
  destruct (norm_value (p_make target)), (norm_value (p_model target)),
    (norm_value (p_make candidate)), (norm_value (p_model candidate));
    try (right; left; reflexivity).
  destruct (_ && _); [right; right | left]; reflexivity.
Qed.

Lemma categorical_similarity_formula (target candidate : Payload) :
  fst (categorical_similarity target candidate)
  == (25 # 100) * mm_score_of target candidate
     + (20 # 100) * cat_score (body_of target) (body_of candidate)
     + (20 # 100) * cat_score (fuel_of target) (fuel_of candidate)
     + (15 # 100) * cat_score (trans_of target) (trans_of candidate)
     + (20 # 100) * cat_score (color_of target) (color_of candidate).
Proof.
  unfold categorical_similarity. cbn [fst].
  change (Qle_bool (0 + (25 # 100) + (20 # 100) + (20 # 100) + (15 # 100)
                    + (20 # 100)) 0) with false.
  cbv iota. field.
Qed.

(** X13.  The categorical similarity lies in [0, 1]; every component score
    is 0, 0.5 or 1; and the similarity is 1 exactly when all five
    components score 1, and 0 exactly when all five score 0. *)
Theorem categorical_similarity_range (target candidate : Payload) :
  let similarity := fst (categorical_similarity target candidate) in
  let components := snd (categorical_similarity target candidate) in
  0 <= similarity <= 1
  /\ Forall (fun c => c_score c = 0 \/ c_score c = 1 # 2 \/ c_score c = 1)
            components
  /\ (similarity == 1 <-> Forall (fun c => c_score c = 1) components)
  /\ (similarity == 0 <-> Forall (fun c => c_score c = 0) components).
Proof.
  cbv zeta. rewrite (categorical_similarity_formula target candidate).
  unfold categorical_similarity. cbn [snd].
  pose proof (mm_score_values target candidate) as Hmm.
  pose proof (cat_score_values (body_of target) (body_of candidate)) as Hb.
  pose proof (cat_score_values (fuel_of target) (fuel_of candidate)) as Hf.
  pose proof (cat_score_values (trans_of target) (trans_of candidate)) as Ht.
  pose proof (cat_score_values (color_of target) (color_of candidate)) as Hc.
  set (mm := mm_score_of target candidate) in *.
  set (b := cat_score (body_of target) (body_of candidate)) in *.
  set (f := cat_score (fuel_of target) (fuel_of candidate)) in *.
  set (t := cat_score (trans_of target) (trans_of candidate)) in *.
  set (c := cat_score (color_of target) (color_of candidate)) in *.
  split; [|split; [|split]].
  - destruct Hmm as [-> | [-> | ->]], Hb as [-> | [-> | ->]],
      Hf as [-> | [-> | ->]], Ht as [-> | [-> | ->]], Hc as [-> | [-> | ->]];
      split; lra.
  - repeat (apply Forall_cons; [assumption|]). apply Forall_nil.
  - split.
    + intros H.
      destruct Hmm as [E1 | [E1 | E1]], Hb as [E2 | [E2 | E2]],
        Hf as [E3 | [E3 | E3]], Ht as [E4 | [E4 | E4]],
        Hc as [E5 | [E5 | E5]];
        rewrite E1, E2, E3, E4, E5 in H; try (exfalso; lra);
        repeat (apply Forall_cons; [assumption|]); apply Forall_nil.
    + intros H.
      apply Forall_cons_iff in H. destruct H as [H1 H].
      apply Forall_cons_iff in H. destruct H as [H2 H].
      apply Forall_cons_iff in H. destruct H as [H3 H].
      apply Forall_cons_iff in H. destruct H as [H4 H].
      apply Forall_cons_iff in H. destruct H as [H5 _].
      cbn [c_score] in *. rewrite H1, H2, H3, H4, H5. lra.
  - split.
    + intros H.
      destruct Hmm as [E1 | [E1 | E1]], Hb as [E2 | [E2 | E2]],
        Hf as [E3 | [E3 | E3]], Ht as [E4 | [E4 | E4]],
        Hc as [E5 | [E5 | E5]];
        rewrite E1, E2, E3, E4, E5 in H; try (exfalso; lra);
        repeat (apply Forall_cons; [assumption|]); apply Forall_nil.
    + intros H.
      apply Forall_cons_iff in H. destruct H as [H1 H].
      apply Forall_cons_iff in H. destruct H as [H2 H].
      apply Forall_cons_iff in H. destruct H as [H3 H].
      apply Forall_cons_iff in H. destruct H as [H4 H].
      apply Forall_cons_iff in H. destruct H as [H5 _].
      cbn [c_score] in *. rewrite H1, H2, H3, H4, H5. lra.
Qed.

End EngineFacts.

Section EngineAxes.
Import Payloads Similarity SimilarityProps Handler Engine.
Local Open Scope Q_scope.

Lemma bs_range (diff window : Q) : 0 <= bounded_similarity diff window <= 1.
Proof.
  unfold bounded_similarity. destruct (Qle_bool window 0); [lra|].
  apply clamp01_bounds.
Qed.

Lemma bs_at_zero (diff window : Q) :
  0 < window -> diff <= 0 -> bounded_similarity diff window == 1.
Proof.
  intros Hw Hd. unfold bounded_similarity.
  destruct (Qle_bool window 0) eqn:E.
  - apply Qle_bool_iff in E. lra.
  - assert (Hq : diff / window * window == diff) by (field; lra).
    assert (diff / window <= 0) by nra.
    rewrite (Q.min_l 1 (1 - diff / window)) by lra.
    apply Q.max_r. lra.
Qed.

Lemma abs_diff_self (t : Q) : Qabs (t - t) <= 0.
Proof. apply Qabs_Qle_condition. lra. Qed.

(** The window handed to [_bounded_similarity] by the mileage and power
    blocks is positive. *)
Lemma ratio_window_positive (t ratio min_window : Q) :
  0 <= min_window ->
  0 < (if Qle_bool (Qmax (Qabs t * ratio) min_window) 0
       then or_one min_window
       else Qmax (Qabs t * ratio) min_window).
Proof.
  intros Hm.
  destruct (Qle_bool (Qmax (Qabs t * ratio) min_window) 0) eqn:E.
  - apply Qle_bool_iff in E.
    pose proof (Q.le_max_r (Qabs t * ratio) min_window) as H.
    unfold or_one.
    destruct (Qeq_bool min_window 0) eqn:E0; [lra|].
    exfalso. apply Qeq_bool_neq in E0. apply E0. lra.
  - apply Qnot_le_lt. intros H. apply Qle_bool_iff in H. congruence.
Qed.

Lemma ratio_window_score_range (target candidate : option Q)
    (ratio min_window : Q) :
  0 <= ratio_window_score target candidate ratio min_window <= 1.
Proof.
  unfold ratio_window_score. destruct target, candidate; try lra.
  apply bs_range.
Qed.

Lemma ratio_window_score_twin (t ratio min_window : Q) :
  0 <= min_window ->
  ratio_window_score (Some t) (Some t) ratio min_window == 1.
Proof.
  intros Hm. unfold ratio_window_score.
  apply bs_at_zero; [apply ratio_window_positive, Hm | apply abs_diff_self].
Qed.

Lemma default_numeric_weights_found :
  exists w_age w_mileage w_power,
    weight (numeric_weights similarity_engine) "age" = Some w_age
    /\ weight (numeric_weights similarity_engine) "mileage" = Some w_mileage
    /\ weight (numeric_weights similarity_engine) "power" = Some w_power
    /\ w_age == 4 # 10 /\ w_mileage == 4 # 10 /\ w_power == 2 # 10.
Proof.
  eexists. eexists. eexists.
  split; [vm_compute; reflexivity|]. split; [vm_compute; reflexivity|].
  split; [vm_compute; reflexivity|]. repeat split.
Qed.

(** X14.  With the default engine the numeric similarity is
    0.4 age + 0.4 mileage + 0.2 power and lies in [0, 1], as does each
    component; a component is the neutral 0.5 when the field is missing on
    either side; and a field that is present and equal on both sides scores
    1 whatever the tolerances are, so a candidate with the target's numbers
    has a numeric similarity of at least 0.5 and of 1 when all three fields
    are known. *)
Theorem numeric_similarity_profile (target candidate : NumericFields)
    (tolerances : ToleranceConfig) :
  exists similarity age mileage power : Q,
    numeric_similarity similarity_engine target candidate tolerances
    = Some (similarity, (age, mileage, power))
    /\ similarity == (4 # 10) * age + (4 # 10) * mileage + (2 # 10) * power
    /\ 0 <= similarity <= 1
    /\ 0 <= age <= 1 /\ 0 <= mileage <= 1 /\ 0 <= power <= 1
    /\ (age_months target = None \/ age_months candidate = None ->
        age = 1 # 2)
    /\ (Engine.mileage_km target = None \/ Engine.mileage_km candidate = None ->
        mileage = 1 # 2)
    /\ (Engine.power_kw target = None \/ Engine.power_kw candidate = None ->
        power = 1 # 2)
    /\ (candidate = target ->
        (age_months target <> None -> age == 1)
        /\ (Engine.mileage_km target <> None -> mileage == 1)
        /\ (Engine.power_kw target <> None -> power == 1)
        /\ 1 # 2 <= similarity).
Proof.
  destruct default_numeric_weights_found
    as [wa [wm [wp [Ea [Em [Ep [Ha [Hm Hp]]]]]]]].
  unfold numeric_similarity. cbv zeta. rewrite Ea, Em, Ep.
  set (age := match age_months target, age_months candidate with
              | Some target_age, Some candidate_age => _
              | _, _ => 1 # 2
              end).
  set (mileage := ratio_window_score (Engine.mileage_km target)
                    (Engine.mileage_km candidate) _ _).
  set (power := ratio_window_score (Engine.power_kw target)
                  (Engine.power_kw candidate) _ _).
  assert (Rage : 0 <= age <= 1).
  { unfold age. destruct (age_months target), (age_months candidate);
      try lra. apply bs_range. }
  assert (Rm : 0 <= mileage <= 1) by apply ratio_window_score_range.
  assert (Rp : 0 <= power <= 1) by apply ratio_window_score_range.
  assert (Hpos : Qle_bool (0 + wa + wm + wp) 0 = false).
  { destruct (Qle_bool (0 + wa + wm + wp) 0) eqn:E; [|reflexivity].
    apply Qle_bool_iff in E. lra. }
  rewrite Hpos.
  assert (Hs : (0 + wa * age + wm * mileage + wp * power) / (0 + wa + wm + wp)
               == (4 # 10) * age + (4 # 10) * mileage + (2 # 10) * power).
  { assert (W : 0 + wa + wm + wp == 1) by lra.
    rewrite W, Ha, Hm, Hp. field. }
  exists ((0 + wa * age + wm * mileage + wp * power) / (0 + wa + wm + wp)),
    age, mileage, power.
  split; [reflexivity|]. split; [exact Hs|].
  split; [rewrite Hs; lra|].
  split; [exact Rage|]. split; [exact Rm|]. split; [exact Rp|].
  split.
  { unfold age. intros [-> | ->]; [reflexivity|].
    destruct (age_months target); reflexivity. }
  split.
  { unfold mileage, ratio_window_score. intros [-> | ->]; [reflexivity|].
    destruct (Engine.mileage_km target); reflexivity. }
  split.
  { unfold power, ratio_window_score. intros [-> | ->]; [reflexivity|].
    destruct (Engine.power_kw target); reflexivity. }
  intros ->.
  assert (A1 : age_months target <> None -> age == 1).
  { unfold age. destruct (age_months target) as [t|]; [|congruence].
    intros _. apply bs_at_zero.
    - pose proof (Q.le_max_r
                    (Qmax (inject_Z (year_tolerance_years tolerances))
                          (1 # 10) * 12) 1). lra.
    - apply abs_diff_self. }
  assert (M1 : Engine.mileage_km target <> None -> mileage == 1).
  { unfold mileage. destruct (Engine.mileage_km target) as [t|]; [|congruence].
    intros _. apply ratio_window_score_twin. apply Q.le_max_r. }
  assert (P1 : Engine.power_kw target <> None -> power == 1).
  { unfold power. destruct (Engine.power_kw target) as [t|]; [|congruence].
    intros _. apply ratio_window_score_twin. apply Q.le_max_r. }
  split; [exact A1|]. split; [exact M1|]. split; [exact P1|].
  rewrite Hs.
  assert (1 # 2 <= age).
  { destruct (age_months target) as [t|] eqn:E.
    - rewrite A1 by discriminate. lra.
    - unfold age. rewrite ?E. lra. }
  assert (1 # 2 <= mileage).
  { destruct (Engine.mileage_km target) as [t|] eqn:E.
    - rewrite M1 by discriminate. lra.
    - unfold mileage, ratio_window_score. rewrite ?E. lra. }
  assert (1 # 2 <= power).
  { destruct (Engine.power_kw target) as [t|] eqn:E.
    - rewrite P1 by discriminate. lra.
    - unfold power, ratio_window_score. rewrite ?E. lra. }
  lra.
Qed.

End EngineAxes.

Section EngineText.
Import Payloads Similarity Handler Engine.
Local Open Scope Q_scope.

Lemma set_add_length_ge (x : pystr) (s : list pystr) :
  (List.length s <= List.length (set_add pystr_eq_dec x s))%nat.
Proof.
  induction s as [|y s IH]; simpl; [lia|].
  destruct (pystr_eq_dec x y); simpl; lia.
Qed.

Lemma set_union_length_ge (a b : list pystr) :
  (List.length a <= List.length (set_union pystr_eq_dec a b))%nat.
Proof.
  induction b as [|y b IH]; simpl; [lia|].
  eapply Nat.le_trans; [exact IH | apply set_add_length_ge].
Qed.

Lemma set_inter_length_le (a b : list pystr) :
  (List.length (set_inter pystr_eq_dec a b) <= List.length a)%nat.
Proof.
  induction a as [|x a IH]; simpl; [lia|].
  destruct (set_mem pystr_eq_dec x b); simpl; lia.
Qed.

Lemma ratio_range (n m : nat) :
  (n <= m)%nat -> (0 < m)%nat ->
  0 <= inject_Z (Z.of_nat n) / inject_Z (Z.of_nat m) <= 1.
Proof.
  intros Hnm Hm.
  assert (Hm' : 0 < inject_Z (Z.of_nat m)).
  { replace 0 with (inject_Z 0) by reflexivity. rewrite <- Zlt_Qlt. lia. }
  assert (Hn' : 0 <= inject_Z (Z.of_nat n)).
  { replace 0 with (inject_Z 0) by reflexivity. rewrite <- Zle_Qle. lia. }
  assert (Hle : inject_Z (Z.of_nat n) <= inject_Z (Z.of_nat m)).
  { rewrite <- Zle_Qle. lia. }
  split.
  - apply Qle_shift_div_l; [exact Hm' | lra].
  - apply Qle_shift_div_r; [exact Hm' | lra].
Qed.

Lemma overlap_range (a b : list pystr) : 0 <= overlap a b <= 1.
Proof.
  unfold overlap.
  pose proof (set_union_length_ge a b) as Hu.
  pose proof (set_inter_length_le a b) as Hi.
  destruct (set_union pystr_eq_dec a b) as [|x u] eqn:E; [lra|].
  apply ratio_range; simpl in *; lia.
Qed.

Lemma same_members_length (x y : list pystr) :
  NoDup x -> NoDup y -> (forall e, In e x <-> In e y) ->
  List.length x = List.length y.
Proof.
  intros Hx Hy H. apply Nat.le_antisymm; apply NoDup_incl_length;
    try assumption; intros e He; apply H, He.
Qed.

Lemma overlap_sym (a b : list pystr) :
  NoDup a -> NoDup b -> overlap a b = overlap b a.
Proof.
  intros Ha Hb. unfold overlap.
  assert (Lu : List.length (set_union pystr_eq_dec a b)
               = List.length (set_union pystr_eq_dec b a)).
  { apply same_members_length; try (apply set_union_nodup; assumption).
    intros e. rewrite !set_union_iff. tauto. }
  assert (Li : List.length (set_inter pystr_eq_dec a b)
               = List.length (set_inter pystr_eq_dec b a)).
  { apply same_members_length; try (apply set_inter_nodup; assumption).
    intros e. rewrite !set_inter_iff. tauto. }
  destruct (set_union pystr_eq_dec a b) as [|x u],
    (set_union pystr_eq_dec b a) as [|y v]; try discriminate;
    [reflexivity|].
  rewrite Li, Lu. reflexivity.
Qed.

Lemma overlap_self (a : list pystr) :
  NoDup a -> a <> [] -> overlap a a == 1.
Proof.
  intros Ha Hne. unfold overlap.
  assert (Lu : List.length (set_union pystr_eq_dec a a) = List.length a).
  { apply same_members_length; try assumption;
      [apply set_union_nodup; assumption|].
    intros e. rewrite set_union_iff. tauto. }
  assert (Li : List.length (set_inter pystr_eq_dec a a) = List.length a).
  { apply same_members_length; try assumption;
      [apply set_inter_nodup; assumption|].
    intros e. rewrite set_inter_iff. tauto. }
  destruct (set_union pystr_eq_dec a a) as [|x u].
  - destruct a; [contradiction | discriminate].
  - rewrite Li, Lu.
    assert (0 < inject_Z (Z.of_nat (List.length a))).
    { replace 0 with (inject_Z 0) by reflexivity. rewrite <- Zlt_Qlt.
      destruct a; [contradiction | simpl; lia]. }
    field. lra.
Qed.

Lemma overlap_disjoint (a b : list pystr) :
  (forall e, In e a -> ~ In e b) -> a <> [] \/ b <> [] -> overlap a b == 0.
Proof.
  intros Hd Hne. unfold overlap.
  assert (Ei : set_inter pystr_eq_dec a b = []).
  { destruct (set_inter pystr_eq_dec a b) as [|e i] eqn:E; [reflexivity|].
    assert (He : In e (set_inter pystr_eq_dec a b))
      by (rewrite E; left; reflexivity).
    apply set_inter_iff in He. exfalso. apply (Hd e); tauto. }
  rewrite Ei.
  destruct (set_union pystr_eq_dec a b) as [|x u] eqn:Eu.
  - exfalso.
    assert (Hall : forall e, ~ In e (set_union pystr_eq_dec a b))
      by (intros e; rewrite Eu; intros []).
    destruct Hne as [Hne | Hne].
    + destruct a as [|e a']; [contradiction|].
      apply (Hall e), set_union_iff. left. left. reflexivity.
    + destruct b as [|e b']; [contradiction|].
      apply (Hall e), set_union_iff. right. left. reflexivity.
  - cbn [List.length Z.of_nat]. unfold Qdiv. apply Qmult_0_l.
Qed.

Lemma default_text_weights_found :
  exists w_feature w_token,
    weight (text_weights similarity_engine) "feature_overlap" = Some w_feature
    /\ weight (text_weights similarity_engine) "token_overlap" = Some w_token
    /\ w_feature == 6 # 10 /\ w_token == 4 # 10.
Proof.
  eexists. eexists.
  split; [vm_compute; reflexivity|]. split; [vm_compute; reflexivity|].
  split; reflexivity.
Qed.

Lemma textual_form (w_feature w_token : Q)
    (target_profile candidate_profile : TextProfile) :
  weight (text_weights similarity_engine) "feature_overlap" = Some w_feature ->
  weight (text_weights similarity_engine) "token_overlap" = Some w_token ->
  textual_similarity similarity_engine target_profile candidate_profile
  = Some (w_feature
          * overlap (features target_profile) (features candidate_profile)
          + w_token
            * overlap (tokens target_profile) (tokens candidate_profile),
          (overlap (features target_profile) (features candidate_profile),
           overlap (tokens target_profile) (tokens candidate_profile))).
Proof.
  intros Ef Et. unfold textual_similarity. rewrite Ef, Et. reflexivity.
Qed.

(** X15.  With the default engine the textual similarity is
    0.6 feature overlap + 0.4 token overlap, and the score and both
    overlaps lie in [0, 1]; two profiles that are both empty score the
    neutral 0.5; and for profiles that are sets (no repetition) the score
    is symmetric in target and candidate, is 1 for two equal profiles with
    tokens and features, and is 0 for profiles that share no token and no
    feature while each kind occurs on some side. *)
Theorem textual_similarity_profile
    (target_profile candidate_profile : TextProfile) :
  NoDup (tokens target_profile) -> NoDup (features target_profile) ->
  NoDup (tokens candidate_profile) -> NoDup (features candidate_profile) ->
  exists score feature_overlap token_overlap : Q,
    textual_similarity similarity_engine target_profile candidate_profile
    = Some (score, (feature_overlap, token_overlap))
    /\ score == (6 # 10) * feature_overlap + (4 # 10) * token_overlap
    /\ 0 <= score <= 1
    /\ 0 <= feature_overlap <= 1 /\ 0 <= token_overlap <= 1
    /\ textual_similarity similarity_engine candidate_profile target_profile
       = Some (score, (feature_overlap, token_overlap))
    /\ (tokens target_profile = [] -> tokens candidate_profile = [] ->
        features target_profile = [] -> features candidate_profile = [] ->
        score == 1 # 2)
    /\ (candidate_profile = target_profile ->
        tokens target_profile <> [] -> features target_profile <> [] ->
        score == 1)
    /\ ((forall e, In e (tokens target_profile) ->
                   ~ In e (tokens candidate_profile)) ->
        (forall e, In e (features target_profile) ->
                   ~ In e (features candidate_profile)) ->
        tokens target_profile <> [] \/ tokens candidate_profile <> [] ->
        features target_profile <> [] \/ features candidate_profile <> [] ->
        score == 0).
Proof.
  intros Nt Nf Nt' Nf'.
  destruct default_text_weights_found as [wf [wt [Ef [Et [Hf Ht]]]]].
  pose proof (overlap_range (features target_profile)
                            (features candidate_profile)) as Rf.
  pose proof (overlap_range (tokens target_profile)
                            (tokens candidate_profile)) as Rt.
  set (fo := overlap (features target_profile) (features candidate_profile))
    in *.
  set (to := overlap (tokens target_profile) (tokens candidate_profile)) in *.
  exists (wf * fo + wt * to), fo, to.
  split; [apply textual_form; assumption|].
  split; [rewrite Hf, Ht; reflexivity|].
  split; [rewrite Hf, Ht; lra|].
  split; [exact Rf|]. split; [exact Rt|].
  split.
  { rewrite (textual_form wf wt candidate_profile target_profile Ef Et).
    unfold fo, to.
    rewrite (overlap_sym (features candidate_profile)
                         (features target_profile) Nf' Nf).
    rewrite (overlap_sym (tokens candidate_profile)
                         (tokens target_profile) Nt' Nt).
    reflexivity. }
  split.
  { intros E1 E2 E3 E4. unfold fo, to. rewrite E1, E2, E3, E4.
    unfold overlap. simpl. rewrite Hf, Ht. lra. }
  split.
  { intros -> Ht0 Hf0. unfold fo, to.
    rewrite (overlap_self _ Nf Hf0), (overlap_self _ Nt Ht0), Hf, Ht. lra. }
  intros Dt Df Hne_t Hne_f. unfold fo, to.
  rewrite (overlap_disjoint _ _ Df Hne_f), (overlap_disjoint _ _ Dt Hne_t).
  lra.
Qed.

Lemma textual_similarity_profile_witness :
  let target_profile :=
    mkTextProfile [utf8 "navi"; utf8 "leder"] [utf8 "heated_seats"] in
  let candidate_profile :=
    mkTextProfile [utf8 "leder"; utf8 "xenon"] [utf8 "heated_seats"] in
  NoDup (tokens target_profile) /\ NoDup (features target_profile)
  /\ NoDup (tokens candidate_profile) /\ NoDup (features candidate_profile)
  /\ exists score feature_overlap token_overlap : Q,
       textual_similarity similarity_engine target_profile candidate_profile
       = Some (score, (feature_overlap, token_overlap))
       /\ textual_similarity similarity_engine candidate_profile
                             target_profile
          = Some (score, (feature_overlap, token_overlap))
       /\ 0 <= score <= 1.
Proof.
  cbv zeta.
  assert (N1 : NoDup [utf8 "navi"; utf8 "leder"]).
  { repeat constructor; simpl; intros H;
      repeat (destruct H as [H | H]; [discriminate H|]); exact H. }
  assert (N2 : NoDup [utf8 "heated_seats"]).
  { repeat constructor; simpl; intros H; exact H. }
  assert (N3 : NoDup [utf8 "leder"; utf8 "xenon"]).
  { repeat constructor; simpl; intros H;
      repeat (destruct H as [H | H]; [discriminate H|]); exact H. }
  split; [exact N1|]. split; [exact N2|]. split; [exact N3|].
  split; [exact N2|].
  destruct (textual_similarity_profile
              (mkTextProfile [utf8 "navi"; utf8 "leder"]
                             [utf8 "heated_seats"])
              (mkTextProfile [utf8 "leder"; utf8 "xenon"]
                             [utf8 "heated_seats"]) N1 N2 N3 N2)
    as [s [f [t [E [_ [R [_ [_ [E' _]]]]]]]]].
  exists s, f, t. split; [exact E|]. split; [exact E' | exact R].
Defined.

End EngineText.

Section EngineScore.
Import Payloads Similarity Handler Engine.
Local Open Scope Q_scope.

Lemma categorical_in_unit (target candidate : Payload) :
  0 <= fst (categorical_similarity target candidate) <= 1.
Proof.
  rewrite (categorical_similarity_formula target candidate).
  destruct (mm_score_values target candidate) as [-> | [-> | ->]],
    (cat_score_values (body_of target) (body_of candidate))
      as [-> | [-> | ->]],
    (cat_score_values (fuel_of target) (fuel_of candidate))
      as [-> | [-> | ->]],
    (cat_score_values (trans_of target) (trans_of candidate))
      as [-> | [-> | ->]],
    (cat_score_values (color_of target) (color_of candidate))
      as [-> | [-> | ->]]; split; lra.
Qed.

Lemma numeric_in_unit (target candidate : NumericFields)
    (tolerances : ToleranceConfig) :
  exists numeric components,
    numeric_similarity similarity_engine target candidate tolerances
    = Some (numeric, components)
    /\ 0 <= numeric <= 1.
Proof.
  destruct default_numeric_weights_found
    as [wa [wm [wp [Ea [Em [Ep [Ha [Hm Hp]]]]]]]].
  unfold numeric_similarity. cbv zeta. rewrite Ea, Em, Ep.
  set (age := match age_months target, age_months candidate with
              | Some target_age, Some candidate_age => _
              | _, _ => 1 # 2
              end).
  set (mileage := ratio_window_score (Engine.mileage_km target)
                    (Engine.mileage_km candidate) _ _).
  set (power := ratio_window_score (Engine.power_kw target)
                  (Engine.power_kw candidate) _ _).
  assert (Rage : 0 <= age <= 1).
  { unfold age. destruct (age_months target), (age_months candidate);
      try lra. apply bs_range. }
  assert (Rm : 0 <= mileage <= 1) by apply ratio_window_score_range.
  assert (Rp : 0 <= power <= 1) by apply ratio_window_score_range.
  assert (Hpos : Qle_bool (0 + wa + wm + wp) 0 = false).
  { destruct (Qle_bool (0 + wa + wm + wp) 0) eqn:E; [|reflexivity].
    apply Qle_bool_iff in E. lra. }
  rewrite Hpos.
  eexists. eexists. split; [reflexivity|].
  assert (Hs : (0 + wa * age + wm * mileage + wp * power) / (0 + wa + wm + wp)
               == (4 # 10) * age + (4 # 10) * mileage + (2 # 10) * power).
  { assert (W : 0 + wa + wm + wp == 1) by lra.
    rewrite W, Ha, Hm, Hp. field. }
  rewrite Hs. lra.
Qed.

Lemma default_match_weights_found :
  exists w_cat w_num w_text,
    weight (match_weights similarity_engine) "categorical" = Some w_cat
    /\ weight (match_weights similarity_engine) "numeric" = Some w_num
    /\ weight (match_weights similarity_engine) "text" = Some w_text
    /\ w_cat == 45 # 100 /\ w_num == 25 # 100 /\ w_text == 30 # 100.
Proof.
  eexists. eexists. eexists.
  split; [vm_compute; reflexivity|]. split; [vm_compute; reflexivity|].
  split; [vm_compute; reflexivity|]. repeat split.
Qed.

(** X16.  With the default engine [score] always yields a match score: it
    is 0.45 categorical + 0.25 numeric + 0.30 textual of the three axis
    scores the engine computes, each axis score lies in [0, 1], and so the
    final clamp to [0, 1] never changes the weighted sum. *)
Theorem match_score_is_weighted_sum (target candidate : Payload)
    (target_numbers candidate_numbers : NumericFields)
    (tolerances : ToleranceConfig)
    (target_profile candidate_profile : TextProfile) :
  exists final categorical numeric textual : Q,
    score similarity_engine target candidate target_numbers candidate_numbers
          tolerances target_profile candidate_profile
    = Some (final, (categorical, numeric, textual))
    /\ categorical = fst (categorical_similarity target candidate)
    /\ option_map fst
         (numeric_similarity similarity_engine target_numbers
                             candidate_numbers tolerances) = Some numeric
    /\ option_map fst
         (textual_similarity similarity_engine target_profile
                             candidate_profile) = Some textual
    /\ 0 <= categorical <= 1 /\ 0 <= numeric <= 1 /\ 0 <= textual <= 1
    /\ final == (45 # 100) * categorical + (25 # 100) * numeric
                + (30 # 100) * textual
    /\ 0 <= final <= 1.
Proof.
  destruct default_match_weights_found
    as [wc [wn [wt [Ec [En [Et [Hc [Hn Ht]]]]]]]].
  destruct default_text_weights_found as [wf [wk [Ef [Ek [Hf Hk]]]]].
  destruct (numeric_in_unit target_numbers candidate_numbers tolerances)
    as [numeric [components [Enum Rnum]]].
  pose proof (categorical_in_unit target candidate) as Rcat.
  pose proof (overlap_range (features target_profile)
                            (features candidate_profile)) as Rf.
  pose proof (overlap_range (tokens target_profile)
                            (tokens candidate_profile)) as Rt.
  unfold score.
  destruct (categorical_similarity target candidate) as [cat comps] eqn:Ecat.
  cbn [fst] in Rcat.
  rewrite Enum.
  rewrite (textual_form wf wk target_profile candidate_profile Ef Ek).
  rewrite Ec, En, Et. cbv zeta.
  set (fo := overlap (features target_profile) (features candidate_profile))
    in *.
  set (to := overlap (tokens target_profile) (tokens candidate_profile)) in *.
  assert (Rtext : 0 <= wf * fo + wk * to <= 1) by (rewrite Hf, Hk; lra).
  assert (Rtotal : 0 <= wc * cat + wn * numeric + wt * (wf * fo + wk * to)
                   <= 1).
  { rewrite Hc, Hn, Ht. lra. }
  eexists. exists cat, numeric, (wf * fo + wk * to).
  split; [reflexivity|]. split; [reflexivity|].
  split; [reflexivity|]. split; [reflexivity|].
  split; [exact Rcat|]. split; [exact Rnum|]. split; [exact Rtext|].
  split.
  - rewrite (clamp01_id _ (proj1 Rtotal) (proj2 Rtotal)).
    rewrite Hc, Hn, Ht. reflexivity.
  - apply clamp01_bounds.
Qed.

End EngineScore.

(* ------------------------------------------------------------------ *)
(** ** Further properties of the deal scorer *)
(* ------------------------------------------------------------------ *)

Section DealMore.
Import Deal.
Local Open Scope R_scope.

Lemma exp_le (x y : R) : x <= y -> exp x <= exp y.
Proof.
  intros [H | ->]; [left; apply exp_increasing, H | right; reflexivity].
Qed.

Lemma sigmoid_antitone (x y : R) :
  x <= y -> 1 / (1 + exp y) <= 1 / (1 + exp x).
Proof.
  intros H. pose proof (exp_pos x). pose proof (exp_le x y H).
  unfold Rdiv. rewrite !Rmult_1_l.
  apply Rinv_le_contravar; lra.
Qed.

Lemma clamp_mono (x y : R) : x <= y -> Rmax 0 (Rmin 1 x) <= Rmax 0 (Rmin 1 y).
Proof.
  intros H. apply Rle_max_compat_l. apply Rle_min_compat_l. exact H.
Qed.

Lemma discount_antitone (m p1 p2 : R) :
  0 < m -> p1 <= p2 -> - 6 * ((m - p1) / m) <= - 6 * ((m - p2) / m).
Proof.
  intros Hm Hp.
  assert (H : (m - p2) / m <= (m - p1) / m).
  { unfold Rdiv. apply Rmult_le_compat_r; [|lra].
    left. apply Rinv_0_lt_compat, Hm. }
  lra.
Qed.

Lemma positive_gt (x : option R) (v : R) : positive x = Some v -> 0 < v.
Proof.
  unfold positive. destruct x as [r|]; [|discriminate].
  destruct (Rlt_dec 0 r); [|discriminate]. intros [= <-]. assumption.
Qed.

(** X17.  Other inputs fixed, a dearer candidate never gets a better deal:
    when the price goes up, the comparable score, the hedonic score and the
    deal score do not go up. *)
Theorem deal_never_rises_with_price
    (price price' : R)
    (percentile median_price target_price target_mileage
     candidate_mileage : option R) :
  price <= price' ->
  let cheap :=
    compute_deal_score (Some price) percentile median_price target_price
                       target_mileage candidate_mileage in
  let dear :=
    compute_deal_score (Some price') percentile median_price target_price
                       target_mileage candidate_mileage in
  comparable (snd dear) <= comparable (snd cheap)
  /\ hedonic (snd dear) <= hedonic (snd cheap)
  /\ fst dear <= fst cheap
  /\ mileage_ratio (snd dear) = mileage_ratio (snd cheap).
Proof.
  intros Hp. cbv zeta. unfold compute_deal_score.
  cbn [fst snd comparable hedonic mileage_ratio].
  set (base := fun p : R =>
         match
           match positive median_price with
           | Some m => Some ((m - p) / m)
           | None => None
           end
         with
         | Some d => 1 / (1 + exp (- 6 * d))
         | None =>
             match percentile with
             | Some pct => Rmax 0 (Rmin 1 (1 - pct))
             | None => 5 / 10
             end
         end).
  assert (Hbase : base price' <= base price).
  { unfold base. destruct (positive median_price) as [m|] eqn:E; [|lra].
    apply positive_gt in E. apply sigmoid_antitone.
    apply discount_antitone; assumption. }
  set (ratio :=
         match truthy target_mileage, truthy candidate_mileage with
         | Some t, Some c => Some ((c - t) / Rmax t 1)
         | _, _ => None
         end).
  set (adjust := fun comps : R =>
         match ratio with
         | Some r =>
             if Rlt_dec 0 r
             then comps - Rmin (r / (15 / 10)) 1 * (25 / 100)
             else comps + Rmin (Rabs r / (15 / 10)) 1 * (15 / 100)
         | None => comps
         end).
  assert (Hadj : adjust (base price') <= adjust (base price)).
  { unfold adjust. destruct ratio as [r|]; [|exact Hbase].
    destruct (Rlt_dec 0 r); lra. }
  change (adjust (base price') <= adjust (base price)
          /\ match positive target_price with
             | Some tp => 1 / (1 + exp (- 6 * ((tp - price') / tp)))
             | None => adjust (base price')
             end
             <= match positive target_price with
                | Some tp => 1 / (1 + exp (- 6 * ((tp - price) / tp)))
                | None => adjust (base price)
                end
          /\ Rmax 0 (Rmin 1
               (5 / 10 * adjust (base price')
                + 5 / 10 * match positive target_price with
                           | Some tp =>
                               1 / (1 + exp (- 6 * ((tp - price') / tp)))
                           | None => adjust (base price')
                           end))
             <= Rmax 0 (Rmin 1
                  (5 / 10 * adjust (base price)
                   + 5 / 10 * match positive target_price with
                              | Some tp =>
                                  1 / (1 + exp (- 6 * ((tp - price) / tp)))
                              | None => adjust (base price)
                              end))
          /\ ratio = ratio).
  assert (Hhed : match positive target_price with
                 | Some tp => 1 / (1 + exp (- 6 * ((tp - price') / tp)))
                 | None => adjust (base price')
                 end
                 <= match positive target_price with
                    | Some tp => 1 / (1 + exp (- 6 * ((tp - price) / tp)))
                    | None => adjust (base price)
                    end).
  { destruct (positive target_price) as [tp|] eqn:E; [|exact Hadj].
    apply positive_gt in E. apply sigmoid_antitone.
    apply discount_antitone; assumption. }
  split; [exact Hadj|]. split; [exact Hhed|].
  split; [apply clamp_mono; lra | reflexivity].
Qed.

Lemma deal_never_rises_with_price_witness :
  20000 <= 25000
  /\ fst (compute_deal_score (Some 25000) (Some (1 / 2)) (Some 22000)
                             (Some 24000) (Some 45000) (Some 43000))
     <= fst (compute_deal_score (Some 20000) (Some (1 / 2)) (Some 22000)
                                (Some 24000) (Some 45000) (Some 43000)).
Proof.
  assert (H : 20000 <= 25000) by lra.
  split; [exact H|].
  apply (deal_never_rises_with_price 20000 25000 (Some (1 / 2)) (Some 22000)
           (Some 24000) (Some 45000) (Some 43000) H).
Defined.

(** X18.  The deal scorer is neutral where it has nothing to go on: a
    missing price gives 0.5 for the deal and for both sub-scores, and so
    does a candidate priced exactly at a positive cohort median and at the
    target's price when either mileage is unknown (its discount is then
    0 percent). *)
Theorem deal_neutral_points
    (price : R)
    (percentile median_price target_price target_mileage
     candidate_mileage : option R) :
  (let result :=
     compute_deal_score None percentile median_price target_price
                        target_mileage candidate_mileage in
   fst result = 5 / 10 /\ comparable (snd result) = 5 / 10
   /\ hedonic (snd result) = 5 / 10 /\ discount_pct (snd result) = None)
  /\ (0 < price ->
      target_mileage = None \/ candidate_mileage = None ->
      let result :=
        compute_deal_score (Some price) percentile (Some price) (Some price)
                           target_mileage candidate_mileage in
      fst result = 5 / 10 /\ comparable (snd result) = 5 / 10
      /\ hedonic (snd result) = 5 / 10
      /\ discount_pct (snd result) = Some 0).
Proof.
  split; [cbn; repeat split; reflexivity|].
  intros Hp Hm. cbv zeta. unfold compute_deal_score, positive.
  destruct (Rlt_dec 0 price) as [_|H]; [|contradiction].
  assert (Hr : match truthy target_mileage, truthy candidate_mileage with
               | Some t, Some c => Some ((c - t) / Rmax t 1)
               | _, _ => None
               end = None).
  { destruct Hm as [-> | ->]; simpl; [reflexivity|].
    destruct (truthy target_mileage); reflexivity. }
  rewrite Hr. cbn [fst snd comparable hedonic discount_pct option_map].
  assert (Hd : (price - price) / price = 0) by (field; lra).
  rewrite Hd. replace (- 6 * 0) with 0 by lra. rewrite exp_0.
  assert (Hhalf : 1 / (1 + 1) = 5 / 10) by lra.
  rewrite Hhalf.
  split; [|split; [reflexivity | split; [reflexivity | f_equal; lra]]].
  rewrite Rmin_right by lra. rewrite Rmax_right by lra. lra.
Qed.

Lemma deal_neutral_points_witness :
  0 < 20000
  /\ fst (compute_deal_score (Some 20000) (Some (1 / 2)) (Some 20000)
                             (Some 20000) None (Some 43000)) = 5 / 10.
Proof.
  assert (H : 0 < 20000) by lra.
  split; [exact H|].
  apply (proj2 (deal_neutral_points 20000 (Some (1 / 2)) None None None
                  (Some 43000)) H (or_introl eq_refl)).
Defined.

End DealMore.

(* ------------------------------------------------------------------ *)
(** ** Further properties of the ranker *)
(* ------------------------------------------------------------------ *)

Section RankingMore.
Import Ranking RankingProps.

Lemma insert_desc_perm (x : Scored) (l : list Scored) :
  Permutation (insert_desc x l) (x :: l).
Proof.
  induction l as [|y t IH]; simpl; [apply Permutation_refl|].
  destruct (Qle_bool (final_score y) (final_score x));
    [apply Permutation_refl|].
  eapply Permutation_trans; [apply perm_skip, IH | apply perm_swap].
Qed.

Lemma sort_desc_perm (l : list Scored) : Permutation (sort_desc l) l.
Proof.
  unfold sort_desc. induction l as [|x l IH]; simpl; [constructor|].
  eapply Permutation_trans; [apply insert_desc_perm | apply perm_skip, IH].
Qed.

Lemma sort_desc_fixed (l : list Scored) :
  StronglySorted desc l -> sort_desc l = l.
Proof.
  unfold sort_desc. induction 1 as [|x l Hs IH Hall]; [reflexivity|].
  simpl. rewrite IH. destruct l as [|y t]; [reflexivity|].
  simpl. apply Forall_inv in Hall. unfold desc in Hall.
  apply Qle_bool_iff in Hall. rewrite Hall. reflexivity.
Qed.

(** X19.  The sort of [score_candidates] rearranges the scored payloads
    without dropping or repeating any, leaves them in non-increasing order
    of final score, and returns a list that is already in that order
    unchanged (so ties keep their retrieval order); sorting twice is
    sorting once. *)
Theorem sort_desc_is_stable_sort (l : list Scored) :
  Permutation (sort_desc l) l
  /\ nonincreasing (sort_desc l)
  /\ (nonincreasing l -> sort_desc l = l)
  /\ sort_desc (sort_desc l) = sort_desc l.
Proof.
  split; [apply sort_desc_perm|].
  split; [apply sorted_nonincreasing, sort_desc_sorted|].
  split; [|apply sort_desc_fixed, sort_desc_sorted].
  intros H. apply sort_desc_fixed.
  induction l as [|x l IH]; [constructor|].
  assert (Hl : nonincreasing l) by (destruct l; [exact I | apply H]).
  specialize (IH Hl). constructor; [exact IH|].
  destruct l as [|y t]; [constructor|].
  destruct H as [Hxy _]. constructor; [exact Hxy|].
  apply StronglySorted_inv in IH. destruct IH as [_ Hy].
  eapply Forall_impl; [|exact Hy].
  intros z Hz. unfold desc in *. eapply Qle_trans; eassumption.
Qed.

Lemma half_kept_nonempty (below : list Scored) :
  below <> [] ->
  firstn (Nat.max 1 (List.length below / 2)) below <> [].
Proof.
  destruct below as [|p below]; [contradiction|]. intros _.
  destruct (Nat.max 1 (List.length (p :: below) / 2)) eqn:E; [lia|].
  simpl. discriminate.
Qed.

Lemma filter_split_length (f : Scored -> bool) (l : list Scored) :
  (List.length (filter f l)
   + List.length (filter (fun p => negb (f p)) l))%nat = List.length l.
Proof.
  induction l as [|x l IH]; [reflexivity|].
  simpl. destruct (f x); simpl; lia.
Qed.

(** X20.  The quality floor never invents, repeats or loses a good
    candidate and never empties the list: every result is one of the
    scored payloads, the result is no longer than the input, every payload
    with a match score of at least 0.30 is in the result, and the result is
    empty only when there was no candidate at all. *)
Theorem quality_floor_keeps_good_candidates (scored : list Scored) :
  (forall p, In p (rank_scored scored) -> In p scored)
  /\ (List.length (rank_scored scored) <= List.length scored)%nat
  /\ (forall p, In p scored -> above_floor p = true ->
                In p (rank_scored scored))
  /\ (rank_scored scored = [] <-> scored = []).
Proof.
  pose proof (sort_desc_perm scored) as Hperm.
  assert (Hlen : List.length (sort_desc scored) = List.length scored)
    by (apply Permutation_length, Hperm).
  assert (Hin : forall p, In p (sort_desc scored) <-> In p scored).
  { intros p. split; apply Permutation_in;
      [exact Hperm | apply Permutation_sym, Hperm]. }
  unfold rank_scored.
  set (sorted := sort_desc scored) in *.
  pose proof (filter_split_length above_floor sorted) as Hsplit.
  set (above := filter above_floor sorted) in *.
  set (below := filter (fun p => negb (above_floor p)) sorted) in *.
  destruct ((2 * List.length above <? List.length sorted)%nat
            && (0 <? List.length sorted)%nat) eqn:E.
  - apply andb_true_iff in E. destruct E as [E1 E2].
    apply Nat.ltb_lt in E1, E2.
    split; [|split; [|split]].
    + intros p Hp. apply Hin. apply in_app_or in Hp.
      destruct Hp as [Hp | Hp].
      * unfold above in Hp. apply filter_In in Hp. tauto.
      * apply in_firstn in Hp. unfold below in Hp.
        apply filter_In in Hp. tauto.
    + rewrite length_app, length_firstn. lia.
    + intros p Hp Ha. apply in_or_app. left. unfold above.
      apply filter_In. split; [apply Hin, Hp | exact Ha].
    + split.
      * intros H. apply app_eq_nil in H. destruct H as [_ H].
        exfalso. revert H. apply half_kept_nonempty.
        intros Hb. rewrite Hb in Hsplit. simpl in Hsplit.
        clear - Hsplit E1 E2. clearbody above sorted. lia.
      * intros Hs. clearbody above below sorted.
        rewrite Hs in Hlen. simpl in Hlen. lia.
  - split; [|split; [|split]].
    + intros p Hp. apply Hin. unfold above in Hp.
      apply filter_In in Hp. tauto.
    + lia.
    + intros p Hp Ha. unfold above. apply filter_In.
      split; [apply Hin, Hp | exact Ha].
    + split.
      * intros H. clearbody above below sorted.
        rewrite H in E. simpl in E.
        apply andb_false_iff in E.
        destruct scored as [|q scored]; [reflexivity|].
        simpl in Hlen.
        destruct E as [E | E]; apply Nat.ltb_ge in E; lia.
      * intros Hs. subst scored. reflexivity.
Qed.

End RankingMore.

(* ------------------------------------------------------------------ *)
(** ** Further properties of the request handlers *)
(* ------------------------------------------------------------------ *)

Section EndpointMore.
Import PyStr Normalize Store Retrieval RetrievalProps Payloads Ranking.
Import Handler Listings.
Local Open Scope Q_scope.

Variable now : Q.
Variable scoring_loop : Payload -> list Row -> ToleranceConfig -> list Scored.

(** The two ranking weights for any [balance]: they share 0.85. *)
Lemma rank_weights_total (balance : Q) :
  fst (rank_weights balance) + snd (rank_weights balance) == 85 # 100
  /\ 35 # 100 <= fst (rank_weights balance) <= 17 # 24
  /\ 17 # 120 <= snd (rank_weights balance) <= 50 # 100.
Proof.
  unfold rank_weights.
  set (bal := Qmax (-1) (Qmin 1 balance)).
  assert (Hbal : -1 <= bal <= 1).
  { unfold bal.
    destruct (Q.min_spec 1 balance) as [[? Hm] | [? Hm]];
      destruct (Q.max_spec (-1) (Qmin 1 balance)) as [[? HM] | [? HM]];
      split; lra. }
  set (ar := Qmax (15 # 100) ((55 # 100) + bal * (2 # 10))).
  assert (Har : ar == (55 # 100) + bal * (2 # 10)).
  { unfold ar.
    destruct (Q.max_spec (15 # 100) ((55 # 100) + bal * (2 # 10)))
      as [[? HM] | [? HM]]; lra. }
  set (br := Qmax (15 # 100) ((30 # 100) - bal * (2 # 10))).
  assert (Hbr : (bal <= 3 # 4 /\ br == (30 # 100) - bal * (2 # 10))
                \/ (3 # 4 < bal /\ br == 15 # 100)).
  { unfold br.
    destruct (Qlt_le_dec (3 # 4) bal) as [Hq | Hq]; [right | left];
      (split; [exact Hq|]);
      destruct (Q.max_spec (15 # 100) ((30 # 100) - bal * (2 # 10)))
        as [[? HM] | [? HM]]; lra. }
  destruct (Qle_bool (ar + br) 0) eqn:E.
  { apply Qle_bool_iff in E. destruct Hbr as [[? ?] | [? ?]]; lra. }
  clear E. cbv zeta beta iota.
  set (s := (85 # 100) / (ar + br)).
  assert (Hsum0 : 85 # 100 <= ar + br <= 90 # 100)
    by (destruct Hbr as [[? ?] | [? ?]]; lra).
  assert (Hs : s * (ar + br) == 85 # 100) by (unfold s; field; lra).
  assert (Hspos : 0 < s) by nra.
  assert (Hs1 : s <= 1) by nra.
  assert (Hs2 : 17 # 18 <= s) by nra.
  assert (Hsum : ar * s + br * s == 85 # 100) by lra.
  assert (Hbs : 17 # 120 <= br * s)
    by (destruct Hbr as [[? ?] | [? ?]]; nra).
  assert (Has : 35 # 100 <= ar * s).
  { destruct Hbr as [[? Hb] | [? Hb]].
    - assert (s == 1) by nra. nra.
    - nra. }
  cbn [fst snd].
  set (aw := Qmax (1 # 10) (Qmin (85 # 100) (ar * s))).
  set (bw := Qmax (1 # 10) (Qmin (85 # 100) (br * s))).
  assert (Haw : aw == ar * s).
  { unfold aw.
    destruct (Q.min_spec (85 # 100) (ar * s)) as [[? Hm] | [? Hm]];
      destruct (Q.max_spec (1 # 10) (Qmin (85 # 100) (ar * s)))
        as [[? HM] | [? HM]]; lra. }
  assert (Hbw : bw == br * s).
  { unfold bw.
    destruct (Q.min_spec (85 # 100) (br * s)) as [[? Hm] | [? Hm]];
      destruct (Q.max_spec (1 # 10) (Qmin (85 # 100) (br * s)))
        as [[? HM] | [? HM]]; lra. }
  split; [lra|]. split; split; try lra.
  all: destruct Hbr as [[? Hb] | [? Hb]]; nra.
Qed.


(** X21.  A 200 answer of the comparables endpoint is consistent with its
    metadata: [returned] is the number of comparables and exceeds neither
    [top] nor the number of scored candidates; at least one raw candidate
    was found and never more than the candidate limit, which is at least
    50; a strategy is named and between one and five attempts were made;
    the four ranking weights are positive, the match and deal weights
    lying between the clamps 0.1 and 0.85 of the handler; and a warning is
    present exactly when fewer than max(top, 5) raw candidates were
    found. *)
Theorem comparables_response_counts (db : list Listing) (id : pystr)
    (args : Args) (comparables : list Scored) (metadata : Metadata) :
  comparables_endpoint now scoring_loop db id args = Ok comparables metadata ->
  returned metadata = List.length comparables
  /\ (Z.of_nat (returned metadata) <= requested_top metadata)%Z
  /\ (returned metadata <= total_candidates metadata)%nat
  /\ (1 <= raw_candidates metadata)%nat
  /\ (Z.of_nat (raw_candidates metadata)
      <= Z.max 50 (parse_int (arg_max_candidates args) 400))%Z
  /\ filter_strategy metadata <> None
  /\ (1 <= relaxation_attempts_count metadata <= 5)%nat
  /\ (let '(alpha, beta, freshness, trust) := weights metadata in
      1 # 10 <= alpha <= 85 # 100 /\ 1 # 10 <= beta <= 85 # 100
      /\ 0 < freshness /\ 0 < trust)
  /\ (meta_warning metadata <> None
      <-> (Z.of_nat (raw_candidates metadata)
           < Z.max (requested_top metadata) 5)%Z).
Proof.
  unfold comparables_endpoint.
  destruct (parse_top (arg_top args)) as [top|] eqn:Etop; [|discriminate].
  apply parse_top_range in Etop.
  destruct (fetch_vehicle db id) as [target_row|]; [|discriminate].
  pose proof (rank_weights_total (parse_float (arg_balance args) 0)) as Hw.
  destruct (rank_weights _) as [alpha beta]. cbn [fst snd] in Hw.
  set (options := mkOptions _ _).
  set (target_year := p_year _).
  pose proof (find_candidate_rows_cases db target_row target_year options)
    as H. cbv zeta in H.
  pose proof (attempt_rows_length db target_row target_year options) as Hlim.
  destruct (find_candidate_rows db target_row target_year options)
    as [[|r rows] dbg] eqn:Ef; [discriminate|].
  intros [= <- <-].
  cbn [returned requested_top total_candidates raw_candidates
       filter_strategy relaxation_attempts_count weights meta_warning].
  split; [reflexivity|].
  split.
  { pose proof (firstn_le_length (Z.to_nat top)
                  (score_candidates scoring_loop
                     (format_vehicle_payload now target_row) (r :: rows)
                     (mkToleranceConfig
                        (Z.max 0 (parse_int (arg_year_variance args) 2))
                        (parse_float (arg_mileage_variance_multiplier args) 2)
                        (parse_float (arg_mileage_min_window args) 5000)
                        (parse_float (arg_power_variance_pct args) (15 # 100))
                        (parse_float (arg_power_min_window args) 15)
                        alpha beta (10 # 100) (5 # 100)))) as L.
    lia. }
  split; [rewrite length_firstn; apply Nat.le_min_r|].
  split; [simpl; lia|].
  assert (Hraw : (List.length (r :: rows) <= candidate_limit options)%nat).
  { destruct H as [[E _] | [[pre [a [post [_ [Er _]]]]]
                          | [best [_ [Er _]]]]].
    - discriminate E.
    - injection Er as Er _. rewrite Er. apply Hlim.
    - injection Er as Er _. rewrite Er. apply Hlim. }
  split.
  { unfold options in Hraw. cbn [candidate_limit List.length] in Hraw.
    lia. }
  split.
  { destruct H as [[E _] | [[pre [a [post [_ [Er _]]]]]
                          | [best [_ [Er _]]]]].
    - discriminate E.
    - injection Er as _ Er. rewrite Er. discriminate.
    - injection Er as _ Er. rewrite Er. discriminate. }
  split.
  { destruct H as [[E _] | [[pre [a [post [E [Er _]]]]]
                          | [best [_ [Er _]]]]].
    - discriminate E.
    - injection Er as _ Er. rewrite Er. cbn [attempts].
      assert (L : List.length relaxation_attempts = 5%nat) by reflexivity.
      rewrite E, length_app in L. simpl in L.
      rewrite ?length_map, ?length_app. simpl. lia.
    - injection Er as _ Er. rewrite Er. cbn [attempts].
      rewrite ?length_map. simpl. lia. }
  split; [lra|].
  destruct H as [[E _] | [[pre [a [post [_ [Er [Hmin _]]]]]]
                          | [best [_ [Er [_ [Hlt _]]]]]]].
  - discriminate E.
  - injection Er as Er1 Er2. rewrite Er2. cbn [warning].
    rewrite <- Er1 in Hmin. unfold options in Hmin.
    cbn [min_results List.length] in Hmin.
    split; [intros Hn; contradiction | lia].
  - injection Er as Er1 Er2. rewrite Er2. cbn [warning].
    rewrite <- Er1 in Hlt. unfold options in Hlt.
    cbn [min_results List.length] in Hlt.
    split; [intros _; exact Hlt | discriminate].
Qed.




End EndpointMore.

Section EndpointMoreInstances.
Import PyStr Store Retrieval Payloads Ranking Handler Samples.
Local Open Scope Q_scope.

Lemma comparables_response_counts_witness :
  exists comparables metadata,
    comparables_endpoint 0 flat_scoring sample_db (utf8 "t") (request None)
    = Ok comparables metadata
    /\ returned metadata = List.length comparables
    /\ (1 <= raw_candidates metadata)%nat
    /\ (let '(alpha, beta, freshness, trust) := weights metadata in
        1 # 10 <= alpha <= 85 # 100 /\ 1 # 10 <= beta <= 85 # 100).
Proof.
  destruct (comparables_endpoint 0 flat_scoring sample_db (utf8 "t")
                                 (request None))
    as [comparables metadata | | | debug] eqn:E;
    try (vm_compute in E; discriminate E).
  exists comparables, metadata. split; [reflexivity|].
  destruct (comparables_response_counts 0 flat_scoring sample_db (utf8 "t")
              (request None) comparables metadata E)
    as [H1 [_ [_ [H2 [_ [_ [_ [H3 _]]]]]]]].
  split; [exact H1|]. split; [exact H2|].
  destruct (weights metadata) as [[[alpha beta] freshness] trust].
  destruct H3 as [Ha [Hb _]]. split; [exact Ha | exact Hb].
Defined.

End EndpointMoreInstances.

(* ------------------------------------------------------------------ *)
(** ** The explanation builder *)
(* ------------------------------------------------------------------ *)

Section ExplainMore.
Import PyStr Payloads Similarity Explain.
Local Open Scope Q_scope.

Lemma hard_matches_shape (target candidate : Payload) :
  hard_matches (snd (categorical_similarity target candidate))
  = [ ("Make & Model"%string,
       (hard_match_status (Some (mm_score_of target candidate)),
        mm_score_of target candidate));
      ("Body Type"%string,
       (hard_match_status
          (Some (cat_score (body_of target) (body_of candidate))),
        cat_score (body_of target) (body_of candidate))) ].
Proof. reflexivity. Qed.

(** X24.  The hard matches of an explanation are exactly two, make and
    model and body type, in this order; fuel, transmission and colour are
    not shown.  The status is never "unknown": it is "match" with score 1,
    "partial" with score 0.5 or "mismatch" with score 0.  The body type is
    "partial" exactly when a side has no body value and "match" exactly
    when both have one and they agree after accent and case folding; make
    and model are "partial" exactly when one of the four names is blank. *)
Theorem hard_matches_of_categorical (target candidate : Payload) :
  let mm := mm_score_of target candidate in
  let body := cat_score (body_of target) (body_of candidate) in
  exists mm_status body_status : string,
    hard_matches (snd (categorical_similarity target candidate))
    = [ ("Make & Model"%string, (mm_status, mm));
        ("Body Type"%string, (body_status, body)) ]
    /\ ((mm_status = "match"%string /\ mm = 1)
        \/ (mm_status = "partial"%string /\ mm = 1 # 2)
        \/ (mm_status = "mismatch"%string /\ mm = 0))
    /\ ((body_status = "match"%string /\ body = 1)
        \/ (body_status = "partial"%string /\ body = 1 # 2)
        \/ (body_status = "mismatch"%string /\ body = 0))
    /\ (body_status = "partial"%string
        <-> body_of target = None \/ body_of candidate = None)
    /\ (body_status = "match"%string
        <-> exists x y, body_of target = Some x
                        /\ body_of candidate = Some y
                        /\ lower (strip_accents x) = lower (strip_accents y))
    /\ (mm_status = "partial"%string
        <-> norm_value (p_make target) = None
            \/ norm_value (p_model target) = None
            \/ norm_value (p_make candidate) = None
            \/ norm_value (p_model candidate) = None).
Proof.
  cbv zeta.
  exists (hard_match_status (Some (mm_score_of target candidate))),
         (hard_match_status
            (Some (cat_score (body_of target) (body_of candidate)))).
  split; [apply hard_matches_shape|].
  split.
  { unfold mm_score_of.
    destruct (norm_value (p_make target)), (norm_value (p_model target)),
      (norm_value (p_make candidate)), (norm_value (p_model candidate));
      try (right; left; split; reflexivity).
    destruct (_ && _); [left | right; right]; split; reflexivity. }
  split.
  { unfold cat_score.
    destruct (body_of target), (body_of candidate);
      try (right; left; split; reflexivity).
    destruct (eqb _ _); [left | right; right]; split; reflexivity. }
  split.
  { unfold cat_score.
    destruct (body_of target) as [x|], (body_of candidate) as [y|];
      try (split; [intros _; tauto | reflexivity]).
    destruct (eqb _ _);
      (split; [intros H; discriminate H | intros [H | H]; discriminate H]). }
  split.
  { unfold cat_score.
    destruct (body_of target) as [x|], (body_of candidate) as [y|];
      try (split; [intros H; discriminate H
                  | intros [x' [y' [H1 [H2 _]]]]; discriminate]).
    destruct (eqb _ _) eqn:E.
    - split; [|reflexivity]. intros _. apply eqb_eq in E.
      exists x, y. repeat split. exact E.
    - split; [intros H; discriminate H|].
      intros [x' [y' [[= <-] [[= <-] H]]]].
      rewrite H, eqb_refl in E. discriminate E. }
  unfold mm_score_of.
  destruct (norm_value (p_make target)), (norm_value (p_model target)),
    (norm_value (p_make candidate)), (norm_value (p_model candidate));
    try (split; [intros _; tauto | reflexivity]).
  destruct (_ && _);
    (split; [intros H; discriminate H
            | intros [H | [H | [H | H]]]; discriminate H]).
Qed.

End ExplainMore.

(* ------------------------------------------------------------------ *)
(** ** The price cohort *)
(* ------------------------------------------------------------------ *)

Section CohortMore.
Import Cohort CohortProps.
Local Open Scope Q_scope.

Lemma insert_price_count (f : Q -> bool) (x : Q) (l : list Q) :
  count f (insert_price x l) = count f (x :: l).
Proof.
  unfold count. induction l as [|y l IH]; [reflexivity|].
  simpl. destruct (Qle_bool x y); [reflexivity|].
  simpl in *. destruct (f y), (f x); simpl in *; lia.
Qed.

Lemma sorted_count (f : Q -> bool) (l : list Q) :
  count f (sorted l) = count f l.
Proof.
  induction l as [|x l IH]; [reflexivity|].
  simpl. rewrite insert_price_count. unfold count in *. simpl.
  destruct (f x); simpl; lia.
Qed.

Lemma sorted_length (l : list Q) : List.length (sorted l) = List.length l.
Proof.
  pose proof (sorted_count (fun _ => true) l) as H. unfold count in H.
  assert (F : forall k : list Q, filter (fun _ => true) k = k).
  { induction k as [|x k IH]; [reflexivity | simpl; rewrite IH; reflexivity]. }
  rewrite !F in H. exact H.
Qed.

Lemma insert_price_sorted (x : Q) (l : list Q) :
  StronglySorted Qle l -> StronglySorted Qle (insert_price x l).
Proof.
  induction 1 as [|y l Hs IH Hy]; simpl.
  - constructor; constructor.
  - destruct (Qle_bool x y) eqn:E.
    + apply Qle_bool_iff in E. constructor; [constructor; assumption|].
      constructor; [exact E|].
      eapply Forall_impl; [|exact Hy]. intros z Hz. lra.
    + assert (Hyx : y <= x).
      { destruct (Qlt_le_dec y x) as [H | H]; [lra|].
        apply Qle_bool_iff in H. congruence. }
      constructor; [exact IH|].
      assert (Hin : forall z, In z (insert_price x l) -> z = x \/ In z l).
      { clear. induction l as [|w l IH]; simpl.
        - intros z [<- | []]. left. reflexivity.
        - destruct (Qle_bool x w); simpl.
          + intros z [<- | [<- | H]]; [left | right; left | right; right];
              auto.
          + intros z [<- | H]; [right; left; reflexivity|].
            destruct (IH z H) as [-> | H']; [left | right; right]; auto. }
      apply Forall_forall. intros z Hz.
      destruct (Hin z Hz) as [-> | Hz']; [exact Hyx|].
      rewrite Forall_forall in Hy. apply Hy, Hz'.
Qed.

Lemma sorted_sorted (l : list Q) : StronglySorted Qle (sorted l).
Proof.
  induction l as [|x l IH]; [constructor|].
  simpl. apply insert_price_sorted, IH.
Qed.

Lemma count_le_mono (f g : Q -> bool) (l : list Q) :
  (forall x, f x = true -> g x = true) -> (count f l <= count g l)%nat.
Proof.
  intros H. unfold count. induction l as [|x l IH]; [apply Nat.le_refl|].
  simpl. destruct (f x) eqn:E.
  - rewrite (H x E). simpl. lia.
  - destruct (g x); simpl; lia.
Qed.

Lemma count_all (f : Q -> bool) (l : list Q) :
  Forall (fun x => f x = true) l -> count f l = List.length l.
Proof.
  unfold count. induction 1 as [|x l Hx _ IH]; [reflexivity|].
  simpl. rewrite Hx. simpl. rewrite IH. reflexivity.
Qed.

Lemma count_none (f : Q -> bool) (l : list Q) :
  Forall (fun x => f x = false) l -> count f l = 0%nat.
Proof.
  unfold count. induction 1 as [|x l Hx _ IH]; [reflexivity|].
  simpl. rewrite Hx. exact IH.
Qed.

Lemma count_app (f : Q -> bool) (l k : list Q) :
  count f (l ++ k) = (count f l + count f k)%nat.
Proof. unfold count. rewrite filter_app, length_app. reflexivity. Qed.

Lemma count_below_length (f : Q -> bool) (l : list Q) (x : Q) :
  In x l -> f x = false -> (count f l < List.length l)%nat.
Proof.
  unfold count. induction l as [|y l IH]; [intros []|].
  intros [-> | Hin] Hx; simpl.
  - rewrite Hx. pose proof (filter_length_le f l). lia.
  - specialize (IH Hin Hx). destruct (f y); simpl; lia.
Qed.

(** On a sorted list [bisect_left] counts the elements below [x]. *)
Lemma bisect_left_count (l : list Q) (x : Q) :
  StronglySorted Qle l -> bisect_left l x = cheaper l x.
Proof.
  unfold cheaper.
  induction 1 as [|y l Hs IH Hy]; [reflexivity|].
  simpl. unfold count in *. simpl. destruct (Qle_bool x y) eqn:E; simpl.
  - apply Qle_bool_iff in E. symmetry.
    apply (count_none (fun z => negb (Qle_bool x z))).
    eapply Forall_impl; [|exact Hy]. intros z Hz. cbv beta.
    apply negb_false_iff, Qle_bool_iff. lra.
  - rewrite IH. reflexivity.
Qed.

Lemma inject_nat_pos (n : nat) : (0 < n)%nat -> 0 < inject_Z (Z.of_nat n).
Proof.
  intros H. replace 0 with (inject_Z 0) by reflexivity.
  rewrite <- Zlt_Qlt. lia.
Qed.

Lemma inject_nat_le (n m : nat) :
  (n <= m)%nat -> inject_Z (Z.of_nat n) <= inject_Z (Z.of_nat m).
Proof. intros H. rewrite <- Zle_Qle. lia. Qed.

(** The percentile of a cohort of at least two prices. *)
Lemma price_percentile_value (prices : list Q) (v : Q) :
  (2 <= List.length prices)%nat ->
  price_percentile (sorted prices) (Some v)
  = Some (Qmax 0 (Qmin 1 (inject_Z (Z.of_nat (cheaper prices v))
                          / inject_Z (Z.of_nat (List.length prices - 1))))).
Proof.
  intros Hn. unfold price_percentile.
  pose proof (sorted_length prices) as Hlen.
  pose proof (bisect_left_count (sorted prices) v (sorted_sorted prices))
    as Hpos.
  unfold cheaper in Hpos. rewrite sorted_count in Hpos.
  fold (cheaper prices v) in Hpos.
  destruct (sorted prices) as [|a [|b rest]] eqn:E;
    [simpl in Hlen; lia | simpl in Hlen; lia |].
  rewrite Hpos, Hlen. reflexivity.
Qed.

(** X25.  In a cohort of at least two prices the percentile of a price is
    the number of strictly cheaper prices over n - 1, capped at 1: it lies
    in [0, 1], never falls when the price rises, is 0 exactly for a price
    no cohort price undercuts, and for a price of the cohort itself the
    ratio is not capped. *)
Theorem price_percentile_profile (prices : list Q) (v v' : Q) :
  (2 <= List.length prices)%nat ->
  let price_values := sorted prices in
  let share (x : Q) :=
    inject_Z (Z.of_nat (cheaper prices x))
    / inject_Z (Z.of_nat (List.length prices - 1)) in
  exists q q' : Q,
    price_percentile price_values (Some v) = Some q
    /\ price_percentile price_values (Some v') = Some q'
    /\ 0 <= q <= 1
    /\ q == Qmin 1 (share v)
    /\ (In v prices -> q == share v)
    /\ (q == 0 <-> Forall (fun y => v <= y) prices)
    /\ (v <= v' -> q <= q').
Proof.
  intros Hn. cbv zeta.
  rewrite !(price_percentile_value prices _ Hn).
  eexists. eexists. split; [reflexivity|]. split; [reflexivity|].
  set (d := inject_Z (Z.of_nat (List.length prices - 1))).
  assert (Hd : 0 < d) by (apply inject_nat_pos; lia).
  assert (Hc : forall x, 0 <= inject_Z (Z.of_nat (cheaper prices x))).
  { intros x. replace 0 with (inject_Z 0) by reflexivity.
    rewrite <- Zle_Qle. lia. }
  assert (Hs : forall x, 0 <= inject_Z (Z.of_nat (cheaper prices x)) / d).
  { intros x. apply Qle_shift_div_l; [exact Hd|]. specialize (Hc x). lra. }
  assert (Hq : forall x,
             Qmax 0 (Qmin 1 (inject_Z (Z.of_nat (cheaper prices x)) / d))
             == Qmin 1 (inject_Z (Z.of_nat (cheaper prices x)) / d)).
  { intros x. apply Q.max_r. apply Q.min_glb; [lra | apply Hs]. }
  split.
  { rewrite Hq. split.
    - apply Q.min_glb; [lra | apply Hs].
    - apply Q.le_min_l. }
  split; [apply Hq|].
  split.
  { intros Hin. rewrite Hq. apply Q.min_r.
    apply Qle_shift_div_r; [exact Hd|]. rewrite Qmult_1_l.
    apply inject_nat_le.
    assert (Hlt : (cheaper prices v < List.length prices)%nat).
    { apply (count_below_length _ prices v Hin).
      apply negb_false_iff, Qle_bool_iff. lra. }
    lia. }
  split.
  { rewrite Hq. split.
    - intros H0.
      assert (Hz : cheaper prices v = 0%nat).
      { destruct (cheaper prices v) as [|k] eqn:Ek; [reflexivity|].
        exfalso.
        assert (Hk : 1 <= inject_Z (Z.of_nat (S k))).
        { replace 1 with (inject_Z 1) by reflexivity.
          rewrite <- Zle_Qle. lia. }
        assert (Hpos : 0 < inject_Z (Z.of_nat (S k)) / d).
        { apply Qlt_shift_div_l; [exact Hd | lra]. }
        destruct (Q.min_spec 1 (inject_Z (Z.of_nat (S k)) / d))
          as [[? Hm] | [? Hm]]; lra. }
      unfold cheaper, count in Hz. apply Forall_forall. intros y Hy.
      destruct (Qle_bool v y) eqn:E; [apply Qle_bool_iff, E|].
      exfalso.
      assert (Hin : In y (filter (fun z => negb (Qle_bool v z)) prices))
        by (apply filter_In; split; [exact Hy | rewrite E; reflexivity]).
      destruct (filter _ prices); [destruct Hin | discriminate Hz].
    - intros Hall.
      assert (Hz : cheaper prices v = 0%nat).
      { apply count_none. eapply Forall_impl; [|exact Hall].
        intros y Hy. cbv beta. apply negb_false_iff, Qle_bool_iff, Hy. }
      rewrite Hz. change (inject_Z (Z.of_nat 0)) with 0.
      assert (E0 : 0 / d == 0) by (unfold Qdiv; apply Qmult_0_l).
      rewrite E0. apply Q.min_r. lra. }
  intros Hv. apply clamp01_mono. apply div_le_div; [exact Hd|].
  apply inject_nat_le. apply count_le_mono. intros y Hy.
  apply negb_true_iff in Hy. apply negb_true_iff.
  destruct (Qle_bool v' y) eqn:E; [|reflexivity].
  apply Qle_bool_iff in E.
  assert (Hvy : Qle_bool v y = true) by (apply Qle_bool_iff; lra).
  congruence.
Qed.

Lemma price_percentile_profile_witness :
  (2 <= List.length [20000; 15000; 30000]%Q)%nat
  /\ price_percentile (sorted [20000; 15000; 30000]%Q) (Some 20000%Q)
     = Some (Qmax 0 (Qmin 1 (1 / 2)))
  /\ exists q q' : Q,
       price_percentile (sorted [20000; 15000; 30000]%Q) (Some 20000%Q) = Some q
       /\ price_percentile (sorted [20000; 15000; 30000]%Q) (Some 30000%Q)
          = Some q'
       /\ q <= q'.
Proof.
  assert (H : (2 <= List.length [20000; 15000; 30000]%Q)%nat)
    by (simpl; lia).
  split; [exact H|]. split; [reflexivity|].
  destruct (price_percentile_profile [20000; 15000; 30000]%Q 20000%Q 30000%Q H)
    as [q [q' [E1 [E2 [_ [_ [_ [_ Hm]]]]]]]].
  exists q, q'. split; [exact E1|]. split; [exact E2|].
  apply Hm. lra.
Defined.

Lemma sorted_around (l1 l2 : list Q) (a : Q) :
  StronglySorted Qle (l1 ++ a :: l2) ->
  Forall (fun y => y <= a) l1 /\ Forall (fun y => a <= y) l2.
Proof.
  induction l1 as [|x l1 IH]; simpl; intros H.
  - split; [constructor|]. inversion H; subst. assumption.
  - inversion H as [|? ? Hs Hx]; subst.
    destruct (IH Hs) as [H1 H2]. split; [|exact H2].
    constructor; [|exact H1].
    rewrite Forall_forall in Hx. apply Hx.
    apply in_or_app. right. left. reflexivity.
Qed.

(** The element at index [k] of a sorted list has at least [k + 1]
    elements not above it and at least [n - k] not below it. *)
Lemma sorted_nth_counts (s : list Q) (k : nat) (a : Q) :
  StronglySorted Qle s -> nth_error s k = Some a ->
  (k + 1 <= at_most s a)%nat /\ (List.length s - k <= at_least s a)%nat.
Proof.
  intros Hs Hk.
  destruct (nth_error_split s k Hk) as [l1 [l2 [-> Hlen]]].
  destruct (sorted_around l1 l2 a Hs) as [H1 H2].
  unfold at_most, at_least. rewrite !count_app, length_app. simpl.
  split.
  - rewrite (count_all (fun y => Qle_bool y a) l1).
    + unfold count at 1. simpl.
      assert (E : Qle_bool a a = true) by (apply Qle_bool_iff; lra).
      rewrite E. simpl. lia.
    + eapply Forall_impl; [|exact H1]. intros y Hy. apply Qle_bool_iff, Hy.
  - assert (E : count (fun y => Qle_bool a y) (a :: l2)
                = S (List.length l2)).
    { apply (count_all (fun y => Qle_bool a y) (a :: l2)).
      constructor; [apply Qle_bool_iff; lra|].
      eapply Forall_impl; [|exact H2]. intros y Hy. apply Qle_bool_iff, Hy. }
    rewrite E. lia.
Qed.

Lemma sorted_nth_le (s : list Q) (i j : nat) (a b : Q) :
  StronglySorted Qle s -> (i < j)%nat ->
  nth_error s i = Some a -> nth_error s j = Some b -> a <= b.
Proof.
  intros Hs Hij Hi Hj.
  destruct (nth_error_split s i Hi) as [l1 [l2 [-> Hlen]]].
  destruct (sorted_around l1 l2 a Hs) as [_ H2].
  rewrite nth_error_app2 in Hj by lia.
  destruct (j - List.length l1)%nat as [|m] eqn:Em; [lia|].
  simpl in Hj. apply nth_error_In in Hj.
  rewrite Forall_forall in H2. apply H2, Hj.
Qed.

(** X26.  The median of a non-empty list exists and splits it: at least
    half of the values are not above the median and at least half are not
    below it. *)
Theorem median_splits_data (data : list Q) :
  data <> [] ->
  exists m : Q,
    median data = Some m
    /\ (List.length data <= 2 * at_most data m)%nat
    /\ (List.length data <= 2 * at_least data m)%nat.
Proof.
  intros Hne. unfold median.
  pose proof (sorted_length data) as Hlen.
  pose proof (sorted_sorted data) as Hs.
  assert (Hpos : (0 < List.length data)%nat)
    by (destruct data; [contradiction | simpl; lia]).
  assert (Hmost : forall m, at_most (sorted data) m = at_most data m)
    by (intros m; apply sorted_count).
  assert (Hleast : forall m, at_least (sorted data) m = at_least data m)
    by (intros m; apply sorted_count).
  set (s := sorted data) in *. clearbody s. rewrite Hlen.
  remember (List.length data) as n eqn:En.
  destruct n as [|n']; [lia|]. cbv iota.
  remember (S n') as k eqn:Ek.
  assert (Hn : (0 < k)%nat) by lia.
  clear Ek n' Hpos En. rename k into n.
  destruct (Nat.odd n) eqn:Eodd.
  - assert (Hi : (n / 2 < List.length s)%nat).
    { rewrite Hlen. apply Nat.div_lt; lia. }
    destruct (nth_error s (n / 2)) as [m|] eqn:Em;
      [|apply nth_error_None in Em; lia].
    exists m. split; [reflexivity|].
    destruct (sorted_nth_counts s (n / 2) m Hs Em) as [H1 H2].
    rewrite Hmost in H1. rewrite Hleast, Hlen in H2.
    pose proof (Nat.div_mod_eq n 2) as Hdm.
    pose proof (Nat.mod_upper_bound n 2) as Hmod.
    split; lia.
  - assert (Heven : n = (2 * (n / 2))%nat).
    { pose proof (Nat.div_mod_eq n 2) as Hdm.
      assert (Hm : (n mod 2 = 0)%nat).
      { rewrite <- Nat.negb_even in Eodd. apply negb_false_iff in Eodd.
        apply Nat.even_spec in Eodd. destruct Eodd as [k ->].
        rewrite Nat.mul_comm. apply Nat.Div0.mod_mul. }
      lia. }
    assert (Hi : (1 <= n / 2)%nat) by lia.
    destruct (nth_error s (n / 2 - 1)) as [a|] eqn:Ea;
      [|apply nth_error_None in Ea; lia].
    destruct (nth_error s (n / 2)) as [b|] eqn:Eb;
      [|apply nth_error_None in Eb; lia].
    exists ((a + b) / 2). split; [reflexivity|].
    assert (Hab : a <= b)
      by (apply (sorted_nth_le s (n / 2 - 1) (n / 2) a b Hs); [lia | | ];
          assumption).
    assert (Ha : a <= (a + b) / 2)
      by (apply Qle_shift_div_l; lra).
    assert (Hb : (a + b) / 2 <= b)
      by (apply Qle_shift_div_r; lra).
    destruct (sorted_nth_counts s (n / 2 - 1) a Hs Ea) as [H1 _].
    destruct (sorted_nth_counts s (n / 2) b Hs Eb) as [_ H2].
    rewrite Hmost in H1. rewrite Hleast, Hlen in H2.
    assert (M1 : (at_most data a <= at_most data ((a + b) / 2))%nat).
    { apply count_le_mono. intros y Hy. apply Qle_bool_iff in Hy.
      apply Qle_bool_iff. lra. }
    assert (M2 : (at_least data b <= at_least data ((a + b) / 2))%nat).
    { apply count_le_mono. intros y Hy. apply Qle_bool_iff in Hy.
      apply Qle_bool_iff. lra. }
    split; lia.
Qed.

Lemma median_splits_data_witness :
  [20000; 15000; 30000; 18000]%Q <> []
  /\ median [20000; 15000; 30000; 18000]%Q = Some ((18000 + 20000) / 2)%Q
  /\ exists m : Q,
       median [20000; 15000; 30000; 18000]%Q = Some m
       /\ (4 <= 2 * at_most [20000; 15000; 30000; 18000]%Q m)%nat.
Proof.
  assert (H : [20000; 15000; 30000; 18000]%Q <> []) by discriminate.
  split; [exact H|]. split; [reflexivity|].
  destruct (median_splits_data [20000; 15000; 30000; 18000]%Q H)
    as [m [E [H1 _]]].
  exists m. split; [exact E | exact H1].
Defined.

End CohortMore.

(* ------------------------------------------------------------------ *)
(** ** The scoring loop *)
(* ------------------------------------------------------------------ *)

Section LoopMore.
Import PyStr Store Payloads Similarity Deal Ranking Handler Engine Cohort.
Import Loop Samples.



(** With a positive median the percentile is not read. *)
Lemma deal_percentile_free
    (price percentile percentile' median_price target_price target_mileage
     candidate_mileage : option R) (m : R) :
  Deal.positive median_price = Some m ->
  fst (compute_deal_score price percentile median_price target_price
                          target_mileage candidate_mileage)
  = fst (compute_deal_score price percentile' median_price target_price
                            target_mileage candidate_mileage).
Proof.
  intros H. unfold compute_deal_score.
  destruct price as [price|]; [|reflexivity].
  cbn [fst]. rewrite H. reflexivity.
Qed.




(** X28.  With a positive cohort median the price percentile has no
    influence on a candidate's deal score or final score: the loop gives
    the same scores whatever the list of cohort prices is. *)
Theorem deal_ignores_percentile (now : Q) (tolerances : ToleranceConfig)
    (target_payload : Payload) (target_age_months : option Z)
    (target_profile : TextProfile)
    (price_values price_values' : list Q) (m : Q)
    (candidate : Candidate) :
  (0 < m)%Q ->
  let scored :=
    score_payload now tolerances target_payload target_age_months
                  target_profile price_values (Some m) candidate in
  let scored' :=
    score_payload now tolerances target_payload target_age_months
                  target_profile price_values' (Some m) candidate in
  option_map r_deal_score scored = option_map r_deal_score scored'
  /\ option_map r_final_score scored = option_map r_final_score scored'.
Proof.
  intros Hm. cbv zeta. unfold score_payload.
  set (payload := format_vehicle_payload now (cand_row candidate)).
  destruct (score similarity_engine _ _ _ _ _ _ _) as [[sim axes]|];
    [|split; reflexivity].
  assert (Hpos : Deal.positive (lift (Some m)) = Some (Q2R m)).
  { cbn [lift option_map Deal.positive].
    destruct (Rlt_dec 0 (Q2R m)) as [H | H]; [reflexivity|].
    exfalso. apply H. rewrite <- RMicromega.Q2R_0. apply Qlt_Rlt, Hm. }
  pose proof (deal_percentile_free (lift (p_price_eur payload))
                (lift (price_percentile price_values (p_price_eur payload)))
                (lift (price_percentile price_values' (p_price_eur payload)))
                (lift (Some m)) (lift (p_price_eur target_payload))
                (lift (p_mileage_km target_payload))
                (lift (p_mileage_km payload)) (Q2R m) Hpos) as E.
  destruct (compute_deal_score _
              (lift (price_percentile price_values (p_price_eur payload)))
              _ _ _ _) as [deal details].
  destruct (compute_deal_score _
              (lift (price_percentile price_values' (p_price_eur payload)))
              _ _ _ _) as [deal' details'].
  cbn [fst] in E. subst deal'.
  split; reflexivity.
Qed.

Lemma deal_ignores_percentile_witness :
  let candidate :=
    mkCandidate
      (select_base_fields
         (listing "a" "BMW" "3er" "23500" "43000" "05/2021" "black"))
      None (mkTextProfile [] []) [] in
  let tolerances :=
    mkToleranceConfig 2 2 5000 (15 # 100) 15 (55 # 100) (30 # 100)
                      (10 # 100) (5 # 100) in
  let target := format_vehicle_payload 0 sample_target in
  (0 < 23500)%Q
  /\ option_map r_deal_score
       (score_payload 0 tolerances target None (mkTextProfile [] [])
                      [23500; 25000]%Q (Some 23500%Q) candidate)
     = option_map r_deal_score
         (score_payload 0 tolerances target None (mkTextProfile [] [])
                        [1; 2; 23500]%Q (Some 23500%Q) candidate).
Proof.
  cbv zeta.
  assert (H : (0 < 23500)%Q) by reflexivity.
  split; [exact H|].
  apply (deal_ignores_percentile 0 _ _ None _ [23500; 25000]%Q
           [1; 2; 23500]%Q 23500%Q _ H).
Defined.

End LoopMore.

(* ------------------------------------------------------------------ *)
(** ** The cached base query *)
(* ------------------------------------------------------------------ *)

Section CacheMore.
Import PyStr Normalize Store Cache Samples.

Lemma key_eqb_refl (k : Key) : key_eqb k k = true.
Proof.
  destruct k as [[a b] n]. simpl.
  rewrite !eqb_refl, Nat.eqb_refl. reflexivity.
Qed.

Lemma cache_get_set (cache : CandidateCache) (key : Key) (entry : Entry) :
  cache_get (cache_set cache key entry) key = Some entry.
Proof. unfold cache_set. simpl. rewrite key_eqb_refl. reflexivity. Qed.

Lemma run_query_origin (db : list Listing) (conditions : list (Listing -> bool))
    (limit : nat) (r : Row) :
  In r (run_query db conditions limit) ->
  exists l, In l db /\ r = select_base_fields l
            /\ forallb (fun c => c l) conditions = true.
Proof.
  unfold run_query. intros Hin.
  apply in_map_iff in Hin. destruct Hin as [l [<- Hl]].
  apply in_firstn in Hl. apply filter_In in Hl.
  exists l. split; [tauto|]. split; [reflexivity | tauto].
Qed.

Lemma run_query_length (db : list Listing)
    (conditions : list (Listing -> bool)) (limit : nat) :
  (List.length (run_query db conditions limit) <= limit)%nat.
Proof. unfold run_query. rewrite length_map. apply firstn_le_length. Qed.

(** What a call that misses the cache does. *)
Lemma fetch_candidate_rows_miss (ttl : Z) (now : Q) (db : list Listing)
    (cache : CandidateCache) (target_row : Row) (limit : nat)
    (rows : list Row) (logs : Logs) (cache1 : CandidateCache) :
  fetch_candidate_rows ttl now db cache target_row limit
  = (Returned rows logs, cache1) ->
  cache_hit logs = false ->
  exists target_make target_model key,
    normalize_text (make target_row) = Some target_make
    /\ normalize_text (model target_row) = Some target_model
    /\ cache_key target_row limit = Some key
    /\ cache1 = cache_set cache key (mkEntry now rows)
    /\ primary logs
       = Some (List.length
                 (run_query db (primary_condition target_row) limit))
    /\ ((run_query db (primary_condition target_row) limit <> []
         /\ rows = run_query db (primary_condition target_row) limit
         /\ fallback logs = None)
        \/ (run_query db (primary_condition target_row) limit = []
            /\ rows = run_query db
                        (fallback_condition target_row target_make
                                            target_model) limit
            /\ fallback logs = Some (List.length rows))).
Proof.
  unfold fetch_candidate_rows, cache_key.
  destruct (normalize_text (make target_row)) as [mk|]; [|discriminate].
  destruct (normalize_text (model target_row)) as [md|]; [|discriminate].
  set (key := (lower (strip_accents mk), lower (strip_accents md), limit)).
  destruct (match cache_get cache key with
            | Some cache_entry =>
                if Qle_bool (inject_Z ttl) (now - ts cache_entry)
                then None else Some cache_entry
            | None => None
            end) as [entry|].
  { intros [= <- <- <-] Hhit. discriminate Hhit. }
  destruct (run_query db (primary_condition target_row) limit)
    as [|r0 rest] eqn:Ep.
  - intros [= <- <- <-] _. exists mk, md, key.
    repeat split. right. repeat split.
  - intros [= <- <- <-] _. exists mk, md, key.
    repeat split. left. split; [discriminate|]. split; reflexivity.
Qed.

(** X29.  After a call that filled the cache, a call for any target with
    the same folded make, folded model and limit made less than the TTL
    later is served the cached rows unchanged: the store is not read, and
    the target's own id plays no part, so the rows were filtered for a
    different target. *)
Theorem cache_hit_ignores_target (ttl : Z) (now now' : Q)
    (db db' : list Listing) (cache : CandidateCache)
    (target_row target_row' : Row) (limit : nat)
    (rows : list Row) (logs : Logs) (cache1 : CandidateCache) :
  fetch_candidate_rows ttl now db cache target_row limit
  = (Returned rows logs, cache1) ->
  cache_hit logs = false ->
  cache_key target_row' limit = cache_key target_row limit ->
  (now' - now < inject_Z ttl)%Q ->
  fetch_candidate_rows ttl now' db' cache1 target_row' limit
  = (Returned rows (mkLogs None None true (Some (List.length rows))), cache1).
Proof.
  intros Hfirst Hmiss Hkey Hfresh.
  destruct (fetch_candidate_rows_miss ttl now db cache target_row limit
              rows logs cache1 Hfirst Hmiss)
    as [mk [md [key [_ [_ [Ek [-> _]]]]]]].
  rewrite Ek in Hkey. unfold cache_key in Hkey.
  unfold fetch_candidate_rows.
  destruct (normalize_text (make target_row')) as [mk'|]; [|discriminate].
  destruct (normalize_text (model target_row')) as [md'|]; [|discriminate].
  injection Hkey as Hkey. rewrite Hkey.
  rewrite cache_get_set. cbn [ts Cache.rows].
  destruct (Qle_bool (inject_Z ttl) (now' - now)) eqn:E.
  - apply Qle_bool_iff in E. exfalso. lra.
  - reflexivity.
Qed.

Lemma cache_hit_ignores_target_witness :
  let twin :=
    select_base_fields
      (listing "a" "BMW" "3er" "23500" "43000" "05/2021" "Schwarz Metallic") in
  exists rows logs cache1,
    fetch_candidate_rows 180 0 sample_db [] sample_target 50
    = (Returned rows logs, cache1)
    /\ cache_hit logs = false
    /\ cache_key twin 50 = cache_key sample_target 50
    /\ (60 - 0 < inject_Z 180)%Q
    /\ fetch_candidate_rows 180 60 [] cache1 twin 50
       = (Returned rows (mkLogs None None true (Some (List.length rows))),
          cache1)
    /\ In twin rows.
Proof.
  cbv zeta.
  destruct (fetch_candidate_rows 180 0 sample_db [] sample_target 50)
    as [[|rows logs] cache1] eqn:E; [vm_compute in E; discriminate E|].
  assert (H1 : cache_hit logs = false)
    by (vm_compute in E; injection E as _ <- _; reflexivity).
  assert (H2 : cache_key
                 (select_base_fields
                    (listing "a" "BMW" "3er" "23500" "43000" "05/2021"
                             "Schwarz Metallic")) 50
               = cache_key sample_target 50) by (vm_compute; reflexivity).
  assert (H3 : (60 - 0 < inject_Z 180)%Q) by reflexivity.
  exists rows, logs, cache1.
  split; [reflexivity|]. split; [exact H1|]. split; [exact H2|].
  split; [exact H3|].
  split.
  - apply (cache_hit_ignores_target 180 0 60 sample_db [] [] sample_target
             _ 50 rows logs cache1 E H1 H2 H3).
  - vm_compute in E. injection E as <- _ _. left. reflexivity.
Defined.

(** X30.  A call that misses the cache returns at most [limit] rows, each
    the selected columns of an available listing other than the target
    whose make and model equal the target's raw values or, when no listing
    does, equal the lowercased stripped values after LOWER(TRIM(...)); the
    fallback query runs only when the primary query found nothing; and the
    cache then holds exactly the returned rows under the target's key with
    the time of the call. *)
Theorem cache_miss_rows (ttl : Z) (now : Q) (db : list Listing)
    (cache : CandidateCache) (target_row : Row) (limit : nat)
    (rows : list Row) (logs : Logs) (cache1 : CandidateCache) :
  fetch_candidate_rows ttl now db cache target_row limit
  = (Returned rows logs, cache1) ->
  cache_hit logs = false ->
  (List.length rows <= limit)%nat
  /\ (forall r, In r rows ->
        exists l, In l db /\ r = select_base_fields l
                  /\ l_is_vehicle_available l = true
                  /\ vehicle_id target_row <> None
                  /\ vehicle_id target_row <> Some (l_vehicle_id l)
                  /\ ((l_make l = make target_row
                       /\ l_model l = model target_row)
                      \/ (fallback logs <> None
                          /\ sql_lower_trim (l_make l)
                             = option_map lower
                                 (normalize_text (make target_row))
                          /\ sql_lower_trim (l_model l)
                             = option_map lower
                                 (normalize_text (model target_row)))))
  /\ (fallback logs <> None -> primary logs = Some 0%nat)
  /\ (exists key, cache_key target_row limit = Some key
                  /\ cache_get cache1 key = Some (mkEntry now rows)).
Proof.
  intros Hfirst Hmiss.
  destruct (fetch_candidate_rows_miss ttl now db cache target_row limit
              rows logs cache1 Hfirst Hmiss)
    as [mk [md [key [Emk [Emd [Ek [-> [Hp Hcase]]]]]]]].
  split.
  { destruct Hcase as [[_ [-> _]] | [_ [-> _]]]; apply run_query_length. }
  split.
  { intros r Hr.
    destruct Hcase as [[_ [-> _]] | [_ [Er Hf]]].
    - apply run_query_origin in Hr. destruct Hr as [l [Hl [-> Hc]]].
      simpl in Hc. rewrite andb_true_r in Hc.
      apply andb_true_iff in Hc. destruct Hc as [Ha Hc].
      apply andb_true_iff in Hc. destruct Hc as [Hid Hc].
      apply andb_true_iff in Hc. destruct Hc as [Hmk Hmd].
      apply sql_ne_true in Hid. apply sql_eq_true in Hmk, Hmd.
      exists l. split; [exact Hl|]. split; [reflexivity|].
      split; [exact Ha|]. split; [tauto|]. split; [tauto|].
      left. tauto.
    - rewrite Er in Hr.
      apply run_query_origin in Hr. destruct Hr as [l [Hl [Hrl Hc]]].
      simpl in Hc. rewrite andb_true_r in Hc.
      apply andb_true_iff in Hc. destruct Hc as [Ha Hc].
      apply andb_true_iff in Hc. destruct Hc as [Hid Hc].
      apply andb_true_iff in Hc. destruct Hc as [Hmk Hmd].
      apply sql_ne_true in Hid. apply sql_eq_true in Hmk, Hmd.
      exists l. split; [exact Hl|]. split; [exact Hrl|].
      split; [exact Ha|]. split; [tauto|]. split; [tauto|].
      right. rewrite Hf, Emk, Emd.
      split; [discriminate|]. split; tauto. }
  split.
  { intros Hf. rewrite Hp.
    destruct Hcase as [[_ [_ Hn]] | [-> _]]; [contradiction | reflexivity]. }
  exists key. split; [exact Ek | apply cache_get_set].
Qed.

Lemma cache_miss_rows_witness :
  exists rows logs cache1,
    fetch_candidate_rows 180 0 sample_db [] sample_target 50
    = (Returned rows logs, cache1)
    /\ cache_hit logs = false
    /\ (List.length rows <= 50)%nat
    /\ (fallback logs <> None -> primary logs = Some 0%nat).
Proof.
  destruct (fetch_candidate_rows 180 0 sample_db [] sample_target 50)
    as [[|rows logs] cache1] eqn:E; [vm_compute in E; discriminate E|].
  assert (H1 : cache_hit logs = false)
    by (vm_compute in E; injection E as _ <- _; reflexivity).
  exists rows, logs, cache1.
  split; [reflexivity|]. split; [exact H1|].
  destruct (cache_miss_rows 180 0 sample_db [] sample_target 50 rows logs
              cache1 E H1) as [H2 [_ [H3 _]]].
  split; [exact H2 | exact H3].
Defined.

End CacheMore.
(* ------------------------------------------------------------------ *)
(** ** Rounding to binary64 *)
(* ------------------------------------------------------------------ *)

Section Rounding.
Import Binary64.
Local Open Scope Q_scope.

Lemma pow2_pos (e : Z) : 0 < pow2 e.
Proof. apply Qpower_0_lt. reflexivity. Qed.

Lemma pow2_add (a b : Z) : pow2 (a + b) == pow2 a * pow2 b.
Proof. apply Qpower_plus. discriminate. Qed.

Lemma pow2_le (a b : Z) : (a <= b)%Z -> pow2 a <= pow2 b.
Proof. intros H. apply Qpower_le_compat_l; [exact H | discriminate]. Qed.

Lemma pow2_lt_inv (a b : Z) : pow2 a < pow2 b -> (a < b)%Z.
Proof. intros H. apply (Qpower_lt_compat_l_inv 2); [exact H | reflexivity]. Qed.

Lemma pow2_Z (n : Z) : (0 <= n)%Z -> pow2 n == inject_Z (2 ^ n).
Proof.
  intros H. unfold pow2. rewrite Zpower_Qpower by exact H. reflexivity.
Qed.

(** [ilog2]: the power of two at its exponent is below the number. *)
Lemma ilog2_spec (x : Q) : 0 < x -> pow2 (ilog2 x) <= x.
Proof.
  intros Hx. unfold ilog2.
  set (e0 := (Z.log2 (Qnum x) - Z.log2 (Z.pos (Qden x)))%Z).
  destruct (Qle_bool (pow2 e0) x) eqn:E; [apply Qle_bool_iff, E|].
  destruct x as [n d]. unfold e0. cbn [Qnum Qden].
  assert (Hn : (0 < n)%Z).
  { unfold Qlt in Hx. cbn in Hx. lia. }
  pose proof (Z.log2_spec n Hn) as [Ln _].
  pose proof (Z.log2_spec (Z.pos d) (Pos2Z.is_pos d)) as [_ Ld].
  pose proof (Z.log2_nonneg n) as Hln.
  pose proof (Z.log2_nonneg (Z.pos d)) as Hld.
  set (a := Z.log2 n) in *. set (b := Z.log2 (Z.pos d)) in *.
  (* pow2 (a - b - 1) * pow2 (b+1) == pow2 a *)
  assert (Hm : pow2 (a - b - 1) * pow2 (b + 1) == pow2 a).
  { rewrite <- pow2_add. replace (a - b - 1 + (b + 1))%Z with a by lia.
    reflexivity. }
  rewrite (pow2_Z a Hln) in Hm.
  rewrite (pow2_Z (b + 1)) in Hm by lia.
  pose proof (pow2_pos (a - b - 1)) as Hp.
  set (p := pow2 (a - b - 1)) in *.
  assert (Hd : inject_Z (Z.pos d) <= inject_Z (2 ^ (b + 1))).
  { rewrite <- Zle_Qle. replace (b + 1)%Z with (Z.succ b) by lia. lia. }
  assert (Hn2 : inject_Z (2 ^ a) <= inject_Z n).
  { rewrite <- Zle_Qle. exact Ln. }
  assert (Hq : n # d == inject_Z n / inject_Z (Z.pos d)).
  { rewrite Qmake_Qdiv. reflexivity. }
  rewrite Hq.
  assert (Hdpos : 0 < inject_Z (Z.pos d)) by reflexivity.
  apply Qle_shift_div_l; [exact Hdpos|].
  apply Qle_trans with (p * inject_Z (2 ^ (b + 1))).
  - apply Qmult_le_l; [exact Hp | exact Hd].
  - rewrite Hm. exact Hn2.
Qed.

Lemma round_half_even_close (y : Q) :
  Qabs (inject_Z (round_half_even y) - y) <= 1 # 2.
Proof.
  unfold round_half_even.
  pose proof (Qfloor_le y) as H1. pose proof (Qlt_floor y) as H2.
  set (f := Qfloor y) in *.
  assert (E1 : inject_Z (f + 1) == inject_Z f + 1).
  { rewrite inject_Z_plus. reflexivity. }
  rewrite E1 in H2.
  apply Qabs_Qle_condition.
  destruct (Qcompare (y - inject_Z f) (1 # 2)) eqn:C.
  - apply Qeq_alt in C. destruct (Z.even f); [|rewrite E1]; lra.
  - apply Qlt_alt in C. lra.
  - apply Qgt_alt in C. rewrite E1. lra.
Qed.

Lemma exponent_bound (x : Q) (k : Z) :
  ~ x == 0 -> (-1022 <= k)%Z -> Qabs x < pow2 (k + 1) ->
  (exponent x <= k - 52)%Z.
Proof.
  intros Hx Hk Hlt. unfold exponent.
  assert (Hpos : 0 < Qabs x).
  { destruct (Qlt_le_dec 0 (Qabs x)) as [H|H]; [exact H|].
    exfalso. apply Hx. apply Qabs_Qle_condition in H. lra. }
  pose proof (ilog2_spec (Qabs x) Hpos) as Hl.
  assert (Hi : (ilog2 (Qabs x) < k + 1)%Z).
  { apply pow2_lt_inv. eapply Qle_lt_trans; [exact Hl | exact Hlt]. }
  lia.
Qed.

(** The rounding error is at most half a unit in the last place. *)
Lemma round64_half_ulp (x : Q) :
  Qabs (round64 x - x) <= pow2 (exponent x - 1).
Proof.
  unfold round64.
  destruct (Qeq_bool x 0) eqn:E0.
  - apply Qeq_bool_iff in E0.
    pose proof (pow2_pos (exponent x - 1)) as Hp.
    apply Qabs_Qle_condition. lra.
  - rewrite Qred_correct.
    set (e := exponent x).
    pose proof (pow2_pos e) as Hp.
    pose proof (round_half_even_close (x / pow2 e)) as Hc.
    set (m := inject_Z (round_half_even (x / pow2 e))) in *.
    assert (Hh : pow2 (e - 1) * 2 == pow2 e).
    { replace e with ((e - 1) + 1)%Z at 2 by lia. rewrite pow2_add.
      reflexivity. }
    set (y := x / pow2 e) in *.
    assert (Hy : x == y * pow2 e).
    { unfold y. field. lra. }
    apply Qabs_Qle_condition in Hc.
    apply Qabs_Qle_condition.
    set (p := pow2 e) in *. set (h := pow2 (e - 1)) in *.
    split; nra.
Qed.

Lemma round64_close (x : Q) (k : Z) :
  (-1022 <= k)%Z -> Qabs x < pow2 (k + 1) ->
  Qabs (round64 x - x) <= pow2 (k - 53).
Proof.
  intros Hk Hlt.
  destruct (Qeq_dec x 0) as [E0|E0].
  - unfold round64. apply Qeq_bool_iff in E0. rewrite E0.
    apply Qeq_bool_iff in E0.
    pose proof (pow2_pos (k - 53)) as Hp.
    apply Qabs_Qle_condition. lra.
  - eapply Qle_trans; [apply round64_half_ulp|].
    apply pow2_le. pose proof (exponent_bound x k E0 Hk Hlt). lia.
Qed.

End Rounding.

(* ------------------------------------------------------------------ *)
(** ** The ranking weights in binary64 *)
(* ------------------------------------------------------------------ *)

Section RankWeights64.
Import Binary64.
Local Open Scope Q_scope.

Lemma ulp_half_pow2 : pow2 (-53) == ulp_half.
Proof. reflexivity. Qed.

(** Rounding a number below 2 in magnitude moves it by at most 2^-53. *)
Lemma round64_near (x : Q) :
  -2 < x -> x < 2 -> x - ulp_half <= round64 x <= x + ulp_half.
Proof.
  intros H1 H2.
  assert (H : Qabs x < pow2 (0 + 1)).
  { change (pow2 (0 + 1)) with 2. apply Qabs_Qlt_condition. split; lra. }
  pose proof (round64_close x 0 ltac:(lia) H) as Hc.
  change (pow2 (0 - 53)) with ulp_half in Hc.
  apply Qabs_Qle_condition in Hc. lra.
Qed.

Lemma Qmax_bounds (a b lo hi : Q) :
  lo <= Qmax a b <= hi <-> (lo <= a \/ lo <= b) /\ a <= hi /\ b <= hi.
Proof.
  destruct (Q.max_spec a b) as [[H E] | [H E]]; rewrite E; split; intros;
    intuition lra.
Qed.

Lemma rank_weights_close (b : Q) :
  let alpha := fst (Impl.rank_weights b) in
  let beta := snd (Impl.rank_weights b) in
  let alpha0 := fst (Handler.rank_weights b) in
  let beta0 := snd (Handler.rank_weights b) in
  alpha0 - 32 * ulp_half <= alpha <= alpha0 + 32 * ulp_half
  /\ beta0 - 32 * ulp_half <= beta <= beta0 + 32 * ulp_half.
Proof.
  cbv zeta. unfold Impl.rank_weights, Handler.rank_weights.
  set (bal := Qmax (-1) (Qmin 1 b)).
  assert (Hbal : -1 <= bal <= 1).
  { unfold bal.
    destruct (Q.min_spec 1 b) as [[? Hm] | [? Hm]];
      destruct (Q.max_spec (-1) (Qmin 1 b)) as [[? HM] | [? HM]]; lra. }
  clearbody bal.
  (* the literals *)
  set (c2 := lit (2 # 10)). set (c55 := lit (55 # 100)).
  set (c30 := lit (30 # 100)). set (c15 := lit (15 # 100)).
  set (c85 := lit (85 # 100)). set (c01 := lit (1 # 10)).
  assert (B2 : (2 # 10) - ulp_half <= c2 <= (2 # 10) + ulp_half)
    by (split; apply Qle_bool_iff; vm_compute; reflexivity).
  assert (B55 : (55 # 100) - ulp_half <= c55 <= (55 # 100) + ulp_half)
    by (split; apply Qle_bool_iff; vm_compute; reflexivity).
  assert (B30 : (30 # 100) - ulp_half <= c30 <= (30 # 100) + ulp_half)
    by (split; apply Qle_bool_iff; vm_compute; reflexivity).
  assert (B15 : (15 # 100) - ulp_half <= c15 <= (15 # 100) + ulp_half)
    by (split; apply Qle_bool_iff; vm_compute; reflexivity).
  assert (B85 : (85 # 100) - ulp_half <= c85 <= (85 # 100) + ulp_half)
    by (split; apply Qle_bool_iff; vm_compute; reflexivity).
  assert (B01 : (1 # 10) - ulp_half <= c01 <= (1 # 10) + ulp_half)
    by (split; apply Qle_bool_iff; vm_compute; reflexivity).
  clearbody c2 c55 c30 c15 c85 c01.
  assert (Hu : 0 < ulp_half <= 1 # 1000000) by (split; [reflexivity | discriminate]).
  pose proof round64_near as near.
  set (u := ulp_half) in *. clearbody u.
  unfold fadd, fsub, fmul, fdiv.
  (* t = balance * 0.2 *)
  assert (Hp : (2 # 10) * bal - u <= bal * c2 <= (2 # 10) * bal + u)
    by (clear - Hbal B2 Hu; split; nra).
  pose proof (near (bal * c2) ltac:(lra) ltac:(lra)) as Ht.
  set (t := round64 (bal * c2)) in *. clearbody t.
  pose proof (near (c55 + t) ltac:(lra) ltac:(lra)) as Hs1.
  set (s1 := round64 (c55 + t)) in *. clearbody s1.
  pose proof (near (c30 - t) ltac:(lra) ltac:(lra)) as Hs2.
  set (s2 := round64 (c30 - t)) in *. clearbody s2.
  (* exact raw values *)
  set (a0 := Qmax (15 # 100) ((55 # 100) + bal * (2 # 10))).
  set (b0 := Qmax (15 # 100) ((30 # 100) - bal * (2 # 10))).
  set (ar := Qmax c15 s1). set (br := Qmax c15 s2).
  assert (Ha0 : a0 == (55 # 100) + bal * (2 # 10)).
  { unfold a0. destruct (Q.max_spec (15 # 100) ((55 # 100) + bal * (2 # 10)))
      as [[? HM] | [? HM]]; lra. }
  assert (Har : a0 - 4 * u <= ar <= a0 + 4 * u).
  { unfold ar. destruct (Q.max_spec c15 s1) as [[? HM] | [? HM]];
      rewrite HM; lra. }
  assert (Hb0 : 15 # 100 <= b0 <= 50 # 100).
  { unfold b0. destruct (Q.max_spec (15 # 100) ((30 # 100) - bal * (2 # 10)))
      as [[? HM] | [? HM]]; rewrite HM; lra. }
  assert (Hbr : b0 - 4 * u <= br <= b0 + 4 * u).
  { unfold ar, b0, br.
    destruct (Q.max_spec (15 # 100) ((30 # 100) - bal * (2 # 10)))
      as [[? HM] | [? HM]]; rewrite HM;
      destruct (Q.max_spec c15 s2) as [[? HM'] | [? HM']]; rewrite HM'; lra. }
  assert (Hsum0 : 85 # 100 <= a0 + b0 <= 90 # 100).
  { unfold b0. rewrite Ha0.
    destruct (Q.max_spec (15 # 100) ((30 # 100) - bal * (2 # 10)))
      as [[? HM] | [? HM]]; rewrite HM; lra. }
  assert (Ha0r : 35 # 100 <= a0 <= 75 # 100) by lra.
  clearbody a0 b0 ar br.
  pose proof (near (ar + br) ltac:(lra) ltac:(lra)) as Htot.
  set (tot := round64 (ar + br)) in *. clearbody tot.
  destruct (Qle_bool tot 0) eqn:E.
  { apply Qle_bool_iff in E. lra. }
  clear E.
  destruct (Qle_bool (a0 + b0) 0) eqn:E.
  { apply Qle_bool_iff in E. lra. }
  clear E. cbv beta iota zeta.
  clear Ha0 Hs1 Hs2 Ht Hp s1 s2 t B2 B55 B30 B15 c2 c55 c30 c15 Hbal bal.
  set (q := c85 / tot). set (q0 := (85 # 100) / (a0 + b0)).
  assert (Hq : q * tot == c85) by (unfold q; field; lra).
  assert (Hq0 : q0 * (a0 + b0) == 85 # 100) by (unfold q0; field; lra).
  clearbody q q0.
  assert (Hq0r : 17 # 18 <= q0 <= 1) by (clear - Hq0 Hsum0; split; nra).
  assert (Htd : - (9 * u) <= tot - (a0 + b0) <= 9 * u) by lra.
  assert (Htr : 84 # 100 <= tot <= 91 # 100) by lra.
  assert (Hqd : tot * (q - q0)
                == (c85 - (85 # 100)) - q0 * (tot - (a0 + b0))).
  { clear - Hq Hq0. 
    transitivity (q * tot - q0 * tot); [ring|]. rewrite Hq.
    transitivity (c85 - (q0 * (a0 + b0)) - q0 * (tot - (a0 + b0))); [ring|].
    rewrite Hq0. reflexivity. }
  assert (Hqe : - (9 * u) <= q0 * (tot - (a0 + b0)) <= 9 * u)
    by (clear - Hq0r Htd Hu; split; nra).
  assert (Hqd2 : - (10 * u) <= tot * (q - q0) <= 10 * u).
  { rewrite Hqd. clear - Hqe B85. lra. }
  assert (Hqq : q0 - 12 * u <= q <= q0 + 12 * u).
  { clear - Hqd2 Htr Hu.
    destruct (Qlt_le_dec q q0); split; nra. }
  pose proof (near q ltac:(lra) ltac:(lra)) as Hsc.
  set (sc := round64 q) in *. clearbody sc.
  assert (Hscq : q0 - 13 * u <= sc <= q0 + 13 * u) by lra.
  clear Hsc Hqq Hqd2 Hqe Hqd Htr Htd Hq Hq0 q Htot tot.
  assert (Hpa : a0 * q0 - 17 * u <= ar * sc <= a0 * q0 + 17 * u).
  { assert (E : ar * sc == a0 * q0 + ar * (sc - q0) + q0 * (ar - a0)) by ring.
    assert (E1 : - (13 * u) <= ar * (sc - q0) <= 13 * u).
    { clear - Har Ha0r Hscq Hu. destruct (Qlt_le_dec sc q0); split; nra. }
    assert (E2 : - (4 * u) <= q0 * (ar - a0) <= 4 * u).
    { clear - Har Hq0r Hu. destruct (Qlt_le_dec ar a0); split; nra. }
    rewrite E. clear - E1 E2. lra. }
  assert (Hpb : b0 * q0 - 17 * u <= br * sc <= b0 * q0 + 17 * u).
  { assert (E : br * sc == b0 * q0 + br * (sc - q0) + q0 * (br - b0)) by ring.
    assert (E1 : - (13 * u) <= br * (sc - q0) <= 13 * u).
    { clear - Hbr Hb0 Hscq Hu. destruct (Qlt_le_dec sc q0); split; nra. }
    assert (E2 : - (4 * u) <= q0 * (br - b0) <= 4 * u).
    { clear - Hbr Hq0r Hu. destruct (Qlt_le_dec br b0); split; nra. }
    rewrite E. clear - E1 E2. lra. }
  assert (Ra : 33 # 100 <= a0 * q0 <= 75 # 100)
    by (clear - Ha0r Hq0r; split; nra).
  assert (Rb : 14 # 100 <= b0 * q0 <= 50 # 100)
    by (clear - Hb0 Hq0r; split; nra).
  set (pa0 := a0 * q0) in *. set (pb0 := b0 * q0) in *.
  set (pa := ar * sc) in *. set (pb := br * sc) in *.
  clearbody pa0 pb0 pa pb.
  pose proof (near pa ltac:(lra) ltac:(lra)) as Hra.
  pose proof (near pb ltac:(lra) ltac:(lra)) as Hrb.
  set (ra := round64 pa) in *. set (rb := round64 pb) in *.
  clearbody ra rb.
  cbn [fst snd].
  split.
  - destruct (Q.min_spec c85 ra) as [[? Hm] | [? Hm]]; rewrite Hm;
      destruct (Q.min_spec (85 # 100) pa0) as [[? Hm0] | [? Hm0]];
      rewrite Hm0;
      match goal with |- context [Qmax c01 ?x] =>
        destruct (Q.max_spec c01 x) as [[? HM] | [? HM]]; rewrite HM end;
      match goal with |- context [Qmax (1 # 10) ?x] =>
        destruct (Q.max_spec (1 # 10) x) as [[? HM0] | [? HM0]];
          rewrite HM0 end; lra.
  - destruct (Q.min_spec c85 rb) as [[? Hm] | [? Hm]]; rewrite Hm;
      destruct (Q.min_spec (85 # 100) pb0) as [[? Hm0] | [? Hm0]];
      rewrite Hm0;
      match goal with |- context [Qmax c01 ?x] =>
        destruct (Q.max_spec c01 x) as [[? HM] | [? HM]]; rewrite HM end;
      match goal with |- context [Qmax (1 # 10) ?x] =>
        destruct (Q.max_spec (1 # 10) x) as [[? HM0] | [? HM0]];
          rewrite HM0 end; lra.
Qed.

End RankWeights64.

(* ------------------------------------------------------------------ *)
(** ** The ranking weights against the specification *)
(* ------------------------------------------------------------------ *)

Section RankWeightsClaim.
Import Binary64.
Local Open Scope Q_scope.

(** With exact arithmetic the weights move with the balance at a rate of
    at least 0.03. *)
Lemma rank_weights_exact_slope (b b' : Q) :
  -1 <= b -> b <= b' -> b' <= 1 ->
  (3 # 100) * (b' - b)
    <= fst (Handler.rank_weights b') - fst (Handler.rank_weights b)
  /\ (3 # 100) * (b' - b)
    <= snd (Handler.rank_weights b) - snd (Handler.rank_weights b').
Proof.
  intros Hlo Hle Hhi.
  pose proof (rank_weights_exact b b' Hlo Hle Hhi) as X. cbv zeta in X.
  destruct X as [S1 [S2 _]].
  assert (Hhi1 : b <= 1) by lra. assert (Hlo2 : -1 <= b') by lra.
  pose proof (rank_weights_closed_form b Hlo Hhi1) as [L1 G1].
  pose proof (rank_weights_closed_form b' Hlo2 Hhi) as [L2 G2].
  cbv zeta in *.
  set (alpha := fst (Handler.rank_weights b)) in *.
  set (beta := snd (Handler.rank_weights b)) in *.
  set (alpha' := fst (Handler.rank_weights b')) in *.
  set (beta' := snd (Handler.rank_weights b')) in *.
  clearbody alpha beta alpha' beta'.
  assert (Hb : (3 # 100) * (b' - b) <= beta - beta'); [|split; lra].
  destruct (Qlt_le_dec (3 # 4) b) as [Hb | Hb];
    destruct (Qlt_le_dec (3 # 4) b') as [Hb' | Hb'];
    [ destruct (G1 Hb) as [_ B1]; destruct (G2 Hb') as [_ B2]
    | exfalso; lra
    | destruct (L1 Hb) as [_ B1]; destruct (G2 Hb') as [_ B2]
    | destruct (L1 Hb) as [_ B1]; destruct (L2 Hb') as [_ B2] ];
    clear L1 G1 L2 G2 S1 S2 alpha alpha'.
  - assert (P1 : 17 # 120 <= beta) by nra.
    assert (P2 : 17 # 120 <= beta') by nra.
    assert (E : (beta - beta') * ((85 # 100) * (15 # 100))
                == beta * beta' * (2 # 10) * (b' - b)) by nra.
    assert (P3 : (17 # 120) * (17 # 120) <= beta * beta') by nra.
    clear B1 B2. nra.
  - assert (P2 : beta' <= (15 # 100) - (3 # 100) * (b' - (3 # 4))) by nra.
    lra.
  - lra.
Qed.

(** C6 (as amended).  For balances [b <= b'] in [-1, 1] the two weights
    the handler computes in binary64 arithmetic are within 2^-48 of the
    exact values: alpha + beta is 0.85 up to 2^-47 (0.8499999999999999 at
    balance 0), alpha stays within [0.15, 0.85] and beta within [0.10,
    0.85]; beta is at least 0.15 - 2^-48 while the balance is at most 0.75
    and below 0.15 from balance 0.76 on; alpha does not decrease and beta
    does not increase with the balance by more than 2^-47, and across a
    step of 2^-40 or more alpha does increase and beta does decrease. *)
Theorem rank_weights_balance (b b' : Q) :
  -1 <= b -> b <= b' -> b' <= 1 ->
  let alpha := fst (Impl.rank_weights b) in
  let beta := snd (Impl.rank_weights b) in
  let alpha' := fst (Impl.rank_weights b') in
  let beta' := snd (Impl.rank_weights b') in
  Qabs (alpha + beta - (85 # 100)) <= pow2 (-47)
  /\ Qabs (alpha' + beta' - (85 # 100)) <= pow2 (-47)
  /\ Qabs (alpha - fst (Handler.rank_weights b)) <= pow2 (-48)
  /\ Qabs (beta - snd (Handler.rank_weights b)) <= pow2 (-48)
  /\ (15 # 100 <= alpha /\ alpha <= 85 # 100)
  /\ (15 # 100 <= alpha' /\ alpha' <= 85 # 100)
  /\ (1 # 10 <= beta /\ beta <= 85 # 100)
  /\ (1 # 10 <= beta' /\ beta' <= 85 # 100)
  /\ (b <= 3 # 4 -> (15 # 100) - pow2 (-48) <= beta)
  /\ (76 # 100 <= b -> beta < 15 # 100)
  /\ alpha <= alpha' + pow2 (-47) /\ beta' <= beta + pow2 (-47)
  /\ (b + pow2 (-40) <= b' -> alpha < alpha' /\ beta' < beta).
Proof.
  intros Hlo Hle Hhi.
  pose proof (rank_weights_close b) as C1.
  pose proof (rank_weights_close b') as C2.
  pose proof (rank_weights_exact b b' Hlo Hle Hhi) as X.
  pose proof (rank_weights_exact_slope b b' Hlo Hle Hhi) as [Sa Sb].
  assert (Hhi1 : b <= 1) by lra.
  pose proof (rank_weights_closed_form b Hlo Hhi1) as [_ G1].
  pose proof (rank_weights_total b) as [_ [T1 T2]].
  pose proof (rank_weights_total b') as [_ [T1' T2']].
  cbv zeta in *.
  set (alpha := fst (Impl.rank_weights b)) in *.
  set (beta := snd (Impl.rank_weights b)) in *.
  set (alpha' := fst (Impl.rank_weights b')) in *.
  set (beta' := snd (Impl.rank_weights b')) in *.
  set (a0 := fst (Handler.rank_weights b)) in *.
  set (b0 := snd (Handler.rank_weights b)) in *.
  set (a0' := fst (Handler.rank_weights b')) in *.
  set (b0' := snd (Handler.rank_weights b')) in *.
  clearbody alpha beta alpha' beta' a0 b0 a0' b0'.
  destruct X as [S1 [S2 [_ [_ [_ [_ [F1 _]]]]]]].
  assert (P47 : pow2 (-47) == 64 * ulp_half) by reflexivity.
  assert (P48 : pow2 (-48) == 32 * ulp_half) by reflexivity.
  assert (P40 : pow2 (-40) == 8192 * ulp_half) by reflexivity.
  assert (Hu : ulp_half == 1 # 9007199254740992) by reflexivity.
  set (p47 := pow2 (-47)) in *. set (p48 := pow2 (-48)) in *.
  set (p40 := pow2 (-40)) in *. set (u := ulp_half) in *.
  clearbody p47 p48 p40 u.
  rewrite !Qabs_Qle_condition.
  repeat split; try lra.
  intros H76. specialize (G1 ltac:(lra)). destruct G1 as [_ G1].
  assert (b0 <= (15 # 100) - (3 # 10000)) by (clear - G1 T2 H76; nra).
  lra.
Qed.

Lemma rank_weights_balance_witness :
  -1 <= 0 /\ 0 <= 1 /\ 1 <= 1
  /\ Qabs (fst (Impl.rank_weights 0) + snd (Impl.rank_weights 0)
           - (85 # 100)) <= pow2 (-47)
  /\ fst (Impl.rank_weights 0) + snd (Impl.rank_weights 0)
     == lit (85 # 100) - ulp_half
  /\ fst (Impl.rank_weights 0) < fst (Impl.rank_weights 1)
  /\ snd (Impl.rank_weights 1) < snd (Impl.rank_weights 0).
Proof.
  assert (H0 : -1 <= 0) by lra.
  assert (H1 : 0 <= 1) by lra.
  assert (H2 : 1 <= 1) by lra.
  pose proof (rank_weights_balance 0 1 H0 H1 H2) as H.
  cbv zeta in H.
  destruct H as [Hs [_ [_ [_ [_ [_ [_ [_ [_ [_ [_ [_ Hst]]]]]]]]]]]].
  split; [exact H0|]. split; [exact H1|]. split; [exact H2|].
  split; [exact Hs|].
  split; [vm_compute; reflexivity|].
  apply Hst. apply Qle_bool_iff. vm_compute. reflexivity.
Defined.

End RankWeightsClaim.

(* ------------------------------------------------------------------ *)
(** ** The deal scorer and its overflow *)
(* ------------------------------------------------------------------ *)

Section DealOverflow.
Import Binary64 Exceptions Retrieval.
Local Open Scope Q_scope.

Lemma ilog2_pos_spec (x : Q) : 0 < x -> pow2 (ilog2 x) <= x.
Proof. apply ilog2_spec. Qed.

(** The relative form of the rounding error, with the absolute error of
    the subnormal range. *)
Lemma round64_rel (x : Q) :
  Qabs (round64 x - x) <= Qabs x * pow2 (-53) + pow2 (-1075).
Proof.
  pose proof (pow2_pos (-53)) as P53. pose proof (pow2_pos (-1075)) as Pm.
  pose proof (Qabs_nonneg x) as Hx.
  destruct (Qeq_dec x 0) as [E0 | E0].
  { unfold round64. apply Qeq_bool_iff in E0. rewrite E0.
    apply Qeq_bool_iff in E0.
    assert (Qabs (0 - x) == 0).
    { rewrite E0. reflexivity. }
    nra. }
  eapply Qle_trans; [apply round64_half_ulp|].
  assert (Hpos : 0 < Qabs x).
  { destruct (Qlt_le_dec 0 (Qabs x)) as [H|H]; [exact H|].
    exfalso. apply E0. apply Qabs_Qle_condition in H. lra. }
  pose proof (ilog2_spec (Qabs x) Hpos) as Hl.
  unfold exponent.
  destruct (Z.max_spec (ilog2 (Qabs x) - 52) (-1074)) as [[Hc ->] | [Hc ->]].
  - change (-1074 - 1)%Z with (-1075)%Z. nra.
  - replace (ilog2 (Qabs x) - 52 - 1)%Z with (ilog2 (Qabs x) + -53)%Z by lia.
    rewrite pow2_add.
    assert (pow2 (ilog2 (Qabs x)) * pow2 (-53) <= Qabs x * pow2 (-53)).
    { apply Qmult_le_compat_r; [exact Hl | lra]. }
    lra.
Qed.

Lemma round64_within (x bound : Q) :
  Qabs x <= bound ->
  x - (bound * pow2 (-53) + pow2 (-1075)) <= round64 x
  /\ round64 x <= x + (bound * pow2 (-53) + pow2 (-1075)).
Proof.
  intros Hb. pose proof (round64_rel x) as H.
  pose proof (pow2_pos (-53)) as P53.
  assert (Qabs x * pow2 (-53) <= bound * pow2 (-53)).
  { apply Qmult_le_compat_r; [exact Hb | lra]. }
  apply Qabs_Qle_condition in H. lra.
Qed.

(** No overflow while the price stays within a hundred times the
    reference price (any positive float). *)
Lemma exp_argument_small (reference price : Q) :
  pow2 (-1074) <= reference -> 0 <= price -> price <= 100 * reference ->
  Impl.exp_overflows reference price = false.
Proof.
  intros Hm Hp Hle. unfold Impl.exp_overflows, Impl.exp_argument.
  unfold fsub, fdiv, fmul.
  destruct (negb (finite (round64 (reference - price)))); [reflexivity|].
  destruct (negb (finite (round64 (round64 (reference - price)
                                   / reference)))); [reflexivity|].
  destruct (finite _); [|reflexivity].
  apply negb_false_iff, Qle_bool_iff.
  pose proof (pow2_pos (-1074)) as Pm.
  assert (Hh : pow2 (-1074) == 2 * pow2 (-1075)) by reflexivity.
  assert (Hu : pow2 (-53) == 1 # 9007199254740992) by reflexivity.
  pose proof (pow2_pos (-1075)) as Pe.
  assert (Hsmall : pow2 (-1075) <= 1 # 1000).
  { apply Qle_trans with (pow2 (-10)); [apply pow2_le; lia|].
    apply Qle_bool_iff. reflexivity. }
  pose proof round64_within as within.
  set (u := pow2 (-53)) in *. set (eta := pow2 (-1075)) in *.
  set (tiny := pow2 (-1074)) in *. clearbody u eta tiny.
  set (m := reference) in *.
  assert (B1 : Qabs (m - price) <= 99 * m).
  { apply Qabs_Qle_condition. lra. }
  pose proof (within (m - price) (99 * m) B1) as [L1 U1].
  set (d1 := round64 (m - price)) in *. clearbody d1.
  set (x2 := d1 / m).
  assert (E2 : x2 * m == d1) by (unfold x2; field; lra).
  clearbody x2.
  assert (R2 : -100 <= x2 <= 2).
  { clear - E2 L1 U1 Hm Hp Hle Hh Hu Pe Pm. split; nra. }
  assert (B2 : Qabs x2 <= 100) by (apply Qabs_Qle_condition; lra).
  pose proof (within x2 100 B2) as [L2 U2].
  set (d2 := round64 x2) in *. clearbody d2.
  assert (B3 : Qabs (-6 * d2) <= 607) by (apply Qabs_Qle_condition; lra).
  pose proof (within (-6 * d2) 607 B3) as [L3 U3].
  set (a := round64 (-6 * d2)) in *. clearbody a.
  unfold Impl.EXP_MAX.
  assert (608 <= 6243314768165359 # 8796093022208)
    by (apply Qle_bool_iff; reflexivity).
  lra.
Qed.

Lemma positive_some (x : option Q) (v : Q) :
  positive x = Some v -> x = Some v /\ 0 < v.
Proof.
  unfold positive. destruct x as [q|]; [|discriminate].
  destruct (Qle_bool q 0) eqn:E; [discriminate|].
  intros [= <-]. split; [reflexivity|].
  destruct (Qlt_le_dec 0 q) as [H|H]; [exact H|].
  apply Qle_bool_iff in H. congruence.
Qed.

(** C4 (as amended).  [compute_deal_score] returns, or raises the
    [OverflowError] of [math.exp]; it raises only when the price is so far
    above a positive median or target price that the argument of the
    exponential exceeds 709.78 (a price above some 119.3 times the
    reference), and it returns whenever the price is at most a hundred
    times each positive reference.  When it returns: before the mileage
    adjustment the comparable score lies in [0, 1], and it stays there
    when no adjustment applies; after the adjustment (minus at most 0.25,
    plus at most 0.15) it lies in [-0.25, 1.15]; the hedonic score lies in
    [0, 1] when the target price is positive and otherwise equals the
    comparable score; the deal score itself is clamped to [0, 1]. *)
Theorem deal_sub_scores_bounds
    (price percentile median_price target_price target_mileage
     candidate_mileage : option Q) :
  let outcome :=
    Impl.compute_deal_score price percentile median_price target_price
                            target_mileage candidate_mileage in
  (forall deal details, outcome = Returns (deal, details) ->
     (- (25 / 100) <= Deal.comparable details <= 115 / 100
      /\ - (25 / 100) <= Deal.hedonic details <= 115 / 100
      /\ (Deal.mileage_ratio details = None ->
          0 <= Deal.comparable details <= 1)
      /\ (positive target_price <> None ->
          0 <= Deal.hedonic details <= 1)
      /\ (positive target_price = None ->
          Deal.hedonic details = Deal.comparable details)
      /\ 0 <= deal <= 1)%R)
  /\ (forall e, outcome = Raises e ->
        e = OverflowError
        /\ exists p reference,
             price = Some p
             /\ (positive median_price = Some reference
                 \/ positive target_price = Some reference)
             /\ Impl.exp_overflows reference p = true)
  /\ ((forall p, price = Some p ->
         0 <= p
         /\ (forall reference,
               positive median_price = Some reference
               \/ positive target_price = Some reference ->
               pow2 (-1074) <= reference /\ p <= 100 * reference)) ->
      exists scores, outcome = Returns scores).
Proof.
  cbv zeta. split; [|split].
  - intros deal details E.
    assert (Es : (deal, details)
                 = Deal.compute_deal_score
                     (option_map Q2R price) (option_map Q2R percentile)
                     (option_map Q2R median_price)
                     (option_map Q2R target_price)
                     (option_map Q2R target_mileage)
                     (option_map Q2R candidate_mileage)).
    { assert (inj : forall (A : Type) (a b : A),
                 Returns a = Returns b -> a = b)
        by (intros A a b [=]; assumption).
      unfold Impl.compute_deal_score in E.
      destruct price as [p|]; [|symmetry; apply inj; exact E].
      destruct (match positive median_price with
                | Some m => Impl.exp_overflows m p
                | None => false
                end); [discriminate|].
      destruct (match positive target_price with
                | Some tp => Impl.exp_overflows tp p
                | None => false
                end); [discriminate|].
      symmetry; apply inj; exact E. }
    pose proof (deal_scores_real_bounds
                  (option_map Q2R price) (option_map Q2R percentile)
                  (option_map Q2R median_price)
                  (option_map Q2R target_price)
                  (option_map Q2R target_mileage)
                  (option_map Q2R candidate_mileage)) as H.
    cbv zeta in H. rewrite <- Es in H. cbn [fst snd] in H.
    destruct H as [H1 [H2 [H3 [H4 [H5 H6]]]]].
    assert (Hpos : Deal.positive (option_map Q2R target_price) = None
                   <-> positive target_price = None).
    { unfold Deal.positive, positive.
      destruct target_price as [tp|]; cbn [option_map]; [|tauto].
      destruct (Rlt_dec 0 (Q2R tp)) as [H | H];
        destruct (Qle_bool tp 0) eqn:Eq; split; intros; try discriminate;
        try reflexivity; exfalso.
      - apply Qle_bool_iff, Qle_Rle in Eq.
        rewrite RMicromega.Q2R_0 in Eq. lra.
      - apply H. rewrite <- RMicromega.Q2R_0. apply Qlt_Rlt.
        destruct (Qlt_le_dec 0 tp) as [Hlt | Hge]; [exact Hlt|].
        apply Qle_bool_iff in Hge. congruence. }
    split; [exact H1|]. split; [exact H2|]. split; [exact H3|].
    split; [intros Hn; apply H4; intros Hc; apply Hn, Hpos, Hc|].
    split; [intros Hn; apply H5, Hpos, Hn | exact H6].
  - intros e E. unfold Impl.compute_deal_score in E.
    destruct price as [p|]; [|discriminate].
    destruct (positive median_price) as [m|] eqn:Em.
    + destruct (Impl.exp_overflows m p) eqn:Eo.
      * injection E as <-. split; [reflexivity|].
        exists p, m. auto.
      * destruct (positive target_price) as [tp|] eqn:Et; [|discriminate].
        destruct (Impl.exp_overflows tp p) eqn:Eo2; [|discriminate].
        injection E as <-. split; [reflexivity|].
        exists p, tp. auto.
    + destruct (positive target_price) as [tp|] eqn:Et; [|discriminate].
      destruct (Impl.exp_overflows tp p) eqn:Eo2; [|discriminate].
      injection E as <-. split; [reflexivity|].
      exists p, tp. auto.
  - intros H. unfold Impl.compute_deal_score.
    destruct price as [p|]; [|eexists; reflexivity].
    destruct (H p eq_refl) as [Hp Href].
    destruct (positive median_price) as [m|] eqn:Em.
    + destruct (Href m (or_introl eq_refl)) as [Hm Hle].
      rewrite (exp_argument_small m p Hm Hp Hle).
      destruct (positive target_price) as [tp|] eqn:Et.
      * destruct (Href tp (or_intror eq_refl)) as [Htp Hle2].
        rewrite (exp_argument_small tp p Htp Hp Hle2).
        eexists; reflexivity.
      * eexists; reflexivity.
    + destruct (positive target_price) as [tp|] eqn:Et.
      * destruct (Href tp (or_intror eq_refl)) as [Htp Hle2].
        rewrite (exp_argument_small tp p Htp Hp Hle2).
        eexists; reflexivity.
      * eexists; reflexivity.
Qed.

End DealOverflow.

(* ------------------------------------------------------------------ *)
(** ** Categorical similarity against the specification's rule *)
(* ------------------------------------------------------------------ *)

Section CategoricalRule.
Import PyStr Normalize Store Payloads Similarity SimilarityProps.
Import CategoricalSpec Samples2.
Local Open Scope Q_scope.

Lemma norm_value_name_of (field : option pystr) :
  norm_value field = name_of field.
Proof.
  unfold norm_value, name_of, folded.
  destruct (normalize_text field); reflexivity.
Qed.





End CategoricalRule.

(* ------------------------------------------------------------------ *)
(** ** Freshness and the selected columns *)
(* ------------------------------------------------------------------ *)

Section FreshnessSource.
Import PyStr Store Payloads Ranking Samples2.

(** C9.  The query columns leave out [updated_at], which
    [format_vehicle_payload] reads first: a listing created thirty days
    ago and touched just now gets the freshness term [exp(-1)] of its
    creation date, where the days since [updated_at] (none) give
    [exp(0) = 1]; the payload of a fetched row does not depend on the
    stored [updated_at] at all, although the same function would use it
    had the query selected it. *)
Theorem freshness_ignores_updated_at :
  let now : Q := 2592000 in
  let term (row : Row) :=
    freshness_term
      (freshness_score (p_freshness_days (format_vehicle_payload now row))) in
  l_created_at touched_listing = Some (At 0)
  /\ l_updated_at touched_listing = Some (At now)
  /\ term (select_base_fields touched_listing) = exp (-1)
  /\ term touched_row_with_updated_at = exp (- 0 / 30)
  /\ exp (- 0 / 30) = 1%R
  /\ term (select_base_fields touched_listing) <> 1%R
  /\ (forall (now' : Q) (l : Listing) (u : option stamp),
        format_vehicle_payload now'
          (select_base_fields
             (mkListing (l_vehicle_id l) (l_price l) (l_mileage_km l)
                (l_first_registration_raw l) (l_make l) (l_model l)
                (l_fuel_type l) (l_transmission l) (l_body_type l)
                (l_description l) (l_power_kw l) (l_color l)
                (l_created_at l) u (l_is_vehicle_available l)))
        = format_vehicle_payload now' (select_base_fields l)).
Proof.
  cbv zeta.
  assert (E : freshness_term
                (freshness_score
                   (p_freshness_days
                      (format_vehicle_payload 2592000
                         (select_base_fields touched_listing))))
              = exp (-1)).
  { cbn. f_equal. unfold Q2R. cbn. lra. }
  split; [reflexivity|]. split; [reflexivity|]. split; [exact E|].
  split.
  { cbn. f_equal. unfold Q2R. cbn. lra. }
  split.
  { replace (- 0 / 30)%R with 0%R by lra. apply exp_0. }
  split.
  { rewrite E. apply Rlt_not_eq. rewrite <- exp_0.
    apply exp_increasing. lra. }
  intros now' l u. reflexivity.
Qed.

End FreshnessSource.
